(** * Budget assessment: a Rocq model of [budget_assessment.py]

    The development follows the layout of the script:

    - [Float]: Python [float] values (IEEE-754 binary64) and the arithmetic
      the script performs on them;
    - [budget_accuracy], [compute_suggested_budget]: the pure helpers;
    - the calendar code ([first_last_day_of_last_n_months]);
    - the retry client ([backoff_sleep], [do_request]);
    - the row assembly ([flatten_notifications], [emit_budget_rows]);
    - the remote calls and the driver ([main]) over a scripted remote API;
    - then the properties, in the same order.

    Modelling conventions.

    - A finite double is represented by the rational number it denotes,
      and every arithmetic operation rounds its exact result to the nearest
      double, ties to even ([Float.rnd]).  Infinities, NaN and overflow are
      outside the model: the exponent range is bounded below (subnormals)
      but not above.
    - A Python [str] is the [string] of its UTF-8 bytes.
    - JSON payloads and row dicts are values of [pyobj]; a dict is an
      association list in insertion order.
    - Exceptions are results ([res]); code that talks to the remote side,
      sleeps or prints runs in the state monad [M] over a [world] that
      scripts the remote answers and records what the script did.
    - Of the printed output only the warnings of caught failures are kept,
      without the text of the exception; progress logging, argument
      parsing and the credential are left out.  Of the command line the
      normalisation of the parsed values is kept, and of the workbook the
      sheets and the lines appended to them. *)

From Stdlib Require Import ZArith QArith Qround Qabs Qpower Qminmax Lqa Lia.
From Stdlib Require Import Qreduction SpecFloat.
From Stdlib Require Import List Bool String Ascii Sorted Permutation.
Import ListNotations.

(** ** Exceptions and fallible results *)

(** The Python exceptions the script can meet.  [RequestException] stands
    for every failure of [requests.request] other than a read timeout
    (connection errors, connect timeouts, ...). *)
Inductive exn : Type :=
| ReadTimeout
| HTTPError (status : Z)
| RequestException (msg : string)
| JSONDecodeError
| AttributeError
| TypeError
| ValueError
| KeyError
| IndexError
| ZeroDivisionError
| OverflowError.

(** A computation either returns or raises.  Two more outcomes mark the
    edge of the model: [Diverge] when a loop that the script does not
    bound runs past the iteration bound given to it, [Unmodelled] when a
    run meets a value the model does not represent (an infinite or NaN
    float, a payload whose shape the remote API never produces). *)
Inductive res (A : Type) : Type :=
| Ok (a : A)
| Raise (e : exn)
| Diverge
| Unmodelled.
Arguments Ok {A} a.
Arguments Raise {A} e.
Arguments Diverge {A}.
Arguments Unmodelled {A}.

Definition res_bind {A B} (r : res A) (k : A -> res B) : res B :=
  match r with
  | Ok a => k a
  | Raise e => Raise e
  | Diverge => Diverge
  | Unmodelled => Unmodelled
  end.

Declare Scope res_scope.
Delimit Scope res_scope with res.
Notation "'let?' x ':=' r 'in' k" := (res_bind r (fun x => k))
  (at level 10, x pattern, r at level 100, k at level 200) : res_scope.

(** ** Python floats *)

Module Float.

Local Open Scope Q_scope.

(** The value of a finite double, as a rational. *)
Definition float := Q.

Definition pow2 (k : Z) : Q := (2 # 1) ^ k.

(** [exponent_of x] is [floor (log2 x)] for a positive [x]. *)
Definition exponent_of (x : Q) : Z :=
  let e := (Z.log2 (Qnum x) - Z.log2 (Zpos (Qden x)))%Z in
  if Qle_bool (pow2 e) x then e else (e - 1)%Z.

(** Nearest integer, ties to even. *)
Definition rne (y : Q) : Z :=
  let f := Qfloor y in
  match Qcompare (y - inject_Z f) (1 # 2) with
  | Lt => f
  | Gt => (f + 1)%Z
  | Eq => if Z.even f then f else (f + 1)%Z
  end.

(** binary64: 53 significant bits, least exponent -1074. *)
Definition mant_bits : Z := 52.
Definition emin : Z := -1074.

Definition ulp_exponent (x : Q) : Z := Z.max (exponent_of x - mant_bits) emin.

Definition rnd_pos (x : Q) : Q :=
  let k := ulp_exponent x in
  Qred (inject_Z (rne (x / pow2 k)) * pow2 k).

(** Round to nearest double, ties to even. *)
Definition rnd (x : Q) : float :=
  match Qnum x with
  | Z0 => 0
  | Zpos _ => rnd_pos x
  | Zneg _ => - rnd_pos (- x)
  end.

(** A rational is a double when rounding leaves it unchanged. *)
Definition is_float (x : Q) : Prop := rnd x == x.

(** [float(n)] for an int [n], and a decimal literal [n/d]. *)
Definition of_Z (n : Z) : float := rnd (inject_Z n).
Definition lit (n : Z) (d : positive) : float := rnd (n # d).

Definition add (x y : float) : float := rnd (x + y).
Definition sub (x y : float) : float := rnd (x - y).
Definition mul (x y : float) : float := rnd (x * y).

(** [x / y] raises [ZeroDivisionError] on a zero divisor. *)
Definition div (x y : float) : res float :=
  if Qeq_bool y 0 then Raise ZeroDivisionError else Ok (rnd (x / y)).

Definition abs (x : float) : float := Qabs x.
Definition leb (x y : float) : bool := Qle_bool x y.
Definition ltb (x y : float) : bool := negb (Qle_bool y x).

(** [bool(x)]: a float is falsy exactly when it is zero. *)
Definition truthy (x : float) : bool := negb (Qeq_bool x 0).

(** The builtin [max(a, b)]: [b] replaces [a] only when [b > a]. *)
Definition max (a b : float) : float := if ltb a b then b else a.

(** [math.ceil]. *)
Definition ceil (x : float) : Z := Qceiling x.

(** [round(x, ndigits)] on a float: the decimal with [ndigits] places
    nearest to the exact value of [x] (ties to even), read back as a
    double. *)
Definition round (x : float) (ndigits : nat) : float :=
  let s := inject_Z (10 ^ Z.of_nat ndigits) in
  rnd (inject_Z (rne (x * s)) / s).

End Float.

(** The binary64 operations of the standard library's [SpecFloat], used
    as a reference to check [Float.rnd] against. *)
Module Binary64.

Definition prec : Z := 53.
Definition emax : Z := 1024.

Definition of_Z (n : Z) : spec_float := binary_normalize prec emax n 0 false.

Definition add : spec_float -> spec_float -> spec_float := SFadd prec emax.
Definition sub : spec_float -> spec_float -> spec_float := SFsub prec emax.
Definition mul : spec_float -> spec_float -> spec_float := SFmul prec emax.
Definition div : spec_float -> spec_float -> spec_float := SFdiv prec emax.

(** The rational a finite float denotes. *)
Definition value (f : spec_float) : option Q :=
  match f with
  | S754_zero _ => Some 0%Q
  | S754_finite s m e =>
      Some (Qred (Qmult (inject_Z (if s then Zneg m else Zpos m))
                        (Float.pow2 e)))
  | _ => None
  end.

End Binary64.


(** ** Python values *)

(** JSON payloads and the values the script stores in report rows.  A
    dict is an association list in insertion order. *)
#[warnings="-register-all"]
Inductive pyobj : Type :=
| VNone
| VBool (b : bool)
| VInt (n : Z)
| VFloat (x : Float.float)
| VStr (s : string)
| VList (l : list pyobj)
| VDict (d : list (string * pyobj)).

(** ** Assessment helpers *)

Section Assessment.

Import Float.
Local Open Scope res_scope.

Definition BUDGET_HEADROOM_PCT : float := lit 10 100.
Definition BUDGET_ROUND_TO : Z := 100.

Definition budget_accuracy (budget actual : float) : res float :=
  if leb budget 0 && leb actual 0 then Ok 1%Q
  else if leb budget 0 || leb actual 0 then Ok 0%Q
  else
    let? q := div (abs (sub budget actual)) (max budget actual) in
    Ok (sub 1 q).

(** The builtin [sum] over floats, from the int start value [0], as a
    left fold.  (Python 3.12 sums floats with compensation; the two agree
    on the lists of at most two elements the script passes.) *)
Definition sum (l : list float) : float := fold_left add l (of_Z 0).

(** The builtin [round(x, ndigits)]: an int is returned unchanged for a
    non-negative [ndigits]. *)
Definition py_round (x : pyobj) (ndigits : nat) : res pyobj :=
  match x with
  | VInt n => Ok (VInt n)
  | VBool b => Ok (VInt (if b then 1 else 0))
  | VFloat f => Ok (VFloat (round f ndigits))
  | _ => Raise TypeError
  end.

Definition compute_suggested_budget (value : float) (prev_two_months : list float)
  : res pyobj :=
  let? avg := div (add value (sum prev_two_months))
                  (of_Z (1 + Z.of_nat (List.length prev_two_months))) in
  let baseline := max value avg in
  let suggestion := mul baseline (add 1 BUDGET_HEADROOM_PCT) in
  let? suggestion :=
    if (0 <? BUDGET_ROUND_TO)%Z then
      let? q := div suggestion (of_Z BUDGET_ROUND_TO) in
      Ok (VInt (ceil q * BUDGET_ROUND_TO))
    else Ok (VFloat suggestion) in
  py_round suggestion 2.


End Assessment.

(** ** Strings *)

Section Strings.

Local Open Scope string_scope.

(** [str.lower] on ASCII letters.  A [string] holds the UTF-8 bytes of a
    Python [str]; bytes outside A-Z are left alone. *)
Definition lower_ascii (c : ascii) : ascii :=
  let n := nat_of_ascii c in
  if (65 <=? n)%nat && (n <=? 90)%nat then ascii_of_nat (n + 32) else c.

Fixpoint lower (s : string) : string :=
  match s with
  | EmptyString => EmptyString
  | String c s' => String (lower_ascii c) (lower s')
  end.

(** [s.startswith(p)] and [s.endswith(p)]. *)
Definition startswith (s p : string) : bool := String.prefix p s.

Definition endswith (s p : string) : bool :=
  let n := String.length s in
  let k := String.length p in
  (k <=? n)%nat && String.eqb (String.substring (n - k) k s) p.

(** [sep.join(l)]. *)
Fixpoint join (sep : string) (l : list string) : string :=
  match l with
  | [] => ""
  | [x] => x
  | x :: l' => x ++ sep ++ join sep l'
  end.

(** ASCII whitespace as [str.strip] and [int] see it. *)
Definition is_space (c : ascii) : bool :=
  let n := nat_of_ascii c in
  ((9 <=? n)%nat && (n <=? 13)%nat) || ((28 <=? n)%nat && (n <=? 32)%nat).

Definition is_digit (c : ascii) : bool :=
  let n := nat_of_ascii c in (48 <=? n)%nat && (n <=? 57)%nat.

Definition digit_value (c : ascii) : Z := Z.of_nat (nat_of_ascii c - 48).

Fixpoint lstrip (l : list ascii) : list ascii :=
  match l with
  | c :: l' => if is_space c then lstrip l' else l
  | [] => []
  end.

Definition strip (l : list ascii) : list ascii := rev (lstrip (rev (lstrip l))).

(** Decimal digits with single underscores between them. *)
Fixpoint parse_digits (l : list ascii) (acc : Z) (after_digit : bool) : option Z :=
  match l with
  | [] => if after_digit then Some acc else None
  | c :: l' =>
      if is_digit c then parse_digits l' (10 * acc + digit_value c) true
      else if Ascii.eqb c "_" then
        if after_digit then parse_digits l' acc false else None
      else None
  end.

(** [int(s)] for a [str] in base 10; [None] is [ValueError].  Only ASCII
    digits are recognised, and the length of the digit string is not
    limited. *)
Definition int_of_string (s : string) : option Z :=
  match strip (list_ascii_of_string s) with
  | c :: l =>
      if Ascii.eqb c "-" then option_map Z.opp (parse_digits l 0 false)
      else if Ascii.eqb c "+" then parse_digits l 0 false
      else parse_digits (c :: l) 0 false
  | [] => None
  end.

End Strings.

(** ** Calendar dates *)

Section Dates.

Local Open Scope Z_scope.
Local Open Scope res_scope.

(** A [datetime.date]: proleptic Gregorian, years 1 to 9999. *)
Record date : Type := { year : Z; month : Z; day : Z }.

Definition MINYEAR : Z := 1.
Definition MAXYEAR : Z := 9999.

Definition is_leap (y : Z) : bool :=
  (y mod 4 =? 0) && (negb (y mod 100 =? 0) || (y mod 400 =? 0)).

(** [calendar.monthrange(y, m)[1]]. *)
Definition days_in_month (y m : Z) : Z :=
  if m =? 2 then (if is_leap y then 29 else 28)
  else if (m =? 4) || (m =? 6) || (m =? 9) || (m =? 11) then 30
  else 31.

Definition valid_date (d : date) : bool :=
  (MINYEAR <=? year d) && (year d <=? MAXYEAR) &&
  (1 <=? month d) && (month d <=? 12) &&
  (1 <=? day d) && (day d <=? days_in_month (year d) (month d)).

(** The [date] constructor, as [replace] calls it. *)
Definition make_date (y m d : Z) : res date :=
  let r := {| year := y; month := m; day := d |} in
  if valid_date r then Ok r else Raise ValueError.

(** [d.replace(day=n)]. *)
Definition replace_day (d : date) (n : Z) : res date :=
  make_date (year d) (month d) n.

(** [d + relativedelta(months=k)] for [1 <= |k| <= 12], as dateutil adds a
    month delta: shift the month, carry into the year, cap the day at the
    length of the target month. *)
Definition add_months (d : date) (k : Z) : res date :=
  let m := month d + k in
  let '(y, m) :=
    if 12 <? m then (year d + 1, m - 12)
    else if m <? 1 then (year d - 1, m + 12)
    else (year d, m) in
  make_date y m (Z.min (days_in_month y m) (day d)).

(** [d + timedelta(days=1)] and [d - timedelta(days=1)]; leaving the
    supported years is an [OverflowError]. *)
Definition next_day (d : date) : res date :=
  let r :=
    if day d <? days_in_month (year d) (month d)
    then {| year := year d; month := month d; day := day d + 1 |}
    else if month d <? 12
    then {| year := year d; month := month d + 1; day := 1 |}
    else {| year := year d + 1; month := 1; day := 1 |} in
  if year r <=? MAXYEAR then Ok r else Raise OverflowError.

Definition previous_day (d : date) : res date :=
  let r :=
    if 1 <? day d
    then {| year := year d; month := month d; day := day d - 1 |}
    else if 1 <? month d
    then {| year := year d; month := month d - 1;
            day := days_in_month (year d) (month d - 1) |}
    else {| year := year d - 1; month := 12; day := 31 |} in
  if MINYEAR <=? year r then Ok r else Raise OverflowError.

(** The body of the [for _ in range(n)] loop, [k] iterations to go. *)
Fixpoint month_windows (k : nat) (month_cursor : date) (out : list (date * date))
  : res (list (date * date)) :=
  match k with
  | O => Ok out
  | S k' =>
      let? start := replace_day month_cursor 1 in
      let? following := add_months start 1 in
      let? end_ := previous_day following in
      let? month_cursor := add_months start (-1) in
      month_windows k' month_cursor (out ++ [(start, end_)])
  end.

(** [date.today()] is passed in as [today]. *)
Definition first_last_day_of_last_n_months (today : date) (n : Z)
  : res (list (date * date)) :=
  let? first_this_month := replace_day today 1 in
  let? month_cursor := add_months first_this_month (-1) in
  month_windows (Z.to_nat n) month_cursor [].

(** The specification's reading: the calendar month before a (year, month)
    pair, the window of a month from its first to its last day, and the
    [n] months before the month of [today], most recent first. *)
Definition prev_month (ym : Z * Z) : Z * Z :=
  let '(y, m) := ym in if m =? 1 then (y - 1, 12) else (y, m - 1).

Definition next_month (ym : Z * Z) : Z * Z :=
  let '(y, m) := ym in if m =? 12 then (y + 1, 1) else (y, m + 1).

Definition month_window (ym : Z * Z) : date * date :=
  let '(y, m) := ym in
  ({| year := y; month := m; day := 1 |},
   {| year := y; month := m; day := days_in_month y m |}).

Definition months_back (today : date) (i : nat) : Z * Z :=
  Nat.iter i prev_month (year today, month today).

Definition elapsed_months (today : date) (n : nat) : list (date * date) :=
  map (fun i => month_window (months_back today i)) (seq 1 n).

(** The first day of a month. *)
Definition first_of (ym : Z * Z) : date :=
  {| year := fst ym; month := snd ym; day := 1 |}.

Definition month_index (ym : Z * Z) : Z := 12 * fst ym + snd ym.

(** [d.isoformat()]: YYYY-MM-DD. *)
Definition digit_char (n : Z) : ascii := ascii_of_nat (48 + Z.to_nat (n mod 10)).

Definition isoformat (d : date) : string :=
  let y := year d in
  let m := month d in
  let dd := day d in
  String (digit_char (y / 1000)) (String (digit_char (y / 100))
  (String (digit_char (y / 10)) (String (digit_char y)
  (String "-" (String (digit_char (m / 10)) (String (digit_char m)
  (String "-" (String (digit_char (dd / 10)) (String (digit_char dd)
  EmptyString))))))))).

End Dates.

(** ** The remote API and the effects of the script *)

(** What [requests.request] is given. *)
Record request : Type := {
  req_method : string;
  req_url : string;
  req_token : string;
  req_json : option pyobj
}.

(** What it gives back: the status code, the [Retry-After] header if any,
    and the decoded JSON body ([None] when the body is not JSON). *)
Record response : Type := {
  status_code : Z;
  retry_after : option string;
  body : option pyobj
}.

Inductive outcome : Type :=
| Responded (r : response)
| TimedOut
| Failed (e : exn).

(** The world: the remote side answers the [n]-th request the script
    sends and the clock gives [date.today()]; the requests sent, the sleeps
    taken and the lines printed are recorded, most recent first. *)
Record world : Type := {
  server : nat -> request -> outcome;
  clock : date;
  sent : list request;
  slept : list Z;
  printed : list string
}.

Definition M (A : Type) : Type := world -> res A * world.

Definition ret {A} (a : A) : M A := fun w => (Ok a, w).

Definition bind {A B} (m : M A) (k : A -> M B) : M B :=
  fun w =>
    match m w with
    | (Ok a, w') => k a w'
    | (Raise e, w') => (Raise e, w')
    | (Diverge, w') => (Diverge, w')
    | (Unmodelled, w') => (Unmodelled, w')
    end.

Definition raise {A} (e : exn) : M A := fun w => (Raise e, w).

Definition diverge {A} : M A := fun w => (Diverge, w).

Definition lift {A} (r : res A) : M A := fun w => (r, w).

(** [try: m  except Exception as e: h e]. *)
Definition try_except {A} (m : M A) (h : exn -> M A) : M A :=
  fun w =>
    match m w with
    | (Raise e, w') => h e w'
    | r => r
    end.

Declare Scope M_scope.
Delimit Scope M_scope with M.
Notation "x <- m ;; k" := (bind m (fun x => k))
  (at level 61, m at next level, right associativity) : M_scope.
Notation "m ;; k" := (bind m (fun _ => k))
  (at level 61, right associativity) : M_scope.

Definition initial_world (srv : nat -> request -> outcome) (d : date) : world :=
  {| server := srv; clock := d; sent := []; slept := []; printed := [] |}.

Section Effects.

Local Open Scope M_scope.

(** [requests.request(...)]: one exchange with the remote side. *)
Definition send (r : request) : M outcome :=
  fun w =>
    (Ok (server w (List.length (sent w)) r),
     {| server := server w; clock := clock w; sent := r :: sent w;
        slept := slept w; printed := printed w |}).

(** [date.today()]. *)
Definition get_today : M date := fun w => (Ok (clock w), w).

(** [time.sleep(secs)]. *)
Definition sleep (secs : Z) : M unit :=
  fun w =>
    (Ok tt,
     {| server := server w; clock := clock w; sent := sent w;
        slept := secs :: slept w; printed := printed w |}).

(** [print(line)]. *)
Definition print (line : string) : M unit :=
  fun w =>
    (Ok tt,
     {| server := server w; clock := clock w; sent := sent w;
        slept := slept w; printed := line :: printed w |}).

(** The world after a request, and after a request followed by a sleep. *)
Definition after_send (r : request) (w : world) : world :=
  {| server := server w; clock := clock w; sent := r :: sent w;
     slept := slept w; printed := printed w |}.

Definition after_retry (r : request) (d : Z) (w : world) : world :=
  {| server := server w; clock := clock w; sent := r :: sent w;
     slept := d :: slept w; printed := printed w |}.

(** The world after one more printed line. *)
Definition after_print (line : string) (w : world) : world :=
  {| server := server w; clock := clock w; sent := sent w;
     slept := slept w; printed := line :: printed w |}.

End Effects.

(** ** The retry client *)

Section RetryClient.

Local Open Scope M_scope.

(** [bool(header)] for an optional string. *)
Definition header_truthy (h : option string) : bool :=
  match h with
  | Some s => negb (String.eqb s "")
  | None => false
  end.

Definition backoff_sleep (retry_after_header : option string) (attempt : nat)
  : M unit :=
  match (if header_truthy retry_after_header
         then match retry_after_header with
              | Some s => int_of_string s
              | None => None
              end
         else None) with
  | Some secs => sleep (Z.max 1 (Z.min secs 60))
  | None => sleep (Z.min (2 ^ Z.of_nat attempt) 30)
  end.

(** The delay as the specification words it: the server's value clamped
    to [1, 60] when it supplied one the client can read as an integer, an
    exponential backoff capped at 30 otherwise. *)
Definition clamp (v lo hi : Z) : Z :=
  if (v <? lo)%Z then lo else if (hi <? v)%Z then hi else v.

Definition retry_delay (retry_after_header : option string) (attempt : nat) : Z :=
  match retry_after_header with
  | Some s =>
      match int_of_string s with
      | Some v => clamp v 1 60
      | None => Z.min (2 ^ Z.of_nat attempt) 30
      end
  | None => Z.min (2 ^ Z.of_nat attempt) 30
  end.

(** [Response.raise_for_status] of the requests library: an [HTTPError]
    for the 4xx and 5xx statuses, nothing otherwise. *)
Definition raise_for_status (resp : response) : M unit :=
  let s := status_code resp in
  if (400 <=? s)%Z && (s <? 600)%Z then raise (HTTPError s) else ret tt.

Definition retryable (s : Z) : bool :=
  existsb (Z.eqb s) [429; 500; 502; 503; 504]%Z.

(** The [while True] loop of [do_request]; [fuel] bounds its iterations. *)
Fixpoint do_request_loop (fuel : nat) (r : request) (attempt : nat)
  : M response :=
  match fuel with
  | O => diverge
  | S fuel' =>
      o <- send r ;;
      match o with
      | TimedOut =>
          let attempt := S attempt in
          if (6 <? attempt)%nat then raise ReadTimeout
          else backoff_sleep None attempt ;; do_request_loop fuel' r attempt
      | Failed e => raise e
      | Responded resp =>
          if retryable (status_code resp) then
            let attempt := S attempt in
            (if (6 <? attempt)%nat then raise_for_status resp else ret tt) ;;
            backoff_sleep (retry_after resp) attempt ;;
            do_request_loop fuel' r attempt
          else
            raise_for_status resp ;;
            ret resp
      end
  end.

(** Seven iterations are all the loop can make (see [do_request_fuel]). *)
Definition do_request (method url token : string) (json : option pyobj)
  : M response :=
  do_request_loop 7
    {| req_method := method; req_url := url; req_token := token;
       req_json := json |} 0.

(** Reading an attempt's outcome: whether the client retries after it,
    the error it stands for once the retries are used up, and the
    [Retry-After] header it carries. *)
Definition transient (o : outcome) : bool :=
  match o with
  | TimedOut => true
  | Responded resp => retryable (status_code resp)
  | Failed _ => false
  end.

Definition final_error (o : outcome) : exn :=
  match o with
  | TimedOut => ReadTimeout
  | Responded resp => HTTPError (status_code resp)
  | Failed e => e
  end.

Definition outcome_header (o : outcome) : option string :=
  match o with
  | Responded resp => retry_after resp
  | _ => None
  end.

(** The delays slept before retries [attempt+1 .. attempt+n], most recent
    first. *)
Definition delays_slept (w : world) (r : request) (attempt n : nat) : list Z :=
  rev (map (fun k =>
              retry_delay
                (outcome_header (server w (List.length (sent w) + k) r))
                (S (attempt + k)))
           (seq 0 n)).

End RetryClient.

(** ** Operations on Python objects *)

Section PyObjects.

Local Open Scope string_scope.
Local Open Scope list_scope.
Local Open Scope res_scope.

(** [bool(v)]. *)
Definition truthy (v : pyobj) : bool :=
  match v with
  | VNone => false
  | VBool b => b
  | VInt n => negb (n =? 0)%Z
  | VFloat x => Float.truthy x
  | VStr s => negb (String.eqb s "")
  | VList l => match l with [] => false | _ => true end
  | VDict d => match d with [] => false | _ => true end
  end.

(** [a or b]. *)
Definition py_or (a b : pyobj) : pyobj := if truthy a then a else b.

Definition is_none (v : pyobj) : bool :=
  match v with VNone => true | _ => false end.

Fixpoint dict_lookup (d : list (string * pyobj)) (k : string) : option pyobj :=
  match d with
  | [] => None
  | (k', v) :: d' => if String.eqb k' k then Some v else dict_lookup d' k
  end.

(** [o.get(k, default)]: only a dict has [get]. *)
Definition py_get (o : pyobj) (k : string) (default : pyobj) : res pyobj :=
  match o with
  | VDict d =>
      Ok (match dict_lookup d k with Some v => v | None => default end)
  | _ => Raise AttributeError
  end.

(** [s.lower()]: only a str has [lower]. *)
Definition py_lower (v : pyobj) : res string :=
  match v with
  | VStr s => Ok (lower s)
  | _ => Raise AttributeError
  end.

(** [str(b)] for a bool. *)
Definition str_of_bool (b : bool) : string := if b then "True" else "False".

(** *** [float(s)] on a str *)

(** The number of digits in a run of digits and underscores. *)
Definition count_digits (l : list ascii) : Z :=
  Z.of_nat (List.length (filter is_digit l)).

(** Split at the first character satisfying [p]. *)
Fixpoint split_at (p : ascii -> bool) (l : list ascii)
  : list ascii * option (list ascii) :=
  match l with
  | [] => ([], None)
  | c :: l' =>
      if p c then ([], Some l')
      else let '(a, b) := split_at p l' in (c :: a, b)
  end.

Definition is_exp_mark (c : ascii) : bool := Ascii.eqb c "e" || Ascii.eqb c "E".
Definition is_point (c : ascii) : bool := Ascii.eqb c ".".

(** An optional run of digits: absent or empty counts as no digits. *)
Definition parse_optional_digits (l : list ascii) : option Z :=
  match l with
  | [] => Some 0%Z
  | _ => parse_digits l 0 false
  end.

Definition parse_signed_digits (l : list ascii) : option Z :=
  match l with
  | c :: l' =>
      if Ascii.eqb c "-" then option_map Z.opp (parse_digits l' 0 false)
      else if Ascii.eqb c "+" then parse_digits l' 0 false
      else parse_digits l 0 false
  | [] => None
  end.

(** [m * 10^e] as a rational. *)
Definition scale10 (m e : Z) : Q :=
  if (0 <=? e)%Z then inject_Z (m * 10 ^ e)
  else Qmake m (Z.to_pos (10 ^ (- e))).

Definition is_nonfinite_word (l : list ascii) : bool :=
  let s := lower (string_of_list_ascii l) in
  String.eqb s "inf" || String.eqb s "infinity" || String.eqb s "nan".

(** The decimal forms [float] accepts, after the sign:
    digits [. digits] [e [sign] digits], with digits on at least one side
    of the point.  [None] is [ValueError]. *)
Definition parse_decimal (l : list ascii) : option Q :=
  let '(mant, exp) := split_at is_exp_mark l in
  let '(int_part, frac) := split_at is_point mant in
  let frac_part := match frac with Some f => f | None => [] end in
  match int_part, frac_part with
  | [], [] => None
  | _, _ =>
      match parse_optional_digits int_part, parse_optional_digits frac_part,
            (match exp with
             | Some e => parse_signed_digits e
             | None => Some 0%Z
             end) with
      | Some i, Some f, Some e =>
          let k := count_digits frac_part in
          Some (scale10 (i * 10 ^ k + f) (e - k))
      | _, _, _ => None
      end
  end.

Definition float_of_string (s : string) : res Float.float :=
  let l := strip (list_ascii_of_string s) in
  let '(negative, body) :=
    match l with
    | c :: l' =>
        if Ascii.eqb c "-" then (true, l')
        else if Ascii.eqb c "+" then (false, l')
        else (false, l)
    | [] => (false, [])
    end in
  if is_nonfinite_word body then Unmodelled
  else
    match parse_decimal body with
    | Some q => Ok (Float.rnd (if negative then Qopp q else q))
    | None => Raise ValueError
    end.

(** [float(v)]. *)
Definition py_float (v : pyobj) : res Float.float :=
  match v with
  | VFloat x => Ok x
  | VInt n => Ok (Float.of_Z n)
  | VBool b => Ok (if b then 1%Q else 0%Q)
  | VStr s => float_of_string s
  | _ => Raise TypeError
  end.

(** *** Comparisons *)

(** The value of a number; a bool counts as 0 or 1. *)
Definition number_value (v : pyobj) : option Q :=
  match v with
  | VBool b => Some (if b then 1%Q else 0%Q)
  | VInt n => Some (inject_Z n)
  | VFloat x => Some x
  | _ => None
  end.

Definition is_container (v : pyobj) : bool :=
  match v with VList _ | VDict _ => true | _ => false end.

(** [a == b] and [a < b] on scalars.  Comparing lists or dicts is left
    out of the model. *)
Definition py_eq (a b : pyobj) : res bool :=
  if is_container a || is_container b then Unmodelled
  else
    match a, b with
    | VNone, VNone => Ok true
    | VStr s, VStr t => Ok (String.eqb s t)
    | _, _ =>
        match number_value a, number_value b with
        | Some x, Some y => Ok (Qeq_bool x y)
        | _, _ => Ok false
        end
    end.

Definition py_lt (a b : pyobj) : res bool :=
  if is_container a || is_container b then Unmodelled
  else
    match a, b with
    | VStr s, VStr t => Ok (String.ltb s t)
    | _, _ =>
        match number_value a, number_value b with
        | Some x, Some y => Ok (Float.ltb x y)
        | _, _ => Raise TypeError
        end
    end.

(** *** Joining contact lists *)

Definition is_continuation (c : ascii) : bool :=
  let n := nat_of_ascii c in (128 <=? n)%nat && (n <? 192)%nat.

(** The characters of a UTF-8 string. *)
Fixpoint chars_aux (l : list ascii) : list ascii * list string :=
  match l with
  | [] => ([], [])
  | c :: l' =>
      let '(pending, done) := chars_aux l' in
      if is_continuation c then (c :: pending, done)
      else ([], string_of_list_ascii (c :: pending) :: done)
  end.

Definition chars (s : string) : list string :=
  let '(pending, done) := chars_aux (list_ascii_of_string s) in
  match pending with
  | [] => done
  | _ => string_of_list_ascii pending :: done
  end.

Fixpoint all_strings (l : list pyobj) : option (list string) :=
  match l with
  | [] => Some []
  | VStr s :: l' => option_map (cons s) (all_strings l')
  | _ :: _ => None
  end.

(** [";".join(v or [])]. *)
Definition join_contacts (v : pyobj) : res string :=
  match py_or v (VList []) with
  | VList l =>
      match all_strings l with
      | Some ss => Ok (join ";" ss)
      | None => Raise TypeError
      end
  | VStr s => Ok (join ";" (chars s))
  | VDict d => Ok (join ";" (map fst d))
  | _ => Raise TypeError
  end.

End PyObjects.

(** ** Notification conditions *)

Section Notifications.

Local Open Scope string_scope.
Local Open Scope list_scope.
Local Open Scope res_scope.

(** The dict built for one entry of the notifications mapping. *)
Definition make_condition (key : string) (cfg : pyobj) : res pyobj :=
  let? enabled := py_get cfg "enabled" (VBool true) in
  let? threshold_type := py_get cfg "thresholdType" (VStr "") in
  let? operator := py_get cfg "operator" (VStr "") in
  let? threshold := py_get cfg "threshold" VNone in
  let? emails := py_get cfg "contactEmails" (VList []) in
  let? emails := join_contacts emails in
  let? groups := py_get cfg "contactGroups" (VList []) in
  let? groups := join_contacts groups in
  let? roles := py_get cfg "contactRoles" (VList []) in
  let? roles := join_contacts roles in
  Ok (VDict [("ConditionKey", VStr key);
             ("Enabled", VBool (truthy enabled));
             ("ThresholdType", threshold_type);
             ("Operator", operator);
             ("ThresholdPercent", threshold);
             ("ContactEmails", VStr emails);
             ("ContactGroups", VStr groups);
             ("ContactRoles", VStr roles)]).

(** The [for key, cfg in notifs.items()] loop. *)
Fixpoint collect_conditions (items : list (string * pyobj)) : res (list pyobj) :=
  match items with
  | [] => Ok []
  | (key, cfg) :: rest =>
      match cfg with
      | VDict _ =>
          let? c := make_condition key cfg in
          let? cs := collect_conditions rest in
          Ok (c :: cs)
      | _ => collect_conditions rest
      end
  end.

(** The sort key of a flattened condition. *)
Definition sort_key (r : pyobj) : res (pyobj * Float.float) :=
  let? t := py_get r "ThresholdType" (VStr "") in
  let? p := py_get r "ThresholdPercent" VNone in
  let? p := py_float (py_or p (VInt 0)) in
  Ok (t, p).

(** [k1 < k2] on the key tuples. *)
Definition key_lt (k1 k2 : pyobj * Float.float) : res bool :=
  let? same := py_eq (fst k1) (fst k2) in
  if same then Ok (Float.ltb (snd k1) (snd k2))
  else py_lt (fst k1) (fst k2).

Fixpoint with_keys (l : list pyobj) : res (list ((pyobj * Float.float) * pyobj)) :=
  match l with
  | [] => Ok []
  | r :: l' =>
      let? k := sort_key r in
      let? rest := with_keys l' in
      Ok ((k, r) :: rest)
  end.

(** [list.sort] is stable: an element goes before the first one that is
    strictly greater. *)
Fixpoint insert_sorted (x : (pyobj * Float.float) * pyobj)
    (l : list ((pyobj * Float.float) * pyobj))
  : res (list ((pyobj * Float.float) * pyobj)) :=
  match l with
  | [] => Ok [x]
  | y :: l' =>
      let? b := key_lt (fst x) (fst y) in
      if b then Ok (x :: y :: l')
      else
        let? r := insert_sorted x l' in
        Ok (y :: r)
  end.

Fixpoint sort_keyed (l acc : list ((pyobj * Float.float) * pyobj))
  : res (list ((pyobj * Float.float) * pyobj)) :=
  match l with
  | [] => Ok acc
  | x :: l' =>
      let? acc := insert_sorted x acc in
      sort_keyed l' acc
  end.

(** [out.sort(key=...)]. *)
Definition sort_conditions (out : list pyobj) : res (list pyobj) :=
  let? keyed := with_keys out in
  let? sorted := sort_keyed keyed [] in
  Ok (map snd sorted).

Definition flatten_notifications (notifs : pyobj) : res (list pyobj) :=
  if negb (truthy notifs) then Ok []
  else
    match notifs with
    | VDict items =>
        let? out := collect_conditions items in
        sort_conditions out
    | _ => Raise AttributeError
    end.

End Notifications.

(** ** Row assembly *)

Section Rows.

Local Open Scope string_scope.
Local Open Scope list_scope.
Local Open Scope res_scope.

(** An optional float as a cell: the value, or [""] when it is [None]. *)
Definition cell_of (x : option Float.float) : pyobj :=
  match x with
  | Some v => VFloat v
  | None => VStr ""
  end.

(** [value / float(amount) * 100] rounded to 2 places when both [value]
    and [amount] are truthy, [""] otherwise. *)
Definition percent_of_amount (value : option Float.float) (amount : pyobj)
  : res pyobj :=
  match value with
  | Some v =>
      if Float.truthy v && truthy amount then
        let? a := py_float amount in
        let? q := Float.div v a in
        Ok (VFloat (Float.round (Float.mul q (Float.of_Z 100)) 2))
      else Ok (VStr "")
  | None => Ok (VStr "")
  end.

(** [round(budget_accuracy(float(amount), float(last_val)), 4)] when
    [last_val] is not [None] and [amount] is truthy, [""] otherwise. *)
Definition accuracy_cell (last_val : option Float.float) (amount : pyobj)
  : res pyobj :=
  match last_val with
  | Some lv =>
      if truthy amount then
        let? a := py_float amount in
        let? r := budget_accuracy a lv in
        Ok (VFloat (Float.round r 4))
      else Ok (VStr "")
  | None => Ok (VStr "")
  end.

(** [x != ""] for a cell holding a float or [""]. *)
Definition not_empty_string (x : pyobj) : bool :=
  match x with
  | VStr s => negb (String.eqb s "")
  | _ => true
  end.

(** The [try: ... except Exception: will_trigger = ""] block. *)
Definition compare_forecast (forecast_percent_of_budget threshold : pyobj)
  : res pyobj :=
  match (let? f := py_float forecast_percent_of_budget in
         let? t := py_float threshold in
         Ok (Float.leb t f)) with
  | Ok b => Ok (VStr (str_of_bool b))
  | Raise _ => Ok (VStr "")
  | Diverge => Diverge
  | Unmodelled => Unmodelled
  end.

(** [will_trigger] for one condition ([VNone] when the budget has none). *)
Definition forecast_will_trigger (cond forecast_percent_of_budget : pyobj)
  : res pyobj :=
  if truthy cond then
    let? threshold_type := py_get cond "ThresholdType" (VStr "") in
    let? lowered := py_lower threshold_type in
    if startswith lowered "forecast" then
      let? threshold := py_get cond "ThresholdPercent" VNone in
      if not_empty_string forecast_percent_of_budget && negb (is_none threshold)
      then compare_forecast forecast_percent_of_budget threshold
      else Ok (VStr "")
    else Ok (VStr "")
  else Ok (VStr "").

(** [cond.get(k, "") if cond else ""]. *)
Definition cond_field (cond : pyobj) (k : string) : res pyobj :=
  if truthy cond then py_get cond k (VStr "") else Ok (VStr "").

(** What [emit_budget_rows] computes once per budget. *)
Record budget_cells : Type := {
  bc_name : pyobj;
  bc_amount : pyobj;
  bc_time_grain : pyobj;
  bc_start_date : pyobj;
  bc_end_date : pyobj;
  bc_acc : pyobj;
  bc_suggested_actual_based : pyobj;
  bc_suggested_forecast_based : pyobj;
  bc_percent_of_budget_last_month : pyobj;
  bc_forecast_percent_of_budget : pyobj
}.

(** The dict appended for one condition. *)
Definition make_row (scope_type scope_id : string) (sub_name : pyobj)
    (sub_id resource_group : string) (b : budget_cells)
    (last_val : option Float.float) (prev_two : list Float.float)
    (forecast_total : option Float.float) (cond will_trigger : pyobj)
  : res pyobj :=
  let? budget_amount :=
    if is_none (bc_amount b) then Ok (VStr "")
    else
      let? a := py_float (bc_amount b) in
      Ok (VFloat (Float.round a 2)) in
  let? condition_key := cond_field cond "ConditionKey" in
  let? threshold_type := cond_field cond "ThresholdType" in
  let? operator := cond_field cond "Operator" in
  let? threshold_percent := cond_field cond "ThresholdPercent" in
  let? enabled := cond_field cond "Enabled" in
  let? contact_emails := cond_field cond "ContactEmails" in
  let? contact_groups := cond_field cond "ContactGroups" in
  let? contact_roles := cond_field cond "ContactRoles" in
  Ok (VDict
        [("ScopeType", VStr scope_type);
         ("ScopeId", VStr scope_id);
         ("SubscriptionName", sub_name);
         ("SubscriptionId", VStr sub_id);
         ("ResourceGroup", VStr resource_group);
         ("BudgetName", bc_name b);
         ("BudgetAmount", budget_amount);
         ("BudgetTimeGrain", bc_time_grain b);
         ("BudgetStartDate", bc_start_date b);
         ("BudgetEndDate", py_or (bc_end_date b) (VStr ""));
         ("ConditionKey", condition_key);
         ("ThresholdType", threshold_type);
         ("Operator", operator);
         ("ThresholdPercent", threshold_percent);
         ("Enabled", enabled);
         ("ContactEmails", contact_emails);
         ("ContactGroups", contact_groups);
         ("ContactRoles", contact_roles);
         ("LastMonthCost", cell_of last_val);
         ("PrevMonthCost", cell_of (nth_error prev_two 0));
         ("Prev2MonthCost", cell_of (nth_error prev_two 1));
         ("PercentOfBudgetLastMonth", bc_percent_of_budget_last_month b);
         ("BudgetAccuracy", bc_acc b);
         ("CurrentMonthForecastTotal", cell_of forecast_total);
         ("ForecastPercentOfBudget", bc_forecast_percent_of_budget b);
         ("ForecastConditionWillTrigger", will_trigger);
         ("SuggestedBudget_ActualBased", bc_suggested_actual_based b);
         ("SuggestedBudget_ForecastBased", bc_suggested_forecast_based b);
         ("SuggestionNote",
          VStr "Suggestions = max(value, 3-mo avg) + 10 percent headroom, rounded.")]).

(** The [for cond in conditions] loop; [rows_list] is the list the rows
    are appended to. *)
Fixpoint emit_condition_rows (rows_list : list pyobj)
    (scope_type scope_id : string) (sub_name : pyobj)
    (sub_id resource_group : string) (b : budget_cells)
    (last_val : option Float.float) (prev_two : list Float.float)
    (forecast_total : option Float.float) (conditions : list pyobj)
  : res (list pyobj) :=
  match conditions with
  | [] => Ok rows_list
  | cond :: rest =>
      let? will_trigger :=
        forecast_will_trigger cond (bc_forecast_percent_of_budget b) in
      let? r := make_row scope_type scope_id sub_name sub_id resource_group b
                  last_val prev_two forecast_total cond will_trigger in
      emit_condition_rows (rows_list ++ [r]) scope_type scope_id sub_name
        sub_id resource_group b last_val prev_two forecast_total rest
  end.

(** [flatten_notifications(...) or [None]]. *)
Definition conditions_or_none (flat : list pyobj) : list pyobj :=
  match flat with
  | [] => [VNone]
  | _ => flat
  end.

(** The part of [emit_budget_rows] before the loop. *)
Definition budget_summary (budget : pyobj) (last_val : option Float.float)
    (prev_two : list Float.float) (forecast_total : option Float.float)
  : res (budget_cells * list pyobj) :=
  let? props := py_get budget "properties" (VDict []) in
  let props := py_or props (VDict []) in
  let? budget_name := py_get budget "name" (VStr "") in
  let? amount := py_get props "amount" VNone in
  let? time_grain := py_get props "timeGrain" (VStr "") in
  let? tp := py_get props "timePeriod" (VDict []) in
  let tp := py_or tp (VDict []) in
  let? start_date := py_get tp "startDate" (VStr "") in
  let? end_date := py_get tp "endDate" (VStr "") in
  let? notifs := py_get props "notifications" VNone in
  let? flat := flatten_notifications notifs in
  let conditions := conditions_or_none flat in
  let? acc := accuracy_cell last_val amount in
  let? suggested_actual_based :=
    match last_val with
    | Some lv => compute_suggested_budget lv prev_two
    | None => Ok (VStr "")
    end in
  let? suggested_forecast_based :=
    match forecast_total with
    | Some ft => compute_suggested_budget ft prev_two
    | None => Ok (VStr "")
    end in
  let? percent_of_budget_last_month := percent_of_amount last_val amount in
  let? forecast_percent_of_budget := percent_of_amount forecast_total amount in
  Ok ({| bc_name := budget_name;
         bc_amount := amount;
         bc_time_grain := time_grain;
         bc_start_date := start_date;
         bc_end_date := end_date;
         bc_acc := acc;
         bc_suggested_actual_based := suggested_actual_based;
         bc_suggested_forecast_based := suggested_forecast_based;
         bc_percent_of_budget_last_month := percent_of_budget_last_month;
         bc_forecast_percent_of_budget := forecast_percent_of_budget |},
      conditions).

(** [emit_budget_rows]: the result is [rows_list] with the rows of the
    budget appended.  An exception leaves the loop for the caller, which
    does not catch it. *)
Definition emit_budget_rows (rows_list : list pyobj)
    (scope_type scope_id : string) (sub_name : pyobj) (sub_id : string)
    (budget : pyobj) (last_val : option Float.float)
    (prev_two : list Float.float) (forecast_total : option Float.float)
    (resource_group : string)
  : res (list pyobj) :=
  let? (b, conditions) :=
    budget_summary budget last_val prev_two forecast_total in
  emit_condition_rows rows_list scope_type scope_id sub_name sub_id
    resource_group b last_val prev_two forecast_total conditions.

(** The raw amount of a budget and its flattened notification conditions,
    as [emit_budget_rows] reads them. *)
Definition budget_amount (budget : pyobj) : res pyobj :=
  let? props := py_get budget "properties" (VDict []) in
  py_get (py_or props (VDict [])) "amount" VNone.

Definition budget_conditions (budget : pyobj) : res (list pyobj) :=
  let? props := py_get budget "properties" (VDict []) in
  let? notifs := py_get (py_or props (VDict [])) "notifications" VNone in
  flatten_notifications notifs.

(** The field of a row dict. *)
Definition row_field (r : pyobj) (k : string) : option pyobj :=
  match r with
  | VDict d => dict_lookup d k
  | _ => None
  end.

End Rows.

(** ** The remote calls *)

Section RemoteCalls.

Local Open Scope list_scope.
Local Open Scope string_scope.
Local Open Scope M_scope.

Definition API_MGMT : string := "https://management.azure.com".
Definition API_VERSION_MG : string := "2020-05-01".
Definition API_VERSION_SUBS_RG : string := "2021-04-01".
Definition API_VERSION_BUDGETS : string := "2023-05-01".
Definition API_VERSION_COST : string := "2023-03-01".

(** [resp.json()]. *)
Definition response_json (resp : response) : M pyobj :=
  match body resp with
  | Some j => ret j
  | None => raise JSONDecodeError
  end.

(** [for x in v]: the items of a list.  Iterating a str or a dict, which
    the payloads read here never are, is left out of the model. *)
Definition py_iter (v : pyobj) : res (list pyobj) :=
  match v with
  | VList l => Ok l
  | VStr _ | VDict _ => Unmodelled
  | _ => Raise TypeError
  end.

(** [v[n]] for an int [n]. *)
Definition py_index (v : pyobj) (n : nat) : res pyobj :=
  match v with
  | VList l =>
      match nth_error l n with
      | Some x => Ok x
      | None => Raise IndexError
      end
  | VStr s =>
      match nth_error (chars s) n with
      | Some c => Ok (VStr c)
      | None => Raise IndexError
      end
  | VDict _ => Raise KeyError
  | _ => Raise TypeError
  end.

(** [v[k]] for a str [k]. *)
Definition py_item (v : pyobj) (k : string) : res pyobj :=
  match v with
  | VDict d =>
      match dict_lookup d k with
      | Some x => Ok x
      | None => Raise KeyError
      end
  | _ => Raise TypeError
  end.

(** A name used as a dict key or in a URL: [None] when falsy.  The remote
    API gives names as strings; another truthy value is left out of the
    model. *)
Definition name_of (v : pyobj) : res (option string) :=
  if truthy v then
    match v with
    | VStr s => Ok (Some s)
    | _ => Unmodelled
    end
  else Ok None.

(** *** Budgets *)

Definition list_budgets_at_scope (scope token : string) : M pyobj :=
  let url := API_MGMT ++ scope
             ++ "/providers/Microsoft.Consumption/budgets?api-version="
             ++ API_VERSION_BUDGETS in
  resp <- do_request "GET" url token None ;;
  j <- response_json resp ;;
  v <- lift (py_get j "value" (VList [])) ;;
  ret (py_or v (VList [])).

(** *** Costs *)

(** [try: val += float(row[n] or 0.0)  except (ValueError, TypeError): pass] *)
Definition add_cell (val : Float.float) (row : pyobj) (n : nat)
  : res Float.float :=
  match res_bind (py_index row n)
          (fun c => py_float (py_or c (VFloat 0%Q))) with
  | Ok x => Ok (Float.add val x)
  | Raise ValueError => Ok val
  | Raise TypeError => Ok val
  | Raise e => Raise e
  | Diverge => Diverge
  | Unmodelled => Unmodelled
  end.

(** Summing column [n] over the rows. *)
Fixpoint sum_cells (val : Float.float) (rows : list pyobj) (n : nat)
  : res Float.float :=
  match rows with
  | [] => Ok val
  | row :: rest =>
      res_bind (add_cell val row n) (fun val => sum_cells val rest n)
  end.

(** [j.get("properties", {}).get(k, [])]. *)
Definition properties_get (j : pyobj) (k : string) : res pyobj :=
  res_bind (py_get j "properties" (VDict []))
    (fun props => py_get props k (VList [])).

(** The total of one month's response. *)
Definition month_total (j : pyobj) : res Float.float :=
  res_bind (properties_get j "rows") (fun rows =>
  res_bind (py_iter rows) (fun rows =>
  res_bind (sum_cells 0%Q rows 0) (fun val =>
  Ok (Float.round val 2)))).

(** The request body for one month: from the start day, up to but not
    including the day after the end day. *)
Definition month_query_body (start end_ : date) : res pyobj :=
  res_bind (next_day end_) (fun day_after =>
  Ok (VDict
        [("type", VStr "Usage");
         ("dataSet",
          VDict [("granularity", VStr "None");
                 ("aggregation",
                  VDict [("totalCost",
                          VDict [("name", VStr "Cost");
                                 ("function", VStr "Sum")])])]);
         ("timeframe", VStr "Custom");
         ("timePeriod",
          VDict [("from", VStr (isoformat start ++ "T00:00:00Z"));
                 ("to", VStr (isoformat day_after ++ "T00:00:00Z"))])])).

(** One turn of the loop over the periods. *)
Definition month_cost (scope token : string) (period : date * date)
  : M Float.float :=
  let url := API_MGMT ++ scope
             ++ "/providers/Microsoft.CostManagement/query?api-version="
             ++ API_VERSION_COST in
  body <- lift (month_query_body (fst period) (snd period)) ;;
  resp <- do_request "POST" url token (Some body) ;;
  j <- response_json resp ;;
  lift (month_total j).

Fixpoint month_costs (scope token : string) (periods : list (date * date))
    (costs : list Float.float) : M (list Float.float) :=
  match periods with
  | [] => ret costs
  | period :: rest =>
      c <- month_cost scope token period ;;
      month_costs scope token rest (costs ++ [c])%list
  end.

Definition cost_query_last_months_scope (scope : string) (months : Z)
    (token : string) : M (list Float.float) :=
  today <- get_today ;;
  periods <- lift (first_last_day_of_last_n_months today months) ;;
  month_costs scope token periods [].

(** *** Forecast *)

Definition forecast_query_body : pyobj :=
  VDict
    [("type", VStr "Usage");
     ("timeframe", VStr "MonthToDate");
     ("dataSet",
      VDict [("granularity", VStr "Daily");
             ("aggregation",
              VDict [("totalCost",
                      VDict [("name", VStr "Cost");
                             ("function", VStr "Sum")])])]);
     ("includeForecast", VBool true)].

(** [[c["name"] for c in columns]]. *)
Fixpoint column_names (columns : list pyobj) : res (list pyobj) :=
  match columns with
  | [] => Ok []
  | c :: rest =>
      res_bind (py_item c "name") (fun n =>
      res_bind (column_names rest) (fun ns => Ok (n :: ns)))
  end.

(** [cols.index(s)]; [None] is [ValueError]. *)
Fixpoint index_of (cols : list pyobj) (s : string) : option nat :=
  match cols with
  | [] => None
  | VStr c :: rest =>
      if String.eqb c s then Some 0%nat else option_map S (index_of rest s)
  | _ :: rest => option_map S (index_of rest s)
  end.

(** [str(v).lower() in ("true", "1", "yes")]. *)
Definition is_forecast_flag (v : pyobj) : bool :=
  match v with
  | VBool b => b
  | VInt n => (n =? 1)%Z
  | VStr s =>
      let l := lower s in
      String.eqb l "true" || String.eqb l "1" || String.eqb l "yes"
  | _ => false
  end.

(** [try: if flag(r[i]): total += float(r[c] or 0.0)
     except (ValueError, TypeError): pass] *)
Definition add_forecast_row (total : Float.float) (r : pyobj)
    (idx_cost idx_is_fc : nat) : res Float.float :=
  match py_index r idx_is_fc with
  | Ok flag =>
      if is_forecast_flag flag then add_cell total r idx_cost else Ok total
  | Raise ValueError => Ok total
  | Raise TypeError => Ok total
  | Raise e => Raise e
  | Diverge => Diverge
  | Unmodelled => Unmodelled
  end.

Fixpoint sum_forecast_rows (total : Float.float) (rows : list pyobj)
    (idx_cost idx_is_fc : nat) : res Float.float :=
  match rows with
  | [] => Ok total
  | r :: rest =>
      res_bind (add_forecast_row total r idx_cost idx_is_fc)
        (fun total => sum_forecast_rows total rest idx_cost idx_is_fc)
  end.

Definition forecast_total_of (j : pyobj) : res Float.float :=
  res_bind (properties_get j "columns") (fun columns =>
  res_bind (py_iter columns) (fun columns =>
  res_bind (column_names columns) (fun cols =>
  res_bind (properties_get j "rows") (fun rows =>
  match index_of cols "Cost", index_of cols "IsForecast" with
  | Some idx_cost, Some idx_is_fc =>
      res_bind (py_iter rows) (fun rows =>
      res_bind (sum_forecast_rows 0%Q rows idx_cost idx_is_fc) (fun total =>
      Ok (Float.round total 2)))
  | _, _ =>
      res_bind (py_iter rows) (fun rows =>
      res_bind (sum_cells 0%Q rows 0) (fun total =>
      Ok (Float.round total 2)))
  end)))).

Definition cost_forecast_current_month_scope (scope token : string)
  : M Float.float :=
  let url := API_MGMT ++ scope
             ++ "/providers/Microsoft.CostManagement/query?api-version="
             ++ API_VERSION_COST in
  resp <- do_request "POST" url token (Some forecast_query_body) ;;
  j <- response_json resp ;;
  lift (forecast_total_of j).

(** *** Discovery *)

Record mgroup : Type := {
  managementGroupId : string;
  mg_displayName : pyobj
}.

Record subscription : Type := {
  subscriptionId : string;
  displayName : pyobj;
  tenantId : pyobj
}.

(** [d[k] = v] on an insertion-ordered dict. *)
Fixpoint dict_set {V : Type} (d : list (string * V)) (k : string) (v : V)
  : list (string * V) :=
  match d with
  | [] => [(k, v)]
  | (k', v') :: d' =>
      if String.eqb k' k then (k, v) :: d' else (k', v') :: dict_set d' k v
  end.

Definition dict_has {V : Type} (d : list (string * V)) (k : string) : bool :=
  existsb (fun kv => String.eqb (fst kv) k) d.

(** One item of a descendants page. *)
Definition classify_item (item : pyobj)
    (acc : list (string * mgroup) * list (string * subscription))
  : res (list (string * mgroup) * list (string * subscription)) :=
  let '(mgs, subs) := acc in
  res_bind (py_get item "type" VNone) (fun t =>
  res_bind (py_lower (py_or t (VStr ""))) (fun t =>
  res_bind (py_get item "name" VNone) (fun name =>
  res_bind (py_get item "properties" (VDict [])) (fun props =>
  let props := py_or props (VDict []) in
  res_bind (py_get props "displayName" (VStr "")) (fun display_name =>
  if endswith t "/subscriptions" then
    res_bind (name_of name) (fun name =>
    match name with
    | Some n =>
        res_bind (py_get props "tenantId" (VStr "")) (fun tenant =>
        Ok (mgs,
            dict_set subs n
              {| subscriptionId := n; displayName := display_name;
                 tenantId := tenant |}))
    | None => Ok (mgs, subs)
    end)
  else if endswith t "/managementgroups" then
    res_bind (name_of name) (fun name =>
    match name with
    | Some n =>
        Ok (dict_set mgs n
              {| managementGroupId := n; mg_displayName := display_name |},
            subs)
    | None => Ok (mgs, subs)
    end)
  else Ok (mgs, subs)))))).

Fixpoint classify_items (items : list pyobj)
    (acc : list (string * mgroup) * list (string * subscription))
  : res (list (string * mgroup) * list (string * subscription)) :=
  match items with
  | [] => Ok acc
  | item :: rest =>
      res_bind (classify_item item acc) (fun acc => classify_items rest acc)
  end.

(** [payload.get("nextLink") or None], as the next URL if there is one. *)
Definition next_link (payload : pyobj) : res (option string) :=
  res_bind (py_get payload "nextLink" VNone) name_of.

(** The paging loop of [list_mgs_and_subs_under_mg]; [fuel] bounds the
    number of pages followed. *)
Fixpoint descendants_pages (fuel : nat) (url token : string)
    (acc : list (string * mgroup) * list (string * subscription))
  : M (list (string * mgroup) * list (string * subscription)) :=
  match fuel with
  | O => diverge
  | S fuel' =>
      resp <- do_request "GET" url token None ;;
      payload <- response_json resp ;;
      items <- lift (res_bind (py_get payload "value" (VList [])) py_iter) ;;
      acc <- lift (classify_items items acc) ;;
      next <- lift (next_link payload) ;;
      match next with
      | Some url => descendants_pages fuel' url token acc
      | None => ret acc
      end
  end.

Definition list_mgs_and_subs_under_mg (fuel : nat) (mg_id token : string)
  : M (list mgroup * list subscription) :=
  let url := API_MGMT ++ "/providers/Microsoft.Management/managementGroups/"
             ++ mg_id ++ "/descendants?api-version=" ++ API_VERSION_MG in
  acc <- descendants_pages fuel url token ([], []) ;;
  let '(mgs, subs) := acc in
  let mgs :=
    if dict_has mgs mg_id then mgs
    else dict_set mgs mg_id
           {| managementGroupId := mg_id; mg_displayName := VStr mg_id |} in
  ret (map snd mgs, map snd subs).

(** One page of resource groups: the truthy names, in order. *)
Fixpoint resource_group_names (items : list pyobj) (rgs : list string)
  : res (list string) :=
  match items with
  | [] => Ok rgs
  | rg :: rest =>
      res_bind (py_get rg "name" VNone) (fun name =>
      res_bind (name_of name) (fun name =>
      match name with
      | Some n => resource_group_names rest (rgs ++ [n])%list
      | None => resource_group_names rest rgs
      end))
  end.

Fixpoint resource_group_pages (fuel : nat) (url token : string)
    (rgs : list string) : M (list string) :=
  match fuel with
  | O => diverge
  | S fuel' =>
      resp <- do_request "GET" url token None ;;
      j <- response_json resp ;;
      items <- lift (res_bind (py_get j "value" (VList [])) py_iter) ;;
      rgs <- lift (resource_group_names items rgs) ;;
      next <- lift (next_link j) ;;
      match next with
      | Some url => resource_group_pages fuel' url token rgs
      | None => ret rgs
      end
  end.

Definition list_resource_groups (fuel : nat) (sub_id token : string)
  : M (list string) :=
  let url := API_MGMT ++ "/subscriptions/" ++ sub_id
             ++ "/resourcegroups?api-version=" ++ API_VERSION_SUBS_RG in
  resource_group_pages fuel url token [].

End RemoteCalls.

(** ** The driver *)

Section Driver.

Local Open Scope list_scope.
Local Open Scope string_scope.
Local Open Scope M_scope.

(** The parsed command line. *)
Record arguments : Type := {
  management_group_id : string;
  months : Z;
  include_scopes : list string;
  sub_filter : list string;
  rg_filter : list string
}.

(** [x in s] for a set of strings. *)
Definition mem (x : string) (s : list string) : bool :=
  existsb (String.eqb x) s.

(** [[None] * months]. *)
Definition none_months (months : Z) : list (option Float.float) :=
  repeat None (Z.to_nat months).

(** The monthly series at the caller: the costs when the query returns,
    [None] for every month when it raises. *)
Definition monthly_or_none (warning scope : string) (months : Z) (token : string)
  : M (list (option Float.float)) :=
  try_except
    (costs <- cost_query_last_months_scope scope months token ;;
     ret (map Some costs))
    (fun e => print warning ;; ret (none_months months)).

(** [monthly[0] if monthly and monthly[0] is not None else None]. *)
Definition last_month (monthly : list (option Float.float))
  : option Float.float :=
  match monthly with
  | Some c :: _ => Some c
  | _ => None
  end.

(** [[c for c in monthly[1:3] if c is not None]]. *)
Fixpoint present (l : list (option Float.float)) : list Float.float :=
  match l with
  | [] => []
  | Some c :: l' => c :: present l'
  | None :: l' => present l'
  end.

Definition prev_two_months (monthly : list (option Float.float))
  : list Float.float :=
  present (firstn 2 (skipn 1 monthly)).

Definition forecast_or_none (warning scope token : string)
  : M (option Float.float) :=
  try_except
    (fc <- cost_forecast_current_month_scope scope token ;; ret (Some fc))
    (fun e => print warning ;; ret None).

Definition budgets_or_empty (warning scope token : string) : M pyobj :=
  try_except
    (list_budgets_at_scope scope token)
    (fun e => print warning ;; ret (VList [])).

(** [for b in budgets: emit_budget_rows(rows_list, ..., budget=b, ...)]. *)
Fixpoint emit_all (rows_list : list pyobj) (scope_type scope_id : string)
    (sub_name : pyobj) (sub_id : string) (budgets : list pyobj)
    (last_val : option Float.float) (prev_two : list Float.float)
    (forecast_total : option Float.float) (resource_group : string)
  : res (list pyobj) :=
  match budgets with
  | [] => Ok rows_list
  | b :: rest =>
      res_bind
        (emit_budget_rows rows_list scope_type scope_id sub_name sub_id b
           last_val prev_two forecast_total resource_group)
        (fun rows_list =>
           emit_all rows_list scope_type scope_id sub_name sub_id rest
             last_val prev_two forecast_total resource_group)
  end.

(** One management group of the [for idx, mg in enumerate(mgs, 1)] loop. *)
Definition mg_step (a : arguments) (token : string) (mg_rows : list pyobj)
    (mg : mgroup) : M (list pyobj) :=
  let mg_id := managementGroupId mg in
  let mg_scope := "/providers/Microsoft.Management/managementGroups/" ++ mg_id in
  mg_budgets <- budgets_or_empty
                  ("  ! MG budgets fetch failed (" ++ mg_id ++ ")")
                  mg_scope token ;;
  if negb (truthy mg_budgets) then ret mg_rows
  else
    mg_monthly <- monthly_or_none
                    ("  ! MG cost query failed (" ++ mg_id ++ ")")
                    mg_scope (months a) token ;;
    let mg_last := last_month mg_monthly in
    let mg_prev2 := prev_two_months mg_monthly in
    mg_fc <- forecast_or_none ("  ! MG forecast failed (" ++ mg_id ++ ")")
               mg_scope token ;;
    budgets <- lift (py_iter mg_budgets) ;;
    lift (emit_all mg_rows "MG" mg_scope (VStr "") "" budgets mg_last mg_prev2
            mg_fc "").

Fixpoint mg_loop (a : arguments) (token : string) (mg_rows : list pyobj)
    (mgs : list mgroup) : M (list pyobj) :=
  match mgs with
  | [] => ret mg_rows
  | mg :: rest =>
      mg_rows <- mg_step a token mg_rows mg ;;
      mg_loop a token mg_rows rest
  end.

(** The synthetic row of a subscription without budgets. *)
Definition no_budget_row (sub_scope : string) (sub_name : pyobj)
    (sub_id : string) (sub_last : option Float.float)
    (sub_prev2 : list Float.float) (sub_fc : option Float.float)
  : res pyobj :=
  res_bind
    (match sub_last with
     | Some v => compute_suggested_budget v sub_prev2
     | None => Ok (VStr "")
     end) (fun suggested_actual_based =>
  res_bind
    (match sub_fc with
     | Some v => compute_suggested_budget v sub_prev2
     | None => Ok (VStr "")
     end) (fun suggested_forecast_based =>
  Ok (VDict
        [("ScopeType", VStr "Subscription");
         ("ScopeId", VStr sub_scope);
         ("SubscriptionName", sub_name);
         ("SubscriptionId", VStr sub_id);
         ("ResourceGroup", VStr "");
         ("BudgetName", VStr "");
         ("BudgetAmount", VStr "");
         ("BudgetTimeGrain", VStr "");
         ("BudgetStartDate", VStr "");
         ("BudgetEndDate", VStr "");
         ("ConditionKey", VStr "");
         ("ThresholdType", VStr "");
         ("Operator", VStr "");
         ("ThresholdPercent", VStr "");
         ("Enabled", VStr "");
         ("ContactEmails", VStr "");
         ("ContactGroups", VStr "");
         ("ContactRoles", VStr "");
         ("LastMonthCost", cell_of sub_last);
         ("PrevMonthCost", cell_of (nth_error sub_prev2 0));
         ("Prev2MonthCost", cell_of (nth_error sub_prev2 1));
         ("PercentOfBudgetLastMonth", VStr "");
         ("BudgetAccuracy", VStr "");
         ("CurrentMonthForecastTotal", cell_of sub_fc);
         ("ForecastPercentOfBudget", VStr "");
         ("ForecastConditionWillTrigger", VStr "");
         ("SuggestedBudget_ActualBased", suggested_actual_based);
         ("SuggestedBudget_ForecastBased", suggested_forecast_based);
         ("SuggestionNote",
          VStr "No budget configured at this scope. Suggestions = max(value, 3-mo avg) + 10 percent headroom, rounded.")]))).

(** The [if "sub" in include_scopes] block for one subscription: the rows
    appended to [sub_rows] and to [sub_nobudget_rows]. *)
Definition sub_block (a : arguments) (token : string)
    (sub_rows sub_nobudget_rows : list pyobj) (s : subscription)
  : M (list pyobj * list pyobj) :=
  let sub_id := subscriptionId s in
  let sub_name := displayName s in
  let sub_scope := "/subscriptions/" ++ sub_id in
  sub_budgets <- budgets_or_empty
                   ("  ! Sub budgets fetch failed (" ++ sub_id ++ ")")
                   sub_scope token ;;
  sub_monthly <- monthly_or_none
                   ("  ! Sub cost query failed (" ++ sub_id ++ ")")
                   sub_scope (months a) token ;;
  let sub_last := last_month sub_monthly in
  let sub_prev2 := prev_two_months sub_monthly in
  sub_fc <- forecast_or_none ("  ! Sub forecast failed (" ++ sub_id ++ ")")
              sub_scope token ;;
  if truthy sub_budgets then
    budgets <- lift (py_iter sub_budgets) ;;
    sub_rows <- lift (emit_all sub_rows "Subscription" sub_scope sub_name
                        sub_id budgets sub_last sub_prev2 sub_fc "") ;;
    ret (sub_rows, sub_nobudget_rows)
  else
    r <- lift (no_budget_row sub_scope sub_name sub_id sub_last sub_prev2
                 sub_fc) ;;
    ret (sub_rows, (sub_nobudget_rows ++ [r])%list).

(** One resource group of the [for rg in rgs] loop. *)
Definition rg_step (a : arguments) (token : string) (rg_rows : list pyobj)
    (s : subscription) (rg : string) : M (list pyobj) :=
  let sub_id := subscriptionId s in
  let sub_name := displayName s in
  let rg_scope := "/subscriptions/" ++ sub_id ++ "/resourceGroups/" ++ rg in
  rg_budgets <- budgets_or_empty
                  ("  ! RG budgets fetch failed (" ++ sub_id ++ "/" ++ rg ++ ")")
                  rg_scope token ;;
  if negb (truthy rg_budgets) then ret rg_rows
  else
    rg_monthly <- monthly_or_none
                    ("  ! RG cost query failed (" ++ sub_id ++ "/" ++ rg ++ ")")
                    rg_scope (months a) token ;;
    let rg_last := last_month rg_monthly in
    let rg_prev2 := prev_two_months rg_monthly in
    rg_fc <- forecast_or_none
               ("  ! RG forecast failed (" ++ sub_id ++ "/" ++ rg ++ ")")
               rg_scope token ;;
    budgets <- lift (py_iter rg_budgets) ;;
    lift (emit_all rg_rows "ResourceGroup" rg_scope sub_name sub_id budgets
            rg_last rg_prev2 rg_fc rg).

Fixpoint rg_loop (a : arguments) (token : string) (rg_rows : list pyobj)
    (s : subscription) (rgs : list string) : M (list pyobj) :=
  match rgs with
  | [] => ret rg_rows
  | rg :: rest =>
      rg_rows <- rg_step a token rg_rows s rg ;;
      rg_loop a token rg_rows s rest
  end.

(** The [try: rgs = list_resource_groups(...) ... except Exception] of the
    resource-group block. *)
Definition resource_groups_or_empty (fuel : nat) (a : arguments)
    (token : string) (s : subscription) : M (list string) :=
  let sub_id := subscriptionId s in
  try_except
    (rgs <- list_resource_groups fuel sub_id token ;;
     ret (if match rg_filter a with [] => false | _ => true end
          then filter (fun rg => mem (lower rg) (rg_filter a)) rgs
          else rgs))
    (fun e => print ("  ! RG list failed (" ++ sub_id ++ ")") ;; ret []).

(** The [if "rg" in include_scopes] block for one subscription. *)
Definition rg_block (fuel : nat) (a : arguments) (token : string)
    (rg_rows : list pyobj) (s : subscription) : M (list pyobj) :=
  rgs <- resource_groups_or_empty fuel a token s ;;
  rg_loop a token rg_rows s rgs.

(** A row emitted for a budget, and the synthetic row of a scope without
    budgets, told apart by their note. *)
Definition budget_bearing (r : pyobj) : Prop :=
  row_field r "SuggestionNote" =
  Some (VStr "Suggestions = max(value, 3-mo avg) + 10 percent headroom, rounded.").

Definition synthetic (r : pyobj) : Prop :=
  row_field r "SuggestionNote" =
  Some (VStr "No budget configured at this scope. Suggestions = max(value, 3-mo avg) + 10 percent headroom, rounded.")
  /\ row_field r "BudgetName" = Some (VStr "").

(** The four row collections of the report. *)
Record report : Type := {
  mg_rows : list pyobj;
  sub_rows : list pyobj;
  sub_nobudget_rows : list pyobj;
  rg_rows : list pyobj
}.

(** One subscription of the [for s_idx, s in enumerate(subs, 1)] loop. *)
Definition sub_step (fuel : nat) (a : arguments) (token : string)
    (r : report) (s : subscription) : M report :=
  sn <- (if mem "sub" (include_scopes a)
         then sub_block a token (sub_rows r) (sub_nobudget_rows r) s
         else ret (sub_rows r, sub_nobudget_rows r)) ;;
  rg <- (if mem "rg" (include_scopes a)
         then rg_block fuel a token (rg_rows r) s
         else ret (rg_rows r)) ;;
  ret {| mg_rows := mg_rows r; sub_rows := fst sn;
         sub_nobudget_rows := snd sn; rg_rows := rg |}.

Fixpoint sub_loop (fuel : nat) (a : arguments) (token : string)
    (r : report) (subs : list subscription) : M report :=
  match subs with
  | [] => ret r
  | s :: rest =>
      r <- sub_step fuel a token r s ;;
      sub_loop fuel a token r rest
  end.

(** [main], up to the rows handed to the workbook writer.  [fuel] bounds
    the pages each listing may follow; [token] is the bearer token. *)
Definition main (fuel : nat) (a : arguments) (token : string) : M report :=
  let scopes := include_scopes a in
  discovered <-
    (if mem "mg" scopes || mem "sub" scopes || mem "rg" scopes
     then list_mgs_and_subs_under_mg fuel (management_group_id a) token
     else ret ([], [])) ;;
  let mgs := fst discovered in
  let subs :=
    match sub_filter a with
    | [] => snd discovered
    | _ => filter (fun s => mem (lower (subscriptionId s)) (sub_filter a))
             (snd discovered)
    end in
  mg <- (if mem "mg" scopes then mg_loop a token [] mgs else ret []) ;;
  sub_loop fuel a token
    {| mg_rows := mg; sub_rows := []; sub_nobudget_rows := [];
       rg_rows := [] |} subs.

End Driver.

(** ** Scripted servers *)

(** Worlds for worked examples: the remote side plays a fixed list of
    outcomes, one per request, and answers 404 once the list is used up. *)
Section Scripts.

Local Open Scope string_scope.

Definition ok_response (j : pyobj) : outcome :=
  Responded {| status_code := 200; retry_after := None; body := Some j |}.

Definition status_response (s : Z) : outcome :=
  Responded {| status_code := s; retry_after := None; body := None |}.

Definition scripted (l : list outcome) : world :=
  initial_world (fun n _ => nth n l (status_response 404))
    {| year := 2024; month := 6; day := 15 |}.

(** A descendants page listing the single subscription [s1]. *)
Definition one_subscription_page : outcome :=
  ok_response
    (VDict [("value",
             VList [VDict [("type", VStr "Microsoft.Management/managementGroups/subscriptions");
                           ("name", VStr "s1");
                           ("properties",
                            VDict [("displayName", VStr "Sub One")])]])]).

(** A cost response with a single row. *)
Definition cost_page (c : Float.float) : outcome :=
  ok_response (VDict [("properties", VDict [("rows", VList [VList [VFloat c]])])]).

(** An empty list of budgets. *)
Definition no_budgets_page : outcome :=
  ok_response (VDict [("value", VList [])]).

(** A budget with three notification conditions, and one with none. *)
Definition budget_with_three_conditions : pyobj :=
  VDict
    [("name", VStr "b1");
     ("properties",
      VDict
        [("amount", VInt 1000);
         ("timeGrain", VStr "Monthly");
         ("notifications",
          VDict
            [("n1", VDict [("enabled", VBool true);
                           ("operator", VStr "GreaterThan");
                           ("threshold", VInt 90);
                           ("thresholdType", VStr "Forecasted");
                           ("contactEmails", VList [VStr "a@x"; VStr "b@x"])]);
             ("n2", VDict [("enabled", VBool true);
                           ("operator", VStr "GreaterThan");
                           ("threshold", VInt 80);
                           ("thresholdType", VStr "Actual")]);
             ("n3", VDict [("threshold", VFloat 50%Q);
                           ("thresholdType", VStr "Forecasted")])])])].

Definition budget_without_conditions : pyobj :=
  VDict [("name", VStr "b0"); ("properties", VDict [("amount", VInt 0)])].

End Scripts.


(** ** The command line and the workbook *)

(** [main] before its first request and after its last one: how the
    parsed options are normalised, and how the four row collections are
    laid out as sheets.  The options are taken as [argparse] returns
    them; of the workbook, the rows handed to [ws.append] are kept, sheet
    by sheet, not what the library makes of a cell. *)
Section CommandLine.

Local Open Scope string_scope.
Local Open Scope list_scope.
Local Open Scope res_scope.

(** [s.split(sep)] for a separator of one character. *)
Fixpoint split (sep : ascii) (s : string) : list string :=
  match s with
  | EmptyString => [EmptyString]
  | String c s' =>
      if Ascii.eqb c sep then EmptyString :: split sep s'
      else
        match split sep s' with
        | piece :: rest => String c piece :: rest
        | [] => [String c EmptyString]
        end
  end.








End CommandLine.

Section Workbook.

Local Open Scope string_scope.
Local Open Scope list_scope.
Local Open Scope res_scope.

Definition fieldnames : list string :=
  ["ScopeType"; "ScopeId"; "SubscriptionName"; "SubscriptionId";
   "ResourceGroup"; "BudgetName"; "BudgetAmount"; "BudgetTimeGrain";
   "BudgetStartDate"; "BudgetEndDate"; "ConditionKey"; "ThresholdType";
   "Operator"; "ThresholdPercent"; "Enabled"; "ContactEmails";
   "ContactGroups"; "ContactRoles"; "LastMonthCost"; "PrevMonthCost";
   "Prev2MonthCost"; "PercentOfBudgetLastMonth"; "BudgetAccuracy";
   "CurrentMonthForecastTotal"; "ForecastPercentOfBudget";
   "ForecastConditionWillTrigger"; "SuggestedBudget_ActualBased";
   "SuggestedBudget_ForecastBased"; "SuggestionNote"].

(** A worksheet: its title and the rows appended to it, first to last. *)
Record sheet : Type := {
  title : string;
  appended : list (list pyobj)
}.

(** The workbook and the [created_any] flag of [main]. *)
Record workbook : Type := {
  sheets : list sheet;
  created_any : bool
}.

(** [Workbook()]: one empty sheet, which is the active one. *)
Definition new_workbook : workbook :=
  {| sheets := [{| title := "Sheet"; appended := [] |}];
     created_any := false |}.

(** [[r.get(col, "") for col in fieldnames]]. *)
Fixpoint row_cells (r : pyobj) (cols : list string) : res (list pyobj) :=
  match cols with
  | [] => Ok []
  | col :: rest =>
      let? c := py_get r col (VStr "") in
      let? cs := row_cells r rest in
      Ok (c :: cs)
  end.

(** The [for r in rows: ws.append(...)] loop. *)
Fixpoint append_rows (ws : sheet) (rows : list pyobj) : res sheet :=
  match rows with
  | [] => Ok ws
  | r :: rest =>
      let? cells := row_cells r fieldnames in
      append_rows {| title := title ws; appended := appended ws ++ [cells] |}
                  rest
  end.

(** The closure [create_sheet] of [main].  The first sheet written reuses
    the active sheet under a new title; the titles [main] passes are all
    different. *)
Definition create_sheet (t : string) (rows : list pyobj) (wb : workbook)
  : res workbook :=
  match rows with
  | [] => Ok wb
  | _ =>
      if negb (created_any wb) then
        match sheets wb with
        | active :: others =>
            let? ws := append_rows
                         {| title := t;
                            appended := appended active
                                        ++ [map VStr fieldnames] |} rows in
            Ok {| sheets := ws :: others; created_any := true |}
        | [] => Unmodelled
        end
      else
        let? ws := append_rows
                     {| title := t; appended := [map VStr fieldnames] |} rows in
        Ok {| sheets := sheets wb ++ [ws]; created_any := created_any wb |}
  end.

(** The sheets written for a report, as handed to [wb.save]. *)
Definition write_workbook (scopes : list string) (rep : report) : res workbook :=
  let wb := new_workbook in
  let? wb := if mem "mg" scopes
             then create_sheet "MG_Budgets" (mg_rows rep) wb else Ok wb in
  let? wb := if mem "sub" scopes
             then
               let? wb := create_sheet "Sub_Budgets" (sub_rows rep) wb in
               create_sheet "Sub_NoBudget" (sub_nobudget_rows rep) wb
             else Ok wb in
  if mem "rg" scopes
  then create_sheet "RG_Budgets" (rg_rows rep) wb else Ok wb.


End Workbook.

(** ** Rounding error *)

(** The relative error of rounding a rational that lies in the normal
    range of binary64 is at most [unit_roundoff], that is 2^-53. *)
Section Roundoff.



End Roundoff.

(** ** Reading the outcome of an attempt *)

Section Outcomes.

Local Open Scope Z_scope.

(** What [do_request] makes of an outcome it does not retry after: the
    response, or the exception raised for it. *)
Definition settle (o : outcome) : res response :=
  match o with
  | Responded resp =>
      if (400 <=? status_code resp) && (status_code resp <? 600)
      then Raise (HTTPError (status_code resp)) else Ok resp
  | TimedOut => Raise ReadTimeout
  | Failed e => Raise e
  end.

(** The seconds slept in all. *)
Definition total_slept (ds : list Z) : Z := fold_right Z.add 0 ds.

End Outcomes.

(** ** Reading the rows of a cost response *)

Section CostRows.

(** What the [try] block of the summing loops reads from a row:
    [float(row[n] or 0.0)]. *)
Definition cell_value (row : pyobj) (n : nat) : res Float.float :=
  res_bind (py_index row n) (fun c => py_float (py_or c (VFloat 0%Q))).

(** Whether the cell [idx] of a row marks it as a forecast row. *)
Definition flagged (idx : nat) (r : pyobj) : bool :=
  match py_index r idx with
  | Ok flag => is_forecast_flag flag
  | _ => false
  end.

End CostRows.

(** ** The order of the flattened conditions *)

Section ConditionOrder.

(** The threshold types [list.sort] can compare with each other: all
    [None], all strings, or all numbers. *)
Inductive key_kind : Type :=
| NoneKey
| StrKey (s : string)
| NumKey (x : Q).

Definition kind_of (t : pyobj) : option key_kind :=
  match t with
  | VNone => Some NoneKey
  | VStr s => Some (StrKey s)
  | VBool b => Some (NumKey (if b then 1%Q else 0%Q))
  | VInt n => Some (NumKey (inject_Z n))
  | VFloat x => Some (NumKey x)
  | VList _ | VDict _ => None
  end.

(** [a] may stand before [b]: the key of [b] is not below the key of
    [a]. *)
Definition key_le (a b : (pyobj * Float.float) * pyobj) : Prop :=
  key_lt (fst b) (fst a) = Ok false.

Definition is_dict (v : pyobj) : bool :=
  match v with VDict _ => true | _ => false end.

End ConditionOrder.

(** ** Paged listings *)

Section Pages.

Local Open Scope string_scope.

(** A remote side whose every answer is a page that [reads] accepts and
    that names a next page. *)
Definition endless_pages (reads : list pyobj -> Prop) (w : world) : Prop :=
  forall n r,
    exists resp j items next,
      server w n r = Responded resp /\
      transient (Responded resp) = false /\
      settle (Responded resp) = Ok resp /\
      body resp = Some j /\
      py_get j "value" (VList []) = Ok (VList items) /\
      reads items /\
      next_link j = Ok (Some next).

(** The items of a page can be read as resource groups, or as
    descendants of a management group. *)
Definition reads_resource_groups (items : list pyobj) : Prop :=
  forall rgs, exists rgs', resource_group_names items rgs = Ok rgs'.

Definition reads_descendants (items : list pyobj) : Prop :=
  forall acc, exists acc', classify_items items acc = Ok acc'.

End Pages.

(** ** The maps built by the discovery *)

Section DiscoveryMaps.

Local Open Scope string_scope.

(** Each map holds one entry per id, filed under that id; the ids of
    subscriptions are not empty. *)
Definition well_keyed
    (acc : list (string * mgroup) * list (string * subscription)) : Prop :=
  NoDup (map fst (fst acc)) /\
  Forall (fun kv => managementGroupId (snd kv) = fst kv) (fst acc) /\
  NoDup (map fst (snd acc)) /\
  Forall (fun kv => subscriptionId (snd kv) = fst kv /\ fst kv <> "") (snd acc).

End DiscoveryMaps.

(** ** Where the rows of a report come from *)

Section RowOrigins.

Local Open Scope string_scope.
Local Open Scope list_scope.

(** A row built by [emit_budget_rows] for a management group, for a
    subscription, for a resource group of a subscription, and the row of
    a subscription without budgets. *)
Definition mg_row_of (mg_id : string) (r : pyobj) : Prop :=
  exists b last_val prev_two forecast_total cond will_trigger,
    make_row "MG"
      ("/providers/Microsoft.Management/managementGroups/" ++ mg_id)
      (VStr "") "" "" b last_val prev_two forecast_total cond will_trigger
    = Ok r.

Definition sub_row_of (s : subscription) (r : pyobj) : Prop :=
  exists b last_val prev_two forecast_total cond will_trigger,
    make_row "Subscription" ("/subscriptions/" ++ subscriptionId s)
      (displayName s) (subscriptionId s) "" b last_val prev_two
      forecast_total cond will_trigger
    = Ok r.

Definition no_budget_row_of (s : subscription) (r : pyobj) : Prop :=
  exists sub_last sub_prev2 sub_fc,
    no_budget_row ("/subscriptions/" ++ subscriptionId s) (displayName s)
      (subscriptionId s) sub_last sub_prev2 sub_fc
    = Ok r.

Definition rg_row_of (s : subscription) (rg : string) (r : pyobj) : Prop :=
  exists b last_val prev_two forecast_total cond will_trigger,
    make_row "ResourceGroup"
      ("/subscriptions/" ++ subscriptionId s ++ "/resourceGroups/" ++ rg)
      (displayName s) (subscriptionId s) rg b last_val prev_two
      forecast_total cond will_trigger
    = Ok r.

(** A filter that is absent, or that holds the lower-cased name. *)
Definition passes (filter : list string) (name : string) : Prop :=
  filter = [] \/ mem (lower name) filter = true.

(** The rows a run adds to a report for the subscriptions [subs]. *)
Definition rows_added (a : arguments) (subs : list subscription)
    (before after : report) : Prop :=
  mg_rows after = mg_rows before /\
  exists new_sub new_nobudget new_rg,
    sub_rows after = sub_rows before ++ new_sub /\
    sub_nobudget_rows after = sub_nobudget_rows before ++ new_nobudget /\
    rg_rows after = rg_rows before ++ new_rg /\
    Forall (fun r => exists s, In s subs /\ sub_row_of s r) new_sub /\
    Forall (fun r => exists s, In s subs /\ no_budget_row_of s r)
           new_nobudget /\
    Forall (fun r => exists s rg,
                       In s subs /\ rg <> "" /\ passes (rg_filter a) rg /\
                       rg_row_of s rg r) new_rg /\
    (mem "sub" (include_scopes a) = false ->
     new_sub = [] /\ new_nobudget = []) /\
    (mem "rg" (include_scopes a) = false -> new_rg = []).

(** A row that has every column of the sheets, in their order. *)
Definition full_row (r : pyobj) : Prop :=
  exists d, r = VDict d /\ map fst d = fieldnames.

(** The sheets [main] fills: the collections of the selected scopes that
    are not empty, under their titles, in the order they are written. *)
Definition nonempty_sheet (t : string) (rows : list pyobj)
  : list (string * list pyobj) :=
  match rows with
  | [] => []
  | _ => [(t, rows)]
  end.

Definition selected_sheets (scopes : list string) (rep : report)
  : list (string * list pyobj) :=
  (if mem "mg" scopes then nonempty_sheet "MG_Budgets" (mg_rows rep) else [])
  ++ (if mem "sub" scopes
      then nonempty_sheet "Sub_Budgets" (sub_rows rep)
           ++ nonempty_sheet "Sub_NoBudget" (sub_nobudget_rows rep)
      else [])
  ++ (if mem "rg" scopes then nonempty_sheet "RG_Budgets" (rg_rows rep) else []).

(** A sheet that holds the header and one line of 29 cells per row. *)
Definition sheet_holds (tr : string * list pyobj) (ws : sheet) : Prop :=
  title ws = fst tr /\
  exists lines,
    appended ws = map VStr fieldnames :: lines /\
    Forall2 (fun r cells => row_cells r fieldnames = Ok cells) (snd tr) lines.

End RowOrigins.

Section Layout.

(** A workbook that holds the sheets [l], or is still the new workbook
    when there is none. *)
Definition laid_out (l : list (string * list pyobj)) (wb : workbook) : Prop :=
  match l with
  | [] => wb = new_workbook
  | _ => created_any wb = true /\ Forall2 sheet_holds l (sheets wb)
  end.

(** The report of a run that found nothing. *)
Definition empty_report : report :=
  {| mg_rows := []; sub_rows := []; sub_nobudget_rows := []; rg_rows := [] |}.

End Layout.

(** ** Well-formed budgets *)

Section WellFormedBudgets.

Local Open Scope string_scope.










End WellFormedBudgets.


(** * Properties of the float model *)

Module FloatFacts.

Import Float.
Local Open Scope Q_scope.

Lemma pow2_pos k : 0 < pow2 k.
Proof. apply Qpower_0_lt. reflexivity. Qed.

Lemma pow2_add a b : pow2 (a + b) == pow2 a * pow2 b.
Proof. apply Qpower_plus. discriminate. Qed.

Lemma pow2_le a b : (a <= b)%Z -> pow2 a <= pow2 b.
Proof. intros H. apply Qpower_le_compat_l; [exact H | discriminate]. Qed.

Lemma pow2_succ a : pow2 (a + 1) == 2 * pow2 a.
Proof. rewrite pow2_add. unfold pow2 at 2. simpl. ring. Qed.

Lemma pow2_of_Z k : (0 <= k)%Z -> pow2 k == inject_Z (2 ^ k).
Proof. intros H. unfold pow2. rewrite Zpower_Qpower by exact H. reflexivity. Qed.

Lemma pow2_sub a b : pow2 (a - b) * pow2 b == pow2 a.
Proof. rewrite <- pow2_add. replace (a - b + b)%Z with a by ring. reflexivity. Qed.

(** [exponent_of] brackets a positive rational between two powers of 2. *)
Lemma exponent_of_spec x :
  0 < x -> pow2 (exponent_of x) <= x /\ x < pow2 (exponent_of x + 1).
Proof.
  intros Hx. destruct x as [n d]. unfold exponent_of. cbn [Qnum Qden].
  assert (Hn : (0 < n)%Z) by (unfold Qlt in Hx; simpl in Hx; lia).
  set (a := Z.log2 n). set (b := Z.log2 (Zpos d)).
  assert (Ha : (0 <= a)%Z) by apply Z.log2_nonneg.
  assert (Hb : (0 <= b)%Z) by apply Z.log2_nonneg.
  destruct (Z.log2_spec n Hn) as [Ha1 Ha2]. fold a in Ha1, Ha2.
  destruct (Z.log2_spec (Zpos d) (eq_refl : (0 < Zpos d)%Z)) as [Hb1 Hb2].
  fold b in Hb1, Hb2.
  rewrite Zle_Qle in Ha1, Hb1. rewrite Zlt_Qlt in Ha2, Hb2.
  rewrite <- pow2_of_Z in Ha1, Hb1 by lia.
  replace (Z.succ a) with (a + 1)%Z in Ha2 by lia.
  replace (Z.succ b) with (b + 1)%Z in Hb2 by lia.
  rewrite <- pow2_of_Z in Ha2, Hb2 by lia.
  rewrite pow2_succ in Ha2, Hb2.
  pose proof (pow2_sub a b) as Hab.
  pose proof (pow2_pos (a - b)) as Hp. pose proof (pow2_pos b) as Hpb.
  pose proof (pow2_pos a) as Hpa.
  assert (Hxd : (n # d) * inject_Z (Zpos d) == inject_Z n).
  { rewrite (Qmake_Qdiv n d). field. discriminate. }
  set (x := n # d) in *. set (D := inject_Z (Zpos d)) in *.
  set (N := inject_Z n) in *.
  destruct (Qle_bool (pow2 (a - b)) x) eqn:E.
  - apply Qle_bool_iff in E. split; [exact E|].
    rewrite pow2_succ.
    destruct (Qlt_le_dec x (2 * pow2 (a - b))) as [L|L]; [exact L|exfalso].
    assert (2 * pow2 (a - b) * pow2 b <= x * D) by nra.
    nra.
  - assert (L : x < pow2 (a - b)).
    { apply Qnot_le_lt. intros C. apply Qle_bool_iff in C. congruence. }
    replace (a - b - 1 + 1)%Z with (a - b)%Z by ring. split; [|exact L].
    assert (E2 : pow2 (a - b) == 2 * pow2 (a - b - 1)).
    { rewrite <- pow2_succ. replace (a - b - 1 + 1)%Z with (a - b)%Z by ring.
      reflexivity. }
    destruct (Qlt_le_dec x (pow2 (a - b - 1))) as [C|C]; [exfalso|exact C].
    pose proof (pow2_pos (a - b - 1)).
    assert (x * D < pow2 (a - b - 1) * (2 * pow2 b)) by nra.
    nra.
Qed.

Lemma exponent_of_mono x y : 0 < x -> x <= y -> (exponent_of x <= exponent_of y)%Z.
Proof.
  intros Hx Hxy.
  destruct (exponent_of_spec x Hx) as [A _].
  destruct (exponent_of_spec y) as [_ B]; [lra|].
  destruct (Z_le_gt_dec (exponent_of x) (exponent_of y)) as [L|G]; [exact L|].
  exfalso. pose proof (pow2_le (exponent_of y + 1) (exponent_of x)). 
  assert (pow2 (exponent_of y + 1) <= pow2 (exponent_of x)) by (apply pow2_le; lia).
  lra.
Qed.

Lemma rne_bounds y : (Qfloor y <= rne y <= Qfloor y + 1)%Z.
Proof.
  unfold rne. destruct (Qcompare _ _); [destruct (Z.even _)| |]; lia.
Qed.

Lemma rne_mono x y : x <= y -> (rne x <= rne y)%Z.
Proof.
  intros H. pose proof (Qfloor_resp_le _ _ H) as F.
  pose proof (rne_bounds x) as Bx. pose proof (rne_bounds y) as By.
  destruct (Z_lt_le_dec (Qfloor x) (Qfloor y)) as [L|L]; [lia|].
  assert (E : Qfloor x = Qfloor y) by lia.
  unfold rne. rewrite E.
  destruct (Qcompare_spec (x - inject_Z (Qfloor y)) (1 # 2)) as [C|C|C];
    destruct (Qcompare_spec (y - inject_Z (Qfloor y)) (1 # 2)) as [C'|C'|C'];
    try destruct (Z.even (Qfloor y)); try lia; exfalso; lra.
Qed.

Lemma rne_Z z : rne (inject_Z z) = z.
Proof.
  unfold rne. rewrite Qfloor_Z.
  destruct (Qcompare_spec (inject_Z z - inject_Z z) (1 # 2)) as [C|C|C];
    [exfalso; lra | reflexivity | exfalso; lra].
Qed.

Lemma rnd_pos_nonneg x : 0 < x -> 0 <= rnd_pos x.
Proof.
  intros Hx. unfold rnd_pos. rewrite Qred_correct.
  pose proof (pow2_pos (ulp_exponent x)) as Hp.
  assert (0 <= x / pow2 (ulp_exponent x)).
  { apply Qle_shift_div_l; [exact Hp|lra]. }
  pose proof (rne_mono _ _ H) as M. change 0 with (inject_Z 0) in M at 1.
  rewrite rne_Z in M. rewrite Zle_Qle in M.
  apply Qmult_le_0_compat; [exact M|lra].
Qed.

(** Rounding is monotone on positive rationals. *)
Lemma rnd_pos_mono x y : 0 < x -> x <= y -> rnd_pos x <= rnd_pos y.
Proof.
  intros Hx Hxy. assert (Hy : 0 < y) by lra.
  pose proof (exponent_of_mono x y Hx Hxy) as He.
  unfold rnd_pos. rewrite !Qred_correct.
  set (kx := ulp_exponent x). set (ky := ulp_exponent y).
  pose proof (pow2_pos kx) as Px. pose proof (pow2_pos ky) as Py.
  destruct (Z.eq_dec kx ky) as [E|NE].
  - rewrite E in *. apply Qmult_le_compat_r; [|lra].
    rewrite <- Zle_Qle. apply rne_mono.
    apply Qle_shift_div_l; [exact Py|].
    setoid_replace (x / pow2 ky * pow2 ky) with x by (field; lra). exact Hxy.
  - assert (Hk : (kx < ky)%Z) by (unfold kx, ky, ulp_exponent in *; lia).
    assert (Eky : ky = (exponent_of y - mant_bits)%Z)
      by (unfold kx, ky, ulp_exponent, emin in *; lia).
    assert (Hex : (exponent_of x + 1 <= exponent_of y)%Z)
      by (unfold kx, ky, ulp_exponent in *; lia).
    destruct (exponent_of_spec x Hx) as [_ Ux].
    destruct (exponent_of_spec y Hy) as [Ly _].
    set (ey := exponent_of y) in *.
    pose proof (pow2_le _ _ Hex) as Hpe.
    apply Qle_trans with (pow2 ey).
    + (* rnd x <= 2^ey *)
      assert (Hd : (0 <= ey - kx)%Z) by (unfold mant_bits in *; lia).
      assert (B : x / pow2 kx <= inject_Z (2 ^ (ey - kx))).
      { rewrite <- pow2_of_Z by exact Hd. apply Qle_shift_div_r; [exact Px|].
        rewrite pow2_sub. lra. }
      apply rne_mono in B. rewrite rne_Z in B. rewrite Zle_Qle in B.
      rewrite <- pow2_of_Z in B by exact Hd.
      rewrite <- (pow2_sub ey kx).
      apply Qmult_le_compat_r; [exact B|lra].
    + (* 2^ey <= rnd y *)
      assert (Hd : (0 <= ey - ky)%Z) by (unfold mant_bits in *; lia).
      assert (B : inject_Z (2 ^ (ey - ky)) <= y / pow2 ky).
      { rewrite <- pow2_of_Z by exact Hd. apply Qle_shift_div_l; [exact Py|].
        rewrite pow2_sub. exact Ly. }
      apply rne_mono in B. rewrite rne_Z in B. rewrite Zle_Qle in B.
      rewrite <- pow2_of_Z in B by exact Hd.
      rewrite <- (pow2_sub ey ky).
      apply Qmult_le_compat_r; [exact B|lra].
Qed.

Lemma Qnum_sign x :
  match Qnum x with
  | Z0 => x == 0
  | Zpos _ => 0 < x
  | Zneg _ => x < 0
  end.
Proof. destruct x as [[|p|p] d]; unfold Qeq, Qlt; simpl; lia. Qed.

Lemma rnd_sign x :
  (x == 0 /\ rnd x = 0) \/ (0 < x /\ rnd x = rnd_pos x)
  \/ (x < 0 /\ rnd x = - rnd_pos (- x)).
Proof.
  pose proof (Qnum_sign x) as S. unfold rnd.
  destruct (Qnum x); [left|right; left|right; right]; split; auto.
Qed.

(** Rounding is monotone. *)
Theorem rnd_mono x y : x <= y -> rnd x <= rnd y.
Proof.
  intros H.
  destruct (rnd_sign x) as [[Sx ->]|[[Sx ->]|[Sx ->]]];
    destruct (rnd_sign y) as [[Sy ->]|[[Sy ->]|[Sy ->]]];
    try (exfalso; lra).
  - lra.
  - apply rnd_pos_nonneg. exact Sy.
  - apply rnd_pos_mono; assumption.
  - assert (0 <= rnd_pos (- x)) by (apply rnd_pos_nonneg; lra). lra.
  - assert (0 <= rnd_pos (- x)) by (apply rnd_pos_nonneg; lra).
    assert (0 <= rnd_pos y) by (apply rnd_pos_nonneg; lra). lra.
  - assert (rnd_pos (- y) <= rnd_pos (- x)) by (apply rnd_pos_mono; lra). lra.
Qed.

#[export] Instance rnd_proper : Proper (Qeq ==> Qeq) rnd.
Proof.
  intros x y E. apply Qle_antisym; apply rnd_mono; rewrite E; apply Qle_refl.
Qed.

Lemma rnd_0 : rnd 0 = 0.
Proof. reflexivity. Qed.

Lemma rnd_1 : rnd 1 = 1.
Proof. vm_compute. reflexivity. Qed.

Lemma rnd_opp x : rnd (- x) == - rnd x.
Proof.
  destruct (rnd_sign x) as [[Sx E]|[[Sx E]|[Sx E]]]; rewrite E.
  - assert (Z : - x == 0) by lra. rewrite Z. rewrite rnd_0. reflexivity.
  - destruct (rnd_sign (- x)) as [[S' ->]|[[S' ->]|[S' ->]]]; try (exfalso; lra).
    assert (Hxx : - - x == x) by ring.
    assert (rnd_pos (- - x) == rnd_pos x).
    { apply Qle_antisym; apply rnd_pos_mono; lra. }
    lra.
  - destruct (rnd_sign (- x)) as [[S' ->]|[[S' ->]|[S' ->]]]; try (exfalso; lra).
    ring.
Qed.

Lemma rnd_nonneg x : 0 <= x -> 0 <= rnd x.
Proof. intros H. rewrite <- rnd_0. apply rnd_mono. exact H. Qed.

Lemma is_float_0 : is_float 0.
Proof. reflexivity. Qed.

Lemma is_float_1 : is_float 1.
Proof. unfold is_float. rewrite rnd_1. reflexivity. Qed.

Lemma is_float_opp x : is_float x -> is_float (- x).
Proof. unfold is_float. intros H. rewrite rnd_opp, H. reflexivity. Qed.

(** Rounding stays between two doubles that bracket the exact result. *)
Lemma rnd_between lo hi x :
  is_float lo -> is_float hi -> lo <= x <= hi -> lo <= rnd x <= hi.
Proof.
  unfold is_float. intros Hlo Hhi [A B]. split.
  - rewrite <- Hlo. apply rnd_mono. exact A.
  - rewrite <- Hhi. apply rnd_mono. exact B.
Qed.

(** [rnd] against the reference: the products, quotients, sums and
    differences below are the same double in both, among them a tie
    (2^53 + 1), a result with an inexact product (3000 * 1.1) and an
    underflow to zero. *)
Example rnd_agrees_with_reference :
  let one_tenth := Binary64.div (Binary64.of_Z 1) (Binary64.of_Z 10) in
  let eleven_tenths := Binary64.div (Binary64.of_Z 11) (Binary64.of_Z 10) in
  Binary64.value one_tenth = Some (lit 1 10) /\
  Binary64.value eleven_tenths = Some (lit 11 10) /\
  Binary64.value (Binary64.add (Binary64.of_Z 1) one_tenth)
    = Some (add 1 (lit 1 10)) /\
  Binary64.value (Binary64.mul (Binary64.of_Z 3000) eleven_tenths)
    = Some (mul 3000 (lit 11 10)) /\
  Binary64.value (Binary64.mul (Binary64.of_Z 950) eleven_tenths)
    = Some (mul 950 (lit 11 10)) /\
  Binary64.value (Binary64.sub (Binary64.of_Z 1)
                    (Binary64.div (Binary64.of_Z 50) (Binary64.of_Z 150)))
    = Some (sub 1 (rnd (50 / 150))) /\
  Binary64.value (Binary64.of_Z (2 ^ 53 + 1)) = Some (of_Z (2 ^ 53 + 1)) /\
  Binary64.value (Binary64.of_Z (2 ^ 53 + 3)) = Some (of_Z (2 ^ 53 + 3)) /\
  Binary64.value (Binary64.div (Binary64.of_Z 1) (Binary64.of_Z (3 * 2 ^ 1074)))
    = Some (rnd (1 # Z.to_pos (3 * 2 ^ 1074))).
Proof. repeat split; vm_compute; reflexivity. Qed.

End FloatFacts.


(** * The assessment helpers *)

Section AssessmentFacts.

Import Float FloatFacts.
Local Open Scope Q_scope.

Lemma rnd_eq0 x : x == 0 -> rnd x = 0.
Proof.
  intros H. destruct (rnd_sign x) as [[_ E]|[[S _]|[S _]]];
    [exact E | exfalso; lra | exfalso; lra].
Qed.

Lemma leb_true x y : leb x y = true <-> x <= y.
Proof. apply Qle_bool_iff. Qed.

Lemma leb_false x y : leb x y = false <-> y < x.
Proof.
  unfold leb. split; intros H.
  - apply Qnot_le_lt. intros C. apply Qle_bool_iff in C. congruence.
  - destruct (Qle_bool x y) eqn:E; [|reflexivity].
    apply Qle_bool_iff in E. exfalso; lra.
Qed.

Lemma max_spec a b :
  (a < b /\ max a b = b) \/ (b <= a /\ max a b = a).
Proof.
  unfold max, ltb. destruct (Qle_bool b a) eqn:E; simpl.
  - right. split; [apply Qle_bool_iff; exact E | reflexivity].
  - left. split; [apply leb_false; exact E | reflexivity].
Qed.

Lemma div_nonzero x y : ~ y == 0 -> div x y = Ok (rnd (x / y)).
Proof.
  intros H. unfold div. destruct (Qeq_bool y 0) eqn:E; [|reflexivity].
  apply Qeq_bool_iff in E. contradiction.
Qed.


(** The third branch of [budget_accuracy] stays within [0, 1]. *)
Lemma accuracy_ratio_range b a :
  is_float b -> is_float a -> 0 < b -> 0 < a ->
  0 <= rnd (abs (sub b a) / max b a) <= 1.
Proof.
  intros Fb Fa Hb Ha.
  assert (M : is_float (max b a) /\ b <= max b a /\ a <= max b a).
  { destruct (max_spec b a) as [[L ->]|[L ->]]; repeat split; auto; lra. }
  destruct M as (Fm & Mb & Ma). set (m := max b a) in *.
  assert (D : - m <= sub b a <= m).
  { unfold sub. apply rnd_between; [apply is_float_opp; exact Fm|exact Fm|lra]. }
  assert (A : 0 <= abs (sub b a) <= m).
  { unfold abs. split; [apply Qabs_nonneg | apply Qabs_Qle_condition; exact D]. }
  apply rnd_between; [apply is_float_0 | apply is_float_1 |].
  split.
  - apply Qle_shift_div_l; lra.
  - apply Qle_shift_div_r; lra.
Qed.

End AssessmentFacts.

Section BudgetAccuracy.

Import Float FloatFacts.
Local Open Scope Q_scope.

(** C6. [budget_accuracy] returns 1.0 when both arguments are at most 0,
    0.0 when exactly one is, and otherwise
    [1 - |budget - actual| / max(budget, actual)] (evaluated in double
    arithmetic, the division never failing); the result always lies in
    [0, 1], and equal positive arguments give 1.0. *)
Theorem budget_accuracy_spec (budget actual : float) :
  is_float budget -> is_float actual ->
  (budget <= 0 -> actual <= 0 -> budget_accuracy budget actual = Ok 1) /\
  (budget <= 0 -> 0 < actual -> budget_accuracy budget actual = Ok 0) /\
  (0 < budget -> actual <= 0 -> budget_accuracy budget actual = Ok 0) /\
  (0 < budget -> 0 < actual ->
   budget_accuracy budget actual =
   Ok (sub 1 (rnd (abs (sub budget actual) / max budget actual)))) /\
  (exists r, budget_accuracy budget actual = Ok r /\ 0 <= r <= 1) /\
  (0 < budget -> budget == actual -> budget_accuracy budget actual = Ok 1).
Proof.
  intros Fb Fa.
  assert (C1 : budget <= 0 -> actual <= 0 -> budget_accuracy budget actual = Ok 1).
  { intros Hb Ha. unfold budget_accuracy.
    apply leb_true in Hb, Ha. rewrite Hb, Ha. reflexivity. }
  assert (C2 : budget <= 0 -> 0 < actual -> budget_accuracy budget actual = Ok 0).
  { intros Hb Ha. unfold budget_accuracy.
    apply leb_true in Hb. apply leb_false in Ha. rewrite Hb, Ha. reflexivity. }
  assert (C3 : 0 < budget -> actual <= 0 -> budget_accuracy budget actual = Ok 0).
  { intros Hb Ha. unfold budget_accuracy.
    apply leb_false in Hb. apply leb_true in Ha. rewrite Hb, Ha. reflexivity. }
  assert (C4 : 0 < budget -> 0 < actual ->
               budget_accuracy budget actual =
               Ok (sub 1 (rnd (abs (sub budget actual) / max budget actual)))).
  { intros Hb Ha. unfold budget_accuracy.
    pose proof Hb as Hb'. pose proof Ha as Ha'.
    apply leb_false in Hb', Ha'. rewrite Hb', Ha'. simpl.
    rewrite div_nonzero; [reflexivity|].
    destruct (max_spec budget actual) as [[_ ->]|[_ ->]]; lra. }
  repeat split; auto.
  - destruct (Qlt_le_dec 0 budget) as [Hb|Hb];
      destruct (Qlt_le_dec 0 actual) as [Ha|Ha].
    + exists (sub 1 (rnd (abs (sub budget actual) / max budget actual))).
      split; [apply C4; assumption|].
      pose proof (accuracy_ratio_range budget actual Fb Fa Hb Ha) as R.
      apply rnd_between; [apply is_float_0 | apply is_float_1 | lra].
    + exists 0. split; [apply C3; assumption | lra].
    + exists 0. split; [apply C2; assumption | lra].
    + exists 1. split; [apply C1; assumption | lra].
  - intros Hb E. rewrite C4 by lra.
    assert (Z : sub budget actual = 0) by (apply rnd_eq0; lra).
    rewrite Z. change (abs 0) with 0.
    rewrite (rnd_eq0 (0 / max budget actual)) by (unfold Qdiv; ring).
    reflexivity.
Qed.

(** The claim's example (100, 150): both are doubles and the result is
    [1 - 50/150], that is 0.6666666666666667. *)
Lemma budget_accuracy_spec_witness :
  is_float 100 /\ is_float 150 /\
  budget_accuracy 100 150 = Ok (sub 1 (rnd (50 / 150))) /\
  budget_accuracy 100 150 = Ok (3002399751580331 # 4503599627370496).
Proof.
  assert (F1 : is_float 100) by (vm_compute; reflexivity).
  assert (F2 : is_float 150) by (vm_compute; reflexivity).
  split; [exact F1|]. split; [exact F2|].
  destruct (budget_accuracy_spec 100 150 F1 F2) as (_ & _ & _ & H & _).
  split.
  - rewrite H by reflexivity. vm_compute. reflexivity.
  - rewrite H by reflexivity. vm_compute. reflexivity.
Defined.

End BudgetAccuracy.

Section SuggestedBudget.

Import Float FloatFacts.
Local Open Scope Q_scope.
Local Open Scope res_scope.





(** The ceiling is taken of the double product, so a product that is an
    exact multiple of 100 over the reals can still move up a step:
    3000 * 1.1 is 3300.0000000000005 as a double. *)
Example compute_suggested_budget_3000 :
  compute_suggested_budget 3000 [] = Ok (VInt 3400).
Proof. vm_compute. reflexivity. Qed.

End SuggestedBudget.


(** * The retry client *)

Section RetryClientFacts.

Local Open Scope string_scope.
Local Open Scope list_scope.
Local Open Scope Z_scope.

(** The world after one more sleep. *)
Lemma sleep_run d w :
  sleep d w =
  (Ok tt, {| server := server w; clock := clock w; sent := sent w;
             slept := d :: slept w; printed := printed w |}).
Proof. reflexivity. Qed.

Lemma clamp_max_min v : Z.max 1 (Z.min v 60) = clamp v 1 60.
Proof.
  unfold clamp. destruct (Z.ltb_spec v 1); destruct (Z.ltb_spec 60 v); lia.
Qed.

Lemma int_of_string_empty : int_of_string "" = None.
Proof. reflexivity. Qed.

(** [backoff_sleep] sleeps exactly once, for [retry_delay] seconds. *)
Lemma backoff_sleep_run (retry_after_header : option string) (attempt : nat)
    (w : world) :
  backoff_sleep retry_after_header attempt w =
  sleep (retry_delay retry_after_header attempt) w.
Proof.
  unfold backoff_sleep, retry_delay, header_truthy.
  destruct retry_after_header as [s|]; [|reflexivity].
  destruct (String.eqb_spec s "") as [->|_]; simpl.
  - reflexivity.
  - destruct (int_of_string s) as [v|]; [|reflexivity].
    rewrite clamp_max_min. reflexivity.
Qed.

Lemma clamp_range v : 1 <= clamp v 1 60 <= 60.
Proof.
  unfold clamp. destruct (Z.ltb_spec v 1); destruct (Z.ltb_spec 60 v); lia.
Qed.

(** C9 (as amended). [backoff_sleep] sleeps exactly once.  When the
    [Retry-After] header reads as an integer [value] it sleeps
    [clamp(value, 1, 60)] seconds, between 1 and 60; in every other case
    (no header, an empty header, a header that is not an integer) it
    sleeps [min(2^attempt, 30)] seconds. *)
Theorem backoff_sleep_spec (retry_after_header : option string) (attempt : nat)
    (w : world) :
  (exists d,
     backoff_sleep retry_after_header attempt w =
       (Ok tt, {| server := server w; clock := clock w; sent := sent w;
                  slept := d :: slept w; printed := printed w |}) /\
     (forall s v,
        retry_after_header = Some s -> int_of_string s = Some v ->
        d = clamp v 1 60 /\ 1 <= d <= 60) /\
     (retry_after_header = None \/ retry_after_header = Some "" \/
      (exists s, retry_after_header = Some s /\ int_of_string s = None) ->
      d = Z.min (2 ^ Z.of_nat attempt) 30)).
Proof.
  exists (retry_delay retry_after_header attempt).
  split; [rewrite backoff_sleep_run; reflexivity|]. split.
  - intros s v -> E. unfold retry_delay. rewrite E.
    split; [reflexivity | apply clamp_range].
  - intros [-> | [-> | (s & -> & E)]]; unfold retry_delay;
      [reflexivity | reflexivity | rewrite E; reflexivity].
Qed.

(** A header of 120 seconds is clamped to 60; without a header the third
    retry waits 8 seconds. *)
Lemma backoff_sleep_spec_witness :
  let w := initial_world (fun _ _ => TimedOut)
             {| year := 2024; month := 6; day := 15 |} in
  slept (snd (backoff_sleep (Some "120") 3 w)) = [60] /\
  slept (snd (backoff_sleep None 3 w)) = [8].
Proof.
  intros w. split.
  - destruct (backoff_sleep_spec (Some "120") 3 w) as (d & E & H & _).
    destruct (H "120" 120 eq_refl eq_refl) as (-> & _).
    rewrite E. reflexivity.
  - destruct (backoff_sleep_spec None 3 w) as (d & E & _ & H).
    rewrite (H (or_introl eq_refl)) in E. rewrite E. reflexivity.
Defined.

(** C9 as stated fails: a [Retry-After] header may carry an HTTP date, and
    then the value is not clamped; the exponential delay is slept. *)
Lemma backoff_sleep_http_date :
  let h := Some "Wed, 21 Oct 2015 07:28:00 GMT" in
  let w := initial_world (fun _ _ => TimedOut)
             {| year := 2024; month := 6; day := 15 |} in
  slept (snd (backoff_sleep h 3 w)) = [Z.min (2 ^ 3) 30] /\
  ~ (exists v, int_of_string "Wed, 21 Oct 2015 07:28:00 GMT" = Some v /\
               slept (snd (backoff_sleep h 3 w)) = [clamp v 1 60]).
Proof.
  split; [reflexivity|]. intros (v & H & _). vm_compute in H. discriminate.
Qed.

Lemma retryable_spec s :
  retryable s = true <-> s = 429 \/ s = 500 \/ s = 502 \/ s = 503 \/ s = 504.
Proof.
  unfold retryable. simpl. rewrite !orb_true_iff, !Z.eqb_eq. intuition discriminate.
Qed.

Lemma retryable_raises resp w :
  retryable (status_code resp) = true ->
  raise_for_status resp w = (Raise (HTTPError (status_code resp)), w).
Proof.
  intros H. apply retryable_spec in H. unfold raise_for_status.
  destruct H as [-> | [-> | [-> | [-> | ->]]]]; reflexivity.
Qed.

(** One turn of the loop on a read timeout. *)
Lemma loop_timeout fuel r attempt w :
  server w (List.length (sent w)) r = TimedOut ->
  do_request_loop (S fuel) r attempt w =
  if (6 <? S attempt)%nat then (Raise ReadTimeout, after_send r w)
  else do_request_loop fuel r (S attempt)
         (after_retry r (retry_delay None (S attempt)) w).
Proof.
  intros H. cbn [do_request_loop]. unfold bind at 1. unfold send. rewrite H.
  destruct (6 <? S attempt)%nat; [reflexivity|].
  unfold bind. rewrite backoff_sleep_run. reflexivity.
Qed.

(** One turn of the loop on a retryable status. *)
Lemma loop_retryable fuel r attempt w resp :
  server w (List.length (sent w)) r = Responded resp ->
  retryable (status_code resp) = true ->
  do_request_loop (S fuel) r attempt w =
  if (6 <? S attempt)%nat
  then (Raise (HTTPError (status_code resp)), after_send r w)
  else do_request_loop fuel r (S attempt)
         (after_retry r (retry_delay (retry_after resp) (S attempt)) w).
Proof.
  intros H R. cbn [do_request_loop]. unfold bind at 1. unfold send. rewrite H.
  rewrite R. destruct (6 <? S attempt)%nat.
  - unfold bind. rewrite retryable_raises by exact R. reflexivity.
  - unfold bind, ret. rewrite backoff_sleep_run. reflexivity.
Qed.

(** One turn of the loop on any other status: no retry. *)
Lemma loop_final fuel r attempt w resp :
  server w (List.length (sent w)) r = Responded resp ->
  retryable (status_code resp) = false ->
  do_request_loop (S fuel) r attempt w =
  if (400 <=? status_code resp) && (status_code resp <? 600)
  then (Raise (HTTPError (status_code resp)), after_send r w)
  else (Ok resp, after_send r w).
Proof.
  intros H R. cbn [do_request_loop]. unfold bind at 1. unfold send. rewrite H.
  rewrite R. unfold bind, raise_for_status.
  destruct ((400 <=? status_code resp) && (status_code resp <? 600)); reflexivity.
Qed.

Lemma loop_failed fuel r attempt w e :
  server w (List.length (sent w)) r = Failed e ->
  do_request_loop (S fuel) r attempt w = (Raise e, after_send r w).
Proof.
  intros H. cbn [do_request_loop]. unfold bind at 1. unfold send. rewrite H.
  reflexivity.
Qed.

(** The loop makes at most [7 - attempt] turns: more fuel changes nothing,
    and the bound is never hit. *)
Lemma do_request_loop_fuel n :
  forall fuel r attempt w,
    (attempt + S n = 7)%nat -> (S n <= fuel)%nat ->
    do_request_loop fuel r attempt w = do_request_loop (S n) r attempt w /\
    fst (do_request_loop (S n) r attempt w) <> Diverge.
Proof.
  induction n as [|n IH]; intros fuel r attempt w Ha Hf;
    (destruct fuel as [|fuel]; [lia|]);
    destruct (server w (List.length (sent w)) r) as [resp| |e] eqn:E.
  - destruct (retryable (status_code resp)) eqn:R.
    + rewrite !(loop_retryable _ _ _ _ _ E R).
      replace (6 <? S attempt)%nat with true
        by (symmetry; apply Nat.ltb_lt; lia).
      split; [reflexivity|discriminate].
    + rewrite !(loop_final _ _ _ _ _ E R).
      split; [reflexivity|]. destruct (_ && _); discriminate.
  - rewrite !(loop_timeout _ _ _ _ E).
    replace (6 <? S attempt)%nat with true by (symmetry; apply Nat.ltb_lt; lia).
    split; [reflexivity|discriminate].
  - rewrite !(loop_failed _ _ _ _ _ E). split; [reflexivity|discriminate].
  - destruct (retryable (status_code resp)) eqn:R.
    + rewrite !(loop_retryable _ _ _ _ _ E R).
      replace (6 <? S attempt)%nat with false
        by (symmetry; apply Nat.ltb_ge; lia).
      apply IH; lia.
    + rewrite !(loop_final _ _ _ _ _ E R).
      split; [reflexivity|]. destruct (_ && _); discriminate.
  - rewrite !(loop_timeout _ _ _ _ E).
    replace (6 <? S attempt)%nat with false by (symmetry; apply Nat.ltb_ge; lia).
    apply IH; lia.
  - rewrite !(loop_failed _ _ _ _ _ E). split; [reflexivity|discriminate].
Qed.

(** [do_request] always comes back: it returns or raises. *)
Lemma do_request_total method url token json w :
  fst (do_request method url token json w) <> Diverge.
Proof.
  unfold do_request.
  apply (do_request_loop_fuel 6 7); lia.
Qed.

(** One turn of the loop on any transient outcome. *)
Lemma loop_transient fuel r attempt w :
  transient (server w (List.length (sent w)) r) = true ->
  do_request_loop (S fuel) r attempt w =
  if (6 <? S attempt)%nat
  then (Raise (final_error (server w (List.length (sent w)) r)), after_send r w)
  else do_request_loop fuel r (S attempt)
         (after_retry r
            (retry_delay (outcome_header (server w (List.length (sent w)) r))
                         (S attempt)) w).
Proof.
  intros T. destruct (server w (List.length (sent w)) r) as [resp| |e] eqn:E;
    simpl in T.
  - apply loop_retryable; assumption.
  - apply loop_timeout; assumption.
  - discriminate.
Qed.

(** If every remaining attempt meets a transient outcome, the loop sends
    the request [7 - attempt] times, sleeps between them and raises the
    error of the last outcome. *)
Lemma loop_all_transient n :
  forall r attempt w,
    (attempt + S n = 7)%nat ->
    (forall k, (k <= n)%nat ->
               transient (server w (List.length (sent w) + k) r) = true) ->
    do_request_loop (S n) r attempt w =
    (Raise (final_error (server w (List.length (sent w) + n) r)),
     {| server := server w; clock := clock w;
        sent := repeat r (S n) ++ sent w;
        slept := delays_slept w r attempt n ++ slept w;
        printed := printed w |}).
Proof.
  induction n as [|n IH]; intros r attempt w Ha H.
  - pose proof (H 0%nat (Nat.le_refl 0)) as T. rewrite Nat.add_0_r in *.
    rewrite loop_transient by exact T.
    replace (6 <? S attempt)%nat with true by (symmetry; apply Nat.ltb_lt; lia).
    reflexivity.
  - pose proof (H 0%nat (Nat.le_0_l _)) as T. rewrite Nat.add_0_r in T.
    rewrite loop_transient by exact T.
    replace (6 <? S attempt)%nat with false by (symmetry; apply Nat.ltb_ge; lia).
    rewrite IH.
    + unfold after_retry, delays_slept. cbn [server clock sent slept printed List.length].
      f_equal.
      * rewrite Nat.add_succ_comm. reflexivity.
      * f_equal.
        -- change (r :: sent w) with ([r] ++ sent w). rewrite app_assoc.
           f_equal. rewrite <- repeat_cons. reflexivity.
        -- cbn [seq map rev]. rewrite <- seq_shift, map_map, <- app_assoc.
           cbn [app]. rewrite !Nat.add_0_r. f_equal.
           f_equal. apply map_ext. intros k.
           rewrite Nat.add_succ_comm.
           replace (S attempt + k)%nat with (attempt + S k)%nat by lia.
           reflexivity.
    + lia.
    + intros k Hk. unfold after_retry. cbn [server sent List.length].
      rewrite Nat.add_succ_comm. apply H. lia.
Qed.

Lemma transient_retryable w n r :
  (exists resp, server w n r = Responded resp /\
                retryable (status_code resp) = true) ->
  transient (server w n r) = true.
Proof. intros (resp & -> & R). exact R. Qed.

(** C2 (as amended). When every attempt meets a retryable status (429,
    500, 502, 503, 504), [do_request] sends the request exactly 7 times,
    sleeps 6 times and raises an HTTP-status error carrying the status of
    the seventh response; when every attempt ends in a read timeout it
    sends 7 times and re-raises the timeout.  A status in 400..599 outside
    the retryable set fails at once, after a single attempt and no sleep;
    any other status outside the retryable set is returned to the caller
    after a single attempt. *)
Theorem do_request_retry_spec (method url token : string) (json : option pyobj)
    (w : world) :
  let r := {| req_method := method; req_url := url; req_token := token;
              req_json := json |} in
  let n0 := List.length (sent w) in
  ((forall k, (k < 7)%nat ->
              exists resp, server w (n0 + k)%nat r = Responded resp /\
                           retryable (status_code resp) = true) ->
   exists resp w',
     server w (n0 + 6)%nat r = Responded resp /\
     do_request method url token json w =
       (Raise (HTTPError (status_code resp)), w') /\
     sent w' = repeat r 7 ++ sent w /\
     List.length (slept w') = (6 + List.length (slept w))%nat) /\
  ((forall k, (k < 7)%nat -> server w (n0 + k)%nat r = TimedOut) ->
   exists w',
     do_request method url token json w = (Raise ReadTimeout, w') /\
     sent w' = repeat r 7 ++ sent w /\
     slept w' = [30; 30; 16; 8; 4; 2] ++ slept w) /\
  (forall resp,
     server w n0 r = Responded resp ->
     retryable (status_code resp) = false ->
     do_request method url token json w =
       (if (400 <=? status_code resp) && (status_code resp <? 600)
        then Raise (HTTPError (status_code resp)) else Ok resp,
        after_send r w)).
Proof.
  intros r n0. split; [|split].
  - intros H.
    destruct (H 6%nat ltac:(lia)) as (resp & E & R).
    eexists resp, _. split; [exact E|]. unfold do_request. fold r.
    rewrite (loop_all_transient 6) by
      (try lia; intros k Hk; apply transient_retryable, H; lia).
    fold n0. rewrite E. cbn [final_error].
    split; [reflexivity|]. cbn [sent slept]. split; [reflexivity|].
    rewrite length_app. unfold delays_slept.
    rewrite length_rev, length_map, length_seq. reflexivity.
  - intros H. eexists. unfold do_request. fold r.
    rewrite (loop_all_transient 6) by
      (try lia; intros k Hk; fold n0; rewrite H by lia; reflexivity).
    fold n0. rewrite H by lia. cbn [final_error].
    split; [reflexivity|]. cbn [sent slept]. split; [reflexivity|].
    unfold delays_slept. fold n0. cbn [seq map rev app].
    rewrite !H by lia. reflexivity.
  - intros resp E R. unfold do_request. fold r.
    rewrite (loop_final _ _ _ _ _ E R).
    destruct (_ && _); reflexivity.
Qed.

(** A server that answers 503 to every request: seven attempts, then the
    HTTP-status error for 503. *)
Lemma do_request_retry_spec_witness :
  let w := initial_world
             (fun _ _ => Responded {| status_code := 503; retry_after := None;
                                      body := None |})
             {| year := 2024; month := 6; day := 15 |} in
  exists w',
    do_request "GET" "https://management.azure.com/x" "t" None w =
      (Raise (HTTPError 503), w') /\
    List.length (sent w') = 7%nat /\ List.length (slept w') = 6%nat.
Proof.
  intros w.
  destruct (do_request_retry_spec "GET" "https://management.azure.com/x" "t"
              None w) as (A & _).
  destruct A as (resp & w' & E & D & S1 & S2).
  - intros k _. eexists. split; reflexivity.
  - exists w'. injection E as <-. split; [exact D|]. split.
    + rewrite S1. reflexivity.
    + rewrite S2. reflexivity.
Defined.

(** C2 as stated fails on its last clause: 304 is neither a 2xx status nor
    a retryable one, yet [do_request] returns the response instead of
    failing. *)
Lemma do_request_304_returns :
  let resp := {| status_code := 304; retry_after := None; body := None |} in
  let w := initial_world (fun _ _ => Responded resp)
             {| year := 2024; month := 6; day := 15 |} in
  retryable 304 = false /\
  ((200 <=? 304) && (304 <? 300) = false) /\
  fst (do_request "GET" "https://management.azure.com/x" "t" None w) = Ok resp.
Proof. repeat split. Qed.

End RetryClientFacts.


(** * The month windows *)

Section DateFacts.

Local Open Scope string_scope.
Local Open Scope Z_scope.

Lemma days_in_month_range y m : 28 <= days_in_month y m <= 31.
Proof.
  unfold days_in_month.
  destruct (m =? 2); [destruct (is_leap y); lia|].
  destruct ((m =? 4) || (m =? 6) || (m =? 9) || (m =? 11)); lia.
Qed.

Lemma valid_date_spec d :
  valid_date d = true <->
  MINYEAR <= year d <= MAXYEAR /\ 1 <= month d <= 12 /\
  1 <= day d <= days_in_month (year d) (month d).
Proof.
  unfold valid_date. rewrite !andb_true_iff, !Z.leb_le. tauto.
Qed.

Lemma make_date_valid y m d :
  MINYEAR <= y <= MAXYEAR -> 1 <= m <= 12 -> 1 <= d <= days_in_month y m ->
  make_date y m d = Ok {| year := y; month := m; day := d |}.
Proof.
  intros Hy Hm Hd. unfold make_date.
  replace (valid_date _) with true; [reflexivity|].
  symmetry. apply valid_date_spec. simpl. tauto.
Qed.

Lemma prev_month_index y m :
  1 <= m <= 12 ->
  1 <= snd (prev_month (y, m)) <= 12 /\
  month_index (prev_month (y, m)) = month_index (y, m) - 1.
Proof.
  intros H. unfold prev_month, month_index.
  destruct (Z.eqb_spec m 1); cbn [fst snd]; lia.
Qed.

Lemma next_month_index y m :
  1 <= m <= 12 ->
  1 <= snd (next_month (y, m)) <= 12 /\
  month_index (next_month (y, m)) = month_index (y, m) + 1.
Proof.
  intros H. unfold next_month, month_index.
  destruct (Z.eqb_spec m 12); cbn [fst snd]; lia.
Qed.

Lemma iter_prev_month_index i :
  forall y m,
    1 <= m <= 12 ->
    1 <= snd (Nat.iter i prev_month (y, m)) <= 12 /\
    month_index (Nat.iter i prev_month (y, m)) = month_index (y, m) - Z.of_nat i.
Proof.
  induction i as [|i IH]; intros y m H.
  - simpl. unfold month_index. simpl. lia.
  - rewrite Nat.iter_succ. destruct (IH y m H) as [A B].
    destruct (Nat.iter i prev_month (y, m)) as [y' m']. simpl in A.
    destruct (prev_month_index y' m' A) as [C D]. split; [exact C|].
    rewrite D, B. lia.
Qed.

(** Stepping a month forward or back from the first day of a month. *)
Lemma add_months_next y m :
  1 <= m <= 12 -> MINYEAR <= y -> month_index (y, m) < month_index (MAXYEAR, 12) ->
  add_months (first_of (y, m)) 1 = Ok (first_of (next_month (y, m))).
Proof.
  unfold month_index, first_of, add_months, next_month, MINYEAR, MAXYEAR.
  cbn [fst snd year month day]. intros Hm Hy Hi.
  destruct (Z.eqb_spec m 12) as [->|N].
  - simpl. pose proof (days_in_month_range (y + 1) 1).
    rewrite Z.min_r by lia.
    rewrite make_date_valid; unfold MINYEAR, MAXYEAR; try lia. reflexivity.
  - replace (12 <? m + 1) with false by (symmetry; apply Z.ltb_ge; lia).
    replace (m + 1 <? 1) with false by (symmetry; apply Z.ltb_ge; lia).
    pose proof (days_in_month_range y (m + 1)).
    rewrite Z.min_r by lia.
    rewrite make_date_valid; unfold MINYEAR, MAXYEAR; try lia. reflexivity.
Qed.

Lemma add_months_prev y m :
  1 <= m <= 12 -> y <= MAXYEAR -> month_index (MINYEAR, 1) < month_index (y, m) ->
  add_months (first_of (y, m)) (-1) = Ok (first_of (prev_month (y, m))).
Proof.
  unfold month_index, first_of, add_months, prev_month, MINYEAR, MAXYEAR.
  cbn [fst snd year month day]. intros Hm Hy Hi.
  destruct (Z.eqb_spec m 1) as [->|N].
  - simpl. pose proof (days_in_month_range (y - 1) 12).
    rewrite Z.min_r by lia.
    rewrite make_date_valid; unfold MINYEAR, MAXYEAR; try lia. reflexivity.
  - replace (12 <? m + -1) with false by (symmetry; apply Z.ltb_ge; lia).
    replace (m + -1 <? 1) with false by (symmetry; apply Z.ltb_ge; lia).
    pose proof (days_in_month_range y (m + -1)).
    rewrite Z.min_r by lia.
    rewrite make_date_valid; unfold MINYEAR, MAXYEAR; try lia.
    replace (m + -1) with (m - 1) by lia. reflexivity.
Qed.

(** The day before the first of the following month is the last day of
    the month. *)
Lemma previous_day_of_next y m :
  1 <= m <= 12 -> MINYEAR <= y ->
  previous_day (first_of (next_month (y, m))) = Ok (snd (month_window (y, m))).
Proof.
  unfold previous_day, first_of, next_month, month_window, MINYEAR.
  intros Hm Hy. destruct (Z.eqb_spec m 12) as [->|N]; cbn [fst snd year month day].
  - simpl. replace (1 <=? y + 1 - 1) with true by (symmetry; apply Z.leb_le; lia).
    replace (y + 1 - 1) with y by lia. reflexivity.
  - replace (1 <? 1) with false by reflexivity.
    replace (1 <? m + 1) with true by (symmetry; apply Z.ltb_lt; lia).
    cbn [year]. replace (1 <=? y) with true by (symmetry; apply Z.leb_le; lia).
    replace (m + 1 - 1) with m by lia. reflexivity.
Qed.

(** The day after the last day of a month is the first of the following
    month. *)
Lemma next_day_of_last y m :
  1 <= m <= 12 -> month_index (y, m) < month_index (MAXYEAR, 12) ->
  next_day (snd (month_window (y, m))) = Ok (first_of (next_month (y, m))).
Proof.
  unfold next_day, first_of, next_month, month_window, month_index, MAXYEAR.
  cbn [fst snd year month day]. intros Hm Hi. rewrite Z.ltb_irrefl.
  destruct (Z.eqb_spec m 12) as [->|N].
  - simpl. replace (y + 1 <=? 9999) with true by (symmetry; apply Z.leb_le; lia).
    reflexivity.
  - replace (m <? 12) with true by (symmetry; apply Z.ltb_lt; lia).
    cbn [year]. replace (y <=? 9999) with true by (symmetry; apply Z.leb_le; lia).
    reflexivity.
Qed.

Lemma replace_day_first y m :
  1 <= m <= 12 -> MINYEAR <= y <= MAXYEAR ->
  replace_day (first_of (y, m)) 1 = Ok (first_of (y, m)).
Proof.
  intros Hm Hy. unfold replace_day, first_of. cbn [fst snd year month day].
  pose proof (days_in_month_range y m).
  apply make_date_valid; lia.
Qed.

(** The loop, started on the first day of month [(y, m)], appends the
    windows of [(y, m)] and of the [k - 1] months before it. *)
Lemma month_windows_spec k :
  forall y m out,
    1 <= m <= 12 ->
    month_index (y, m) < month_index (MAXYEAR, 12) ->
    month_index (MINYEAR, 1) + Z.of_nat k <= month_index (y, m) ->
    month_windows k (first_of (y, m)) out =
    Ok (out ++ map (fun i => month_window (Nat.iter i prev_month (y, m)))
                   (seq 0 k))%list.
Proof.
  induction k as [|k IH]; intros y m out Hm Hhi Hlo.
  - simpl. rewrite app_nil_r. reflexivity.
  - assert (Hy : MINYEAR <= y <= MAXYEAR)
      by (unfold month_index, MINYEAR, MAXYEAR in *; cbn [fst snd] in *; lia).
    cbn [month_windows].
    rewrite replace_day_first by assumption. cbn [res_bind].
    rewrite add_months_next by (try assumption; lia). cbn [res_bind].
    rewrite previous_day_of_next by (try assumption; lia). cbn [res_bind].
    rewrite add_months_prev
      by (try assumption; try lia;
          unfold month_index, MINYEAR in *; cbn [fst snd] in *; lia).
    cbn [res_bind].
    destruct (prev_month_index y m Hm) as [Pm Pi].
    destruct (prev_month (y, m)) as [y' m'] eqn:E. simpl in Pm.
    change {| year := y'; month := m'; day := 1 |} with (first_of (y', m')).
    rewrite IH by (try assumption; lia).
    rewrite <- app_assoc. f_equal. f_equal. cbn [app seq map].
    rewrite <- seq_shift, map_map. f_equal.
    apply map_ext. intros i. rewrite Nat.iter_succ_r, E. reflexivity.
Qed.

Lemma elapsed_months_nth today n i :
  (i < n)%nat ->
  nth_error (elapsed_months today n) i = Some (month_window (months_back today (S i))).
Proof.
  intros H. unfold elapsed_months.
  rewrite nth_error_map.
  rewrite (nth_error_nth' _ 0%nat) by (rewrite length_seq; exact H).
  rewrite seq_nth by exact H. reflexivity.
Qed.

(** C7. For a valid [today] whose [n + 1] preceding months exist in the
    calendar, the windows computed are those of the [n] calendar months
    before the current one, most recent first: window [i] (from 0) runs
    from the first to the last day of month [M - (i + 1)], and the query
    for it runs from that first day up to, and not including, the day
    after its end, which is the first day of the following month. *)
Theorem first_last_day_of_last_n_months_spec (today : date) (n : Z) :
  valid_date today = true ->
  MINYEAR <= fst (months_back today (S (Z.to_nat n))) ->
  first_last_day_of_last_n_months today n =
    Ok (elapsed_months today (Z.to_nat n)) /\
  List.length (elapsed_months today (Z.to_nat n)) = Z.to_nat n /\
  (forall i, (i < Z.to_nat n)%nat ->
     exists y m,
       nth_error (elapsed_months today (Z.to_nat n)) i =
         Some ({| year := y; month := m; day := 1 |},
               {| year := y; month := m; day := days_in_month y m |}) /\
       1 <= m <= 12 /\
       12 * y + m = 12 * year today + month today - Z.of_nat (S i) /\
       next_day {| year := y; month := m; day := days_in_month y m |} =
         Ok (first_of (next_month (y, m))) /\
       res_bind (month_query_body (first_of (y, m))
                   {| year := y; month := m; day := days_in_month y m |})
                (fun body => py_item body "timePeriod") =
         Ok (VDict
               [("from", VStr (isoformat (first_of (y, m)) ++ "T00:00:00Z"));
                ("to", VStr (isoformat (first_of (next_month (y, m)))
                             ++ "T00:00:00Z"))])).
Proof.
  intros V Hmin. apply valid_date_spec in V. destruct V as (Vy & Vm & Vd).
  set (k := Z.to_nat n) in *.
  assert (Hidx : forall i, 1 <= snd (months_back today i) <= 12 /\
                           month_index (months_back today i) =
                           month_index (year today, month today) - Z.of_nat i).
  { intros i. apply iter_prev_month_index. exact Vm. }
  assert (Hlow : month_index (MINYEAR, 1) + Z.of_nat (S k)
                 <= month_index (year today, month today)).
  { destruct (Hidx (S k)) as [A B]. unfold month_index in *.
    cbn [fst snd] in *. unfold MINYEAR in *. lia. }
  split; [|split].
  - unfold first_last_day_of_last_n_months. fold k.
    assert (R : replace_day today 1 = Ok (first_of (year today, month today))).
    { unfold replace_day, first_of. cbn [fst snd].
      pose proof (days_in_month_range (year today) (month today)).
      apply make_date_valid; lia. }
    rewrite R. cbn [res_bind].
    rewrite add_months_prev
      by (try assumption; try lia;
          unfold month_index, MINYEAR in *; cbn [fst snd] in *; lia).
    cbn [res_bind].
    destruct (prev_month_index (year today) (month today) Vm) as [Pm Pi].
    destruct (prev_month (year today, month today)) as [y1 m1] eqn:E.
    cbn [snd] in Pm.
    change {| year := y1; month := m1; day := 1 |} with (first_of (y1, m1)).
    rewrite month_windows_spec.
    + cbn [app]. unfold elapsed_months. rewrite <- seq_shift, map_map.
      f_equal. apply map_ext. intros i. unfold months_back.
      rewrite Nat.iter_succ_r, E. reflexivity.
    + exact Pm.
    + rewrite Pi. unfold month_index, MAXYEAR in *. cbn [fst snd] in *. lia.
    + rewrite Pi. lia.
  - unfold elapsed_months. rewrite length_map, length_seq. reflexivity.
  - intros i Hi. rewrite elapsed_months_nth by exact Hi.
    destruct (Hidx (S i)) as [A B].
    destruct (months_back today (S i)) as [y m]. cbn [snd] in A.
    exists y, m. split; [reflexivity|]. split; [exact A|]. split.
    + unfold month_index in B. cbn [fst snd] in B. exact B.
    + assert (N : next_day {| year := y; month := m;
                               day := days_in_month y m |} =
                  Ok (first_of (next_month (y, m)))).
      { change {| year := y; month := m; day := days_in_month y m |}
          with (snd (month_window (y, m))).
        apply next_day_of_last; [exact A|].
        rewrite B. unfold month_index, MAXYEAR in *. cbn [fst snd] in *. lia. }
      split; [exact N|].
      unfold month_query_body. rewrite N. reflexivity.
Qed.

(** The example of the specification: on 2024-06-15 with 3 months the
    windows are May, April and March 2024, in that order. *)
Lemma first_last_day_of_last_n_months_spec_witness :
  let today := {| year := 2024; month := 6; day := 15 |} in
  valid_date today = true /\
  MINYEAR <= fst (months_back today (S (Z.to_nat 3))) /\
  first_last_day_of_last_n_months today 3 =
    Ok [({| year := 2024; month := 5; day := 1 |},
         {| year := 2024; month := 5; day := 31 |});
        ({| year := 2024; month := 4; day := 1 |},
         {| year := 2024; month := 4; day := 30 |});
        ({| year := 2024; month := 3; day := 1 |},
         {| year := 2024; month := 3; day := 31 |})] /\
  res_bind (month_query_body {| year := 2024; month := 5; day := 1 |}
              {| year := 2024; month := 5; day := 31 |})
           (fun body => py_item body "timePeriod") =
    Ok (VDict [("from", VStr "2024-05-01T00:00:00Z");
               ("to", VStr "2024-06-01T00:00:00Z")]).
Proof.
  intros today.
  assert (V : valid_date today = true) by reflexivity.
  assert (H : MINYEAR <= fst (months_back today (S (Z.to_nat 3))))
    by (vm_compute; discriminate).
  split; [exact V|]. split; [exact H|].
  destruct (first_last_day_of_last_n_months_spec today 3 V H) as (E & _ & W).
  split; [rewrite E; reflexivity|].
  destruct (W 0%nat ltac:(vm_compute; lia)) as (y & m & Hw & _ & _ & _ & B).
  vm_compute in Hw. injection Hw as <- <-. exact B.
Defined.

End DateFacts.


(** * Row assembly *)

Section RowFacts.

Local Open Scope string_scope.
Local Open Scope list_scope.

Lemma res_bind_ok {A B} (r : res A) (k : A -> res B) (b : B) :
  res_bind r k = Ok b -> exists a, r = Ok a /\ k a = Ok b.
Proof. destruct r; simpl; intros H; try discriminate. eauto. Qed.

(** Peel the successful steps off a chain of binds. *)
Ltac bind_inv H :=
  repeat (let a := fresh "v" in
          let E := fresh "E" in
          apply res_bind_ok in H; destruct H as (a & E & H)).

(** Every row of a budget is built by [make_row] from one condition, in
    order, and appended. *)
Lemma emit_condition_rows_spec scope_type scope_id sub_name sub_id
    resource_group b last_val prev_two forecast_total conditions :
  forall rows_list rows',
    emit_condition_rows rows_list scope_type scope_id sub_name sub_id
      resource_group b last_val prev_two forecast_total conditions = Ok rows' ->
    exists new,
      rows' = rows_list ++ new /\
      Forall2 (fun cond r =>
                 exists w,
                   forecast_will_trigger cond (bc_forecast_percent_of_budget b)
                     = Ok w /\
                   make_row scope_type scope_id sub_name sub_id resource_group
                     b last_val prev_two forecast_total cond w = Ok r)
              conditions new.
Proof.
  induction conditions as [|cond rest IH]; intros rows_list rows' H.
  - simpl in H. injection H as <-. exists []. rewrite app_nil_r. auto.
  - cbn [emit_condition_rows] in H.
    apply res_bind_ok in H. destruct H as (w & Ew & H).
    apply res_bind_ok in H. destruct H as (r & Er & H).
    destruct (IH _ _ H) as (new & -> & F).
    exists (r :: new). split.
    + rewrite <- app_assoc. reflexivity.
    + constructor; [exists w; auto | exact F].
Qed.

(** The cells a row carries. *)
Lemma make_row_fields scope_type scope_id sub_name sub_id resource_group b
    last_val prev_two forecast_total cond w r :
  make_row scope_type scope_id sub_name sub_id resource_group b last_val
    prev_two forecast_total cond w = Ok r ->
  row_field r "BudgetName" = Some (bc_name b) /\
  row_field r "PercentOfBudgetLastMonth" = Some (bc_percent_of_budget_last_month b) /\
  row_field r "BudgetAccuracy" = Some (bc_acc b) /\
  row_field r "ForecastPercentOfBudget" = Some (bc_forecast_percent_of_budget b) /\
  row_field r "ForecastConditionWillTrigger" = Some w.
Proof.
  unfold make_row. intros H. bind_inv H. injection H as <-.
  repeat split.
Qed.

Lemma conditions_or_none_length flat :
  List.length (conditions_or_none flat) = Nat.max 1 (List.length flat).
Proof. destruct flat as [|c [|c' l]]; reflexivity. Qed.

(** The conditions the summary hands to the loop are the flattened
    conditions of the budget, or a single [None]. *)
Lemma budget_summary_conditions budget last_val prev_two forecast_total b conds :
  budget_summary budget last_val prev_two forecast_total = Ok (b, conds) ->
  exists flat,
    budget_conditions budget = Ok flat /\ conds = conditions_or_none flat.
Proof.
  unfold budget_summary, budget_conditions. intros H.
  apply res_bind_ok in H. destruct H as (props & Ep & H). rewrite Ep. simpl.
  apply res_bind_ok in H. destruct H as (name & En & H).
  apply res_bind_ok in H. destruct H as (amount & Ea & H).
  apply res_bind_ok in H. destruct H as (tg & Etg & H).
  apply res_bind_ok in H. destruct H as (tp & Etp & H).
  apply res_bind_ok in H. destruct H as (sd & Esd & H).
  apply res_bind_ok in H. destruct H as (ed & Eed & H).
  apply res_bind_ok in H. destruct H as (notifs & Eno & H). rewrite Eno. simpl.
  apply res_bind_ok in H. destruct H as (flat & Ef & H). rewrite Ef.
  exists flat. split; [reflexivity|].
  bind_inv H. injection H as _ <-. reflexivity.
Qed.

Lemma budget_summary_name budget last_val prev_two forecast_total b conds :
  budget_summary budget last_val prev_two forecast_total = Ok (b, conds) ->
  py_get budget "name" (VStr "") = Ok (bc_name b).
Proof.
  unfold budget_summary. intros H.
  apply res_bind_ok in H. destruct H as (props & Ep & H).
  apply res_bind_ok in H. destruct H as (name & En & H).
  bind_inv H. injection H as <- _. exact En.
Qed.

(** The cells of the summary, in terms of the raw amount. *)
Lemma budget_summary_cells budget last_val prev_two forecast_total b conds :
  budget_summary budget last_val prev_two forecast_total = Ok (b, conds) ->
  budget_amount budget = Ok (bc_amount b) /\
  accuracy_cell last_val (bc_amount b) = Ok (bc_acc b) /\
  percent_of_amount last_val (bc_amount b) =
    Ok (bc_percent_of_budget_last_month b) /\
  percent_of_amount forecast_total (bc_amount b) =
    Ok (bc_forecast_percent_of_budget b).
Proof.
  unfold budget_summary, budget_amount. intros H.
  apply res_bind_ok in H. destruct H as (props & Ep & H). rewrite Ep. simpl.
  apply res_bind_ok in H. destruct H as (name & En & H).
  apply res_bind_ok in H. destruct H as (amount & Ea & H).
  apply res_bind_ok in H. destruct H as (tg & Etg & H).
  apply res_bind_ok in H. destruct H as (tp & Etp & H).
  apply res_bind_ok in H. destruct H as (sd & Esd & H).
  apply res_bind_ok in H. destruct H as (ed & Eed & H).
  apply res_bind_ok in H. destruct H as (notifs & Eno & H).
  apply res_bind_ok in H. destruct H as (flat & Ef & H).
  apply res_bind_ok in H. destruct H as (acc & Eacc & H).
  apply res_bind_ok in H. destruct H as (sab & Esab & H).
  apply res_bind_ok in H. destruct H as (sfb & Esfb & H).
  apply res_bind_ok in H. destruct H as (pct & Epct & H).
  apply res_bind_ok in H. destruct H as (fpob & Efpob & H).
  injection H as <- _. cbn [bc_amount bc_acc bc_percent_of_budget_last_month
                            bc_forecast_percent_of_budget].
  auto.
Qed.

(** [emit_budget_rows] in one statement: the summary succeeds and every
    appended row comes from one of its conditions. *)
Lemma emit_budget_rows_inv rows_list scope_type scope_id sub_name sub_id budget
    last_val prev_two forecast_total resource_group rows' :
  emit_budget_rows rows_list scope_type scope_id sub_name sub_id budget
    last_val prev_two forecast_total resource_group = Ok rows' ->
  exists b conds new,
    budget_summary budget last_val prev_two forecast_total = Ok (b, conds) /\
    rows' = rows_list ++ new /\
    Forall2 (fun cond r =>
               exists w,
                 forecast_will_trigger cond (bc_forecast_percent_of_budget b)
                   = Ok w /\
                 make_row scope_type scope_id sub_name sub_id resource_group
                   b last_val prev_two forecast_total cond w = Ok r)
            conds new.
Proof.
  unfold emit_budget_rows. intros H.
  apply res_bind_ok in H. destruct H as ([b conds] & E & H).
  destruct (emit_condition_rows_spec _ _ _ _ _ _ _ _ _ _ _ _ H) as (new & -> & F).
  exists b, conds, new. auto.
Qed.

Lemma startswith_forecast_cases (s : string) :
  startswith (lower s) "forecast" = true \/
  startswith (lower s) "forecast" = false.
Proof. destruct (startswith (lower s) "forecast"); auto. Qed.

(** With no forecast percentage there is no prediction. *)
Lemma forecast_will_trigger_empty cond w :
  forecast_will_trigger cond (VStr "") = Ok w -> w = VStr "".
Proof.
  unfold forecast_will_trigger. destruct (truthy cond); [|congruence].
  intros H.
  apply res_bind_ok in H. destruct H as (ty & Ety & H).
  apply res_bind_ok in H. destruct H as (low & Elow & H).
  destruct (startswith low "forecast"); [|congruence].
  apply res_bind_ok in H. destruct H as (thr & Ethr & H).
  simpl in H. congruence.
Qed.

(** C8. For a flattened condition, the forecast-trigger prediction is
    made only when its ThresholdType starts with "forecast" once
    lower-cased; it is then "True" when the forecast percentage of the
    budget is at least the threshold and "False" when it is below, and it
    is empty, never "False", when the forecast percentage is absent, when
    the threshold is absent, or when the threshold is not a number.  A
    budget without conditions gets no prediction either. *)
Theorem forecast_will_trigger_spec (d : list (string * pyobj)) (ty : string)
    (thr fpob : pyobj) :
  d <> [] ->
  dict_lookup d "ThresholdType" = Some (VStr ty) ->
  dict_lookup d "ThresholdPercent" = Some thr ->
  (startswith (lower ty) "forecast" = false ->
   forecast_will_trigger (VDict d) fpob = Ok (VStr "")) /\
  (startswith (lower ty) "forecast" = true ->
   (forall f t,
      fpob = VFloat f -> thr <> VNone -> py_float thr = Ok t ->
      ((t <= f)%Q -> forecast_will_trigger (VDict d) fpob = Ok (VStr "True")) /\
      ((f < t)%Q -> forecast_will_trigger (VDict d) fpob = Ok (VStr "False"))) /\
   (fpob = VStr "" -> forecast_will_trigger (VDict d) fpob = Ok (VStr "")) /\
   (thr = VNone -> forecast_will_trigger (VDict d) fpob = Ok (VStr "")) /\
   (forall f e,
      fpob = VFloat f -> py_float thr = Raise e ->
      forecast_will_trigger (VDict d) fpob = Ok (VStr ""))) /\
  forecast_will_trigger VNone fpob = Ok (VStr "").
Proof.
  intros Hd Hty Hthr.
  assert (T : truthy (VDict d) = true) by (destruct d; [contradiction|reflexivity]).
  unfold forecast_will_trigger. rewrite T. cbn [py_get truthy].
  rewrite Hty, Hthr. cbn [res_bind py_lower].
  split; [|split].
  - intros ->. reflexivity.
  - intros ->. repeat split.
    + intros L. subst fpob. cbn [not_empty_string].
      replace (is_none thr) with false by (destruct thr; try reflexivity; congruence).
      cbn [negb andb]. unfold compare_forecast. cbn [py_float res_bind].
      rewrite H1. cbn [res_bind].
      apply Qle_bool_iff in L. unfold Float.leb. rewrite L. reflexivity.
    + intros L. subst fpob. cbn [not_empty_string].
      replace (is_none thr) with false by (destruct thr; try reflexivity; congruence).
      cbn [negb andb]. unfold compare_forecast. cbn [py_float res_bind].
      rewrite H1. cbn [res_bind].
      replace (Float.leb t f) with false; [reflexivity|].
      symmetry. apply leb_false. exact L.
    + intros ->. reflexivity.
    + intros ->. cbn [is_none negb]. rewrite andb_false_r. reflexivity.
    + intros f e -> E. cbn [not_empty_string andb].
      destruct (is_none thr); [reflexivity|]. cbn [negb].
      unfold compare_forecast. cbn [py_float res_bind]. rewrite E. reflexivity.
  - reflexivity.
Qed.

(** The example of the specification: a "Forecasted" condition at 90 with
    a forecast of 95.2 percent of the budget triggers; with the forecast
    percentage absent the prediction is empty. *)
Lemma forecast_will_trigger_spec_witness :
  let d := [("ConditionKey", VStr "n1"); ("ThresholdType", VStr "Forecasted");
            ("ThresholdPercent", VInt 90)] in
  d <> [] /\
  forecast_will_trigger (VDict d) (VFloat (Float.lit 952 10)) = Ok (VStr "True") /\
  forecast_will_trigger (VDict d) (VStr "") = Ok (VStr "").
Proof.
  intros d.
  assert (Hd : d <> []) by discriminate.
  split; [exact Hd|].
  destruct (forecast_will_trigger_spec d "Forecasted" (VInt 90)
              (VFloat (Float.lit 952 10)) Hd eq_refl eq_refl)
    as (_ & H & _).
  destruct (H eq_refl) as (A & _).
  destruct (A (Float.lit 952 10) (Float.of_Z 90) eq_refl
              ltac:(discriminate) eq_refl) as (B & _).
  split.
  - apply B. vm_compute. discriminate.
  - destruct (forecast_will_trigger_spec d "Forecasted" (VInt 90) (VStr "")
                Hd eq_refl eq_refl) as (_ & H' & _).
    destruct (H' eq_refl) as (_ & C & _). apply C. reflexivity.
Defined.

(** Each emitted row records the prediction made for its condition from
    the forecast percentage the row shows. *)
Lemma emitted_row_prediction rows_list scope_type scope_id sub_name sub_id
    budget last_val prev_two forecast_total resource_group rows' :
  emit_budget_rows rows_list scope_type scope_id sub_name sub_id budget
    last_val prev_two forecast_total resource_group = Ok rows' ->
  exists conds new,
    rows' = rows_list ++ new /\
    Forall2 (fun cond r =>
               exists fp w,
                 row_field r "ForecastPercentOfBudget" = Some fp /\
                 row_field r "ForecastConditionWillTrigger" = Some w /\
                 forecast_will_trigger cond fp = Ok w)
            conds new.
Proof.
  intros H. destruct (emit_budget_rows_inv _ _ _ _ _ _ _ _ _ _ _ H)
    as (b & conds & new & _ & -> & F).
  exists conds, new. split; [reflexivity|].
  clear H.
  induction F as [|cond r conds new (w & Ew & Er) F IH];
    constructor; [|exact IH].
  destruct (make_row_fields _ _ _ _ _ _ _ _ _ _ _ _ Er) as (_ & _ & _ & A & B).
  exists (bc_forecast_percent_of_budget b), w. auto.
Qed.

Lemma zero_amount_falsy a :
  a = VInt 0 \/ (exists x, a = VFloat x /\ (x == 0)%Q) -> truthy a = false.
Proof.
  intros [-> | (x & -> & E)]; [reflexivity|].
  unfold truthy, Float.truthy. apply Qeq_bool_iff in E. rewrite E. reflexivity.
Qed.

Lemma percent_of_amount_falsy_amount value amount :
  truthy amount = false -> percent_of_amount value amount = Ok (VStr "").
Proof.
  intros H. unfold percent_of_amount. destruct value; [|reflexivity].
  rewrite H, andb_false_r. reflexivity.
Qed.

Lemma percent_of_amount_zero_value x amount :
  (x == 0)%Q -> percent_of_amount (Some x) amount = Ok (VStr "").
Proof.
  intros E. unfold percent_of_amount, Float.truthy.
  apply Qeq_bool_iff in E. rewrite E. reflexivity.
Qed.

Lemma accuracy_cell_falsy_amount last_val amount :
  truthy amount = false -> accuracy_cell last_val amount = Ok (VStr "").
Proof.
  intros H. unfold accuracy_cell. destruct last_val; [|reflexivity].
  rewrite H. reflexivity.
Qed.

(** C10. Whenever [emit_budget_rows] returns, it has appended at least one
    row, and in every appended row: if the budget amount is exactly 0 (the
    int 0 or the float 0.0), BudgetAccuracy, PercentOfBudgetLastMonth and
    ForecastPercentOfBudget are empty whatever the costs and the forecast
    are, and so is the forecast-trigger prediction; if the last-month cost
    is exactly 0.0, PercentOfBudgetLastMonth is empty; if the forecast
    total is exactly 0.0, ForecastPercentOfBudget and the prediction are
    empty. *)
Theorem zero_values_leave_cells_empty rows_list scope_type scope_id sub_name
    sub_id budget last_val prev_two forecast_total resource_group rows' :
  emit_budget_rows rows_list scope_type scope_id sub_name sub_id budget
    last_val prev_two forecast_total resource_group = Ok rows' ->
  exists new,
    rows' = rows_list ++ new /\ new <> [] /\
    forall r, In r new ->
      (forall a,
         budget_amount budget = Ok a ->
         a = VInt 0 \/ (exists x, a = VFloat x /\ (x == 0)%Q) ->
         row_field r "BudgetAccuracy" = Some (VStr "") /\
         row_field r "PercentOfBudgetLastMonth" = Some (VStr "") /\
         row_field r "ForecastPercentOfBudget" = Some (VStr "") /\
         row_field r "ForecastConditionWillTrigger" = Some (VStr "")) /\
      (forall x,
         last_val = Some x -> (x == 0)%Q ->
         row_field r "PercentOfBudgetLastMonth" = Some (VStr "")) /\
      (forall x,
         forecast_total = Some x -> (x == 0)%Q ->
         row_field r "ForecastPercentOfBudget" = Some (VStr "") /\
         row_field r "ForecastConditionWillTrigger" = Some (VStr "")).
Proof.
  intros H. destruct (emit_budget_rows_inv _ _ _ _ _ _ _ _ _ _ _ H)
    as (b & conds & new & S & -> & F).
  exists new. split; [reflexivity|]. split.
  - destruct (budget_summary_conditions _ _ _ _ _ _ S) as (flat & _ & ->).
    pose proof (Forall2_length F) as L.
    rewrite conditions_or_none_length in L. destruct new; [cbn [List.length] in L; lia|].
    discriminate.
  - destruct (budget_summary_cells _ _ _ _ _ _ S) as (Ea & Eacc & Epct & Efp).
    intros r Hr.
    assert (R : exists cond w,
               forecast_will_trigger cond (bc_forecast_percent_of_budget b)
                 = Ok w /\
               make_row scope_type scope_id sub_name sub_id resource_group b
                 last_val prev_two forecast_total cond w = Ok r).
    { clear -F Hr. induction F as [|c r' cs rs (w & A & B) F IH].
      - contradiction.
      - destruct Hr as [<-|Hr]; [exists c, w; auto | auto]. }
    destruct R as (cond & w & Ew & Er).
    destruct (make_row_fields _ _ _ _ _ _ _ _ _ _ _ _ Er)
      as (_ & Fpct & Facc & Ffp & Fw).
    rewrite Fpct, Facc, Ffp, Fw. split; [|split].
    + intros a Ha Hz. rewrite Ea in Ha. injection Ha as <-.
      apply zero_amount_falsy in Hz.
      rewrite accuracy_cell_falsy_amount in Eacc by exact Hz.
      rewrite percent_of_amount_falsy_amount in Epct by exact Hz.
      rewrite percent_of_amount_falsy_amount in Efp by exact Hz.
      injection Eacc as <-. injection Epct as <-. injection Efp as Efp.
      rewrite <- Efp in Ew |- *.
      rewrite (forecast_will_trigger_empty cond w Ew). auto.
    + intros x -> Hz.
      rewrite percent_of_amount_zero_value in Epct by exact Hz.
      injection Epct as <-. reflexivity.
    + intros x -> Hz.
      rewrite percent_of_amount_zero_value in Efp by exact Hz.
      injection Efp as Efp. rewrite <- Efp in Ew |- *.
      rewrite (forecast_will_trigger_empty cond w Ew). auto.
Qed.

(** A budget of amount 0 with a last-month cost of 800 and a forecast of
    952: the row is emitted, with the three derived cells and the
    prediction empty. *)
Lemma zero_values_leave_cells_empty_witness :
  exists rows,
    emit_budget_rows [] "Subscription" "/subscriptions/s1" (VStr "Sub One")
      "s1" budget_without_conditions (Some 800%Q) [700%Q] (Some 952%Q) ""
    = Ok rows /\
    rows <> [] /\
    forall r, In r rows ->
      row_field r "BudgetAccuracy" = Some (VStr "") /\
      row_field r "PercentOfBudgetLastMonth" = Some (VStr "") /\
      row_field r "ForecastPercentOfBudget" = Some (VStr "") /\
      row_field r "ForecastConditionWillTrigger" = Some (VStr "").
Proof.
  destruct (emit_budget_rows [] "Subscription" "/subscriptions/s1"
              (VStr "Sub One") "s1" budget_without_conditions
              (Some 800%Q) [700%Q] (Some 952%Q) "") as [rows|e| |] eqn:E;
    try (exfalso; vm_compute in E; discriminate).
  exists rows. split; [reflexivity|].
  destruct (zero_values_leave_cells_empty _ _ _ _ _ _ _ _ _ _ _ E)
    as (new & -> & Hne & Hall).
  split; [exact Hne|].
  intros r Hr. destruct (Hall r Hr) as (Hz & _).
  apply (Hz (VInt 0)); [reflexivity | left; reflexivity].
Defined.

End RowFacts.


(** * The driver *)

Section MonadFacts.

Lemma bind_ok {A B} (m : M A) (k : A -> M B) w b w' :
  bind m k w = (Ok b, w') ->
  exists a w1, m w = (Ok a, w1) /\ k a w1 = (Ok b, w').
Proof.
  unfold bind. destruct (m w) as [[a|e| |] w1]; intros H; try discriminate.
  eauto.
Qed.

Lemma bind_raise {A B} (m : M A) (k : A -> M B) w e w' :
  m w = (Raise e, w') -> bind m k w = (Raise e, w').
Proof. unfold bind. intros ->. reflexivity. Qed.

Lemma bind_step {A B} (m : M A) (k : A -> M B) w a w1 :
  m w = (Ok a, w1) -> bind m k w = k a w1.
Proof. unfold bind. intros ->. reflexivity. Qed.

Lemma lift_ok {A} (r : res A) w a w' :
  lift r w = (Ok a, w') -> r = Ok a /\ w' = w.
Proof. unfold lift. intros H. injection H as -> ->. auto. Qed.

Lemma ret_ok {A} (x : A) w a w' :
  ret x w = (Ok a, w') -> a = x /\ w' = w.
Proof. unfold ret. intros H. injection H as -> ->. auto. Qed.

(** A handler that returns turns every exception into its result. *)
Lemma try_except_ok {A} (m : M A) (h : exn -> M A) w a w' :
  try_except m h w = (Ok a, w') ->
  m w = (Ok a, w') \/ exists e w1, m w = (Raise e, w1) /\ h e w1 = (Ok a, w').
Proof.
  unfold try_except. destruct (m w) as [[x|e| |] w1]; intros H;
    try discriminate; eauto.
Qed.

End MonadFacts.

Section CostSeries.

Local Open Scope list_scope.

(** A month whose query raises ends the loop over the periods at once:
    the costs obtained so far are dropped and no later month is asked. *)
Lemma month_costs_failure scope token pre :
  forall costs costs1 p post e w w1 w2,
    month_costs scope token pre costs w = (Ok costs1, w1) ->
    month_cost scope token p w1 = (Raise e, w2) ->
    month_costs scope token (pre ++ p :: post) costs w = (Raise e, w2).
Proof.
  induction pre as [|q pre IH]; intros costs costs1 p post e w w1 w2 Hpre Hp.
  - simpl in Hpre. injection Hpre as <- <-. cbn [app month_costs].
    apply bind_raise. exact Hp.
  - cbn [app month_costs] in *.
    apply bind_ok in Hpre. destruct Hpre as (c & wq & Hq & Hrest).
    rewrite (bind_step _ _ _ _ _ Hq). eapply IH; eassumption.
Qed.

(** When all months answer, the loop returns one cost per period. *)
Lemma month_costs_length scope token periods :
  forall costs costs' w w',
    month_costs scope token periods costs w = (Ok costs', w') ->
    List.length costs' = (List.length costs + List.length periods)%nat.
Proof.
  induction periods as [|p periods IH]; intros costs costs' w w' H.
  - simpl in H. injection H as <- _. simpl. lia.
  - cbn [month_costs] in H. apply bind_ok in H.
    destruct H as (c & w1 & _ & H). apply IH in H.
    rewrite length_app in H. simpl in *. lia.
Qed.

Lemma none_months_all_none months :
  List.length (none_months months) = Z.to_nat months /\
  Forall (eq None) (none_months months).
Proof.
  unfold none_months. split; [apply repeat_length|].
  apply Forall_forall. intros x Hx. symmetry. exact (repeat_spec _ _ _ Hx).
Qed.

(** C3 (as amended). The monthly series is all or nothing.  When the cost
    query returns, the caller gets every month's cost.  When it raises,
    the caller prints a warning and models every month as [None].  And it
    raises as soon as one month's query does: the costs of the months
    already answered are dropped and the remaining months are not asked. *)
Theorem monthly_series_all_or_nothing (warning scope : string) (months : Z)
    (token : string) (w : world) :
  (forall costs w',
     cost_query_last_months_scope scope months token w = (Ok costs, w') ->
     monthly_or_none warning scope months token w = (Ok (map Some costs), w')) /\
  (forall e w',
     cost_query_last_months_scope scope months token w = (Raise e, w') ->
     monthly_or_none warning scope months token w =
       (Ok (none_months months), after_print warning w')) /\
  (forall pre p post costs1 w1 e w2,
     first_last_day_of_last_n_months (clock w) months = Ok (pre ++ p :: post) ->
     month_costs scope token pre [] w = (Ok costs1, w1) ->
     month_cost scope token p w1 = (Raise e, w2) ->
     cost_query_last_months_scope scope months token w = (Raise e, w2) /\
     monthly_or_none warning scope months token w =
       (Ok (none_months months), after_print warning w2)) /\
  List.length (none_months months) = Z.to_nat months /\
  Forall (eq None) (none_months months).
Proof.
  assert (A : forall e w',
             cost_query_last_months_scope scope months token w = (Raise e, w') ->
             monthly_or_none warning scope months token w =
               (Ok (none_months months), after_print warning w')).
  { intros e w' H. unfold monthly_or_none, try_except.
    erewrite bind_raise by exact H. reflexivity. }
  split; [|split; [exact A|split; [|apply none_months_all_none]]].
  - intros costs w' H. unfold monthly_or_none, try_except.
    erewrite bind_step by exact H. reflexivity.
  - intros pre p post costs1 w1 e w2 Hp Hpre Hfail.
    assert (Q : cost_query_last_months_scope scope months token w = (Raise e, w2)).
    { unfold cost_query_last_months_scope, get_today, bind at 1.
      unfold bind at 1, lift. rewrite Hp.
      eapply month_costs_failure; eassumption. }
    split; [exact Q | apply (A e); exact Q].
Qed.

(** The second of three months fails: the first month's cost was
    obtained, the third month is never asked, and the caller gets three
    [None]. *)
Lemma monthly_series_all_or_nothing_witness :
  let w := scripted [cost_page (Float.lit 1234 100); status_response 404] in
  exists w',
    monthly_or_none "warning" "/subscriptions/s1" 3 "t" w =
      (Ok [None; None; None], w') /\
    List.length (sent w') = 2%nat.
Proof.
  intros w.
  destruct (monthly_series_all_or_nothing "warning" "/subscriptions/s1" 3 "t" w)
    as (_ & _ & H & _).
  pose (may := ({| year := 2024; month := 5; day := 1 |},
                {| year := 2024; month := 5; day := 31 |})).
  pose (april := ({| year := 2024; month := 4; day := 1 |},
                  {| year := 2024; month := 4; day := 30 |})).
  pose (march := ({| year := 2024; month := 3; day := 1 |},
                  {| year := 2024; month := 3; day := 31 |})).
  destruct (month_costs "/subscriptions/s1" "t" [may] [] w) as [r1 w1] eqn:E1.
  destruct (month_cost "/subscriptions/s1" "t" april w1) as [r2 w2] eqn:E2.
  assert (R1 : r1 = Ok [Float.lit 1234 100]).
  { change r1 with (fst (r1, w1)). rewrite <- E1. vm_compute. reflexivity. }
  assert (R2 : r2 = Raise (HTTPError 404)).
  { change r2 with (fst (r2, w2)). rewrite <- E2.
    change w1 with (snd (r1, w1)). rewrite <- E1. vm_compute. reflexivity. }
  subst r1 r2.
  destruct (H [may] april [march] _ _ _ _ eq_refl E1 E2) as (_ & S).
  eexists. split; [exact S|].
  change w2 with (snd (Raise (A := Float.float) (HTTPError 404), w2)).
  rewrite <- E2.
  change w1 with (snd (Ok [Float.lit 1234 100], w1)). rewrite <- E1.
  vm_compute. reflexivity.
Defined.

(** C3 as stated fails: May's query succeeds with 12.34 and April's
    query fails, yet the series handed to the caller has [None] for May
    as well. *)
Lemma monthly_series_drops_succeeded_month :
  let w := scripted [cost_page (Float.lit 1234 100); status_response 404] in
  let may := ({| year := 2024; month := 5; day := 1 |},
              {| year := 2024; month := 5; day := 31 |}) in
  fst (month_cost "/subscriptions/s1" "t" may w) = Ok (Float.lit 1234 100) /\
  fst (monthly_or_none "warning" "/subscriptions/s1" 3 "t" w) =
    Ok [None; None; None].
Proof. split; vm_compute; reflexivity. Qed.

End CostSeries.

Section FailurePolicy.

Local Open Scope list_scope.
Local Open Scope string_scope.

(** C4 (as amended). A failure of the management-group descendants walk
    is not caught: [main] raises it, so the run aborts.  A failure of the
    resource-group listing of a subscription is caught like the other
    per-scope failures: a warning is printed, the subscription counts as
    having no resource groups, no row is added and the run goes on. *)
Theorem discovery_failure_policy (fuel : nat) (a : arguments) (token : string)
    (w : world) :
  (forall e w',
     mem "mg" (include_scopes a) || mem "sub" (include_scopes a)
       || mem "rg" (include_scopes a) = true ->
     list_mgs_and_subs_under_mg fuel (management_group_id a) token w
       = (Raise e, w') ->
     main fuel a token w = (Raise e, w')) /\
  (forall s rows e w',
     list_resource_groups fuel (subscriptionId s) token w = (Raise e, w') ->
     rg_block fuel a token rows s w =
       (Ok rows,
        after_print ("  ! RG list failed (" ++ subscriptionId s ++ ")") w')).
Proof.
  split.
  - intros e w' Hs H. unfold main. rewrite Hs.
    apply bind_raise. exact H.
  - intros s rows e w' H. unfold rg_block, resource_groups_or_empty.
    unfold bind at 1, try_except.
    erewrite bind_raise by exact H. reflexivity.
Qed.

(** The descendants walk answers 404: the run aborts with that error. *)
Lemma discovery_failure_policy_witness :
  let a := {| management_group_id := "mg-demo"; months := 3;
              include_scopes := ["mg"; "sub"; "rg"];
              sub_filter := []; rg_filter := [] |} in
  let w := scripted [status_response 404] in
  fst (main 5 a "t" w) = Raise (HTTPError 404).
Proof.
  intros a w.
  destruct (list_mgs_and_subs_under_mg 5 (management_group_id a) "t" w)
    as [r w'] eqn:E.
  assert (R : r = Raise (HTTPError 404)).
  { change r with (fst (r, w')). rewrite <- E. vm_compute. reflexivity. }
  subst r.
  destruct (discovery_failure_policy 5 a "t" w) as (H & _).
  rewrite (H _ _ eq_refl E). reflexivity.
Defined.

(** C4 as stated fails for the resource-group listing: it answers 404,
    and the run still completes, with a warning and an empty report. *)
Lemma rg_listing_failure_is_swallowed :
  let a := {| management_group_id := "mg-demo"; months := 3;
              include_scopes := ["rg"]; sub_filter := []; rg_filter := [] |} in
  let w := scripted [one_subscription_page; status_response 404] in
  fst (list_resource_groups 5 "s1" "t"
         (snd (list_mgs_and_subs_under_mg 5 "mg-demo" "t" w)))
    = Raise (HTTPError 404) /\
  fst (main 5 a "t" w) =
    Ok {| mg_rows := []; sub_rows := []; sub_nobudget_rows := [];
          rg_rows := [] |} /\
  printed (snd (main 5 a "t" w)) = ["  ! RG list failed (s1)"].
Proof. repeat split; vm_compute; reflexivity. Qed.

End FailurePolicy.

Section RowCounts.

Local Open Scope string_scope.
Local Open Scope list_scope.

Lemma make_row_budget_bearing scope_type scope_id sub_name sub_id
    resource_group b last_val prev_two forecast_total cond w r :
  make_row scope_type scope_id sub_name sub_id resource_group b last_val
    prev_two forecast_total cond w = Ok r ->
  budget_bearing r.
Proof.
  unfold make_row. intros H.
  repeat (let a := fresh "v" in
          let E := fresh "E" in
          apply res_bind_ok in H; destruct H as (a & E & H)).
  injection H as <-. reflexivity.
Qed.

(** The rows of one budget: as many as its flattened conditions, and one
    when it has none; all carry the name of the budget. *)
Lemma emit_budget_rows_count rows_list scope_type scope_id sub_name sub_id
    budget last_val prev_two forecast_total resource_group rows' :
  emit_budget_rows rows_list scope_type scope_id sub_name sub_id budget
    last_val prev_two forecast_total resource_group = Ok rows' ->
  exists flat name new,
    budget_conditions budget = Ok flat /\
    py_get budget "name" (VStr "") = Ok name /\
    rows' = rows_list ++ new /\
    List.length new = Nat.max 1 (List.length flat) /\
    Forall (fun r => row_field r "BudgetName" = Some name) new /\
    Forall budget_bearing new.
Proof.
  intros H. destruct (emit_budget_rows_inv _ _ _ _ _ _ _ _ _ _ _ H)
    as (b & conds & new & S & -> & F).
  destruct (budget_summary_conditions _ _ _ _ _ _ S) as (flat & Ef & ->).
  exists flat, (bc_name b), new.
  split; [exact Ef|]. split; [exact (budget_summary_name _ _ _ _ _ _ S)|].
  split; [reflexivity|]. split.
  - rewrite <- conditions_or_none_length. symmetry. exact (Forall2_length F).
  - clear H S Ef. split.
    + induction F as [|c r cs rs (w & _ & Er) F IH]; constructor; auto.
      apply (make_row_fields _ _ _ _ _ _ _ _ _ _ _ _ Er).
    + induction F as [|c r cs rs (w & _ & Er) F IH]; constructor; auto.
      apply (make_row_budget_bearing _ _ _ _ _ _ _ _ _ _ _ _ Er).
Qed.

(** The rows of the budgets of a scope: at least one per budget, none of
    them synthetic. *)
Lemma emit_all_spec scope_type scope_id sub_name sub_id last_val prev_two
    forecast_total resource_group budgets :
  forall rows_list rows',
    emit_all rows_list scope_type scope_id sub_name sub_id budgets last_val
      prev_two forecast_total resource_group = Ok rows' ->
    exists new,
      rows' = rows_list ++ new /\
      (List.length budgets <= List.length new)%nat /\
      Forall budget_bearing new.
Proof.
  induction budgets as [|b rest IH]; intros rows_list rows' H.
  - simpl in H. injection H as <-. exists []. rewrite app_nil_r. auto.
  - cbn [emit_all] in H. apply res_bind_ok in H. destruct H as (rows1 & E & H).
    destruct (emit_budget_rows_count _ _ _ _ _ _ _ _ _ _ _ E)
      as (flat & name & new1 & _ & _ & -> & L & _ & B1).
    destruct (IH _ _ H) as (new2 & -> & L2 & B2).
    exists (new1 ++ new2). rewrite app_assoc. split; [reflexivity|]. split.
    + rewrite length_app. simpl. lia.
    + apply Forall_app. auto.
Qed.

Lemma no_budget_row_synthetic sub_scope sub_name sub_id sub_last sub_prev2
    sub_fc r :
  no_budget_row sub_scope sub_name sub_id sub_last sub_prev2 sub_fc = Ok r ->
  synthetic r.
Proof.
  unfold no_budget_row. intros H.
  apply res_bind_ok in H. destruct H as (x & _ & H).
  apply res_bind_ok in H. destruct H as (y & _ & H).
  injection H as <-. split; reflexivity.
Qed.

(** Inverting a step of the management-group or resource-group tier
    after its budgets have been fetched. *)
Ltac tier_rows H T :=
  match type of T with
  | truthy _ = true =>
      let monthly := fresh "monthly" in
      let fc := fresh "fc" in
      let l := fresh "l" in
      let new := fresh "new" in
      let B := fresh "B" in
      cbn [negb] in H;
      apply bind_ok in H; destruct H as (monthly & ? & _ & H);
      apply bind_ok in H; destruct H as (fc & ? & _ & H);
      apply bind_ok in H; destruct H as (l & ? & _ & H);
      apply lift_ok in H; destruct H as (H & _);
      destruct (emit_all_spec _ _ _ _ _ _ _ _ _ _ _ H) as (new & -> & _ & B);
      exists new; split; [reflexivity|]; split; [exact B|]; congruence
  | truthy _ = false =>
      cbn [negb] in H;
      apply ret_ok in H; destruct H as (-> & _);
      exists []; rewrite app_nil_r; auto
  end.

(** A management group: budget rows only, and none without budgets. *)
Lemma mg_step_spec a token rows mg w rows' w' :
  mg_step a token rows mg w = (Ok rows', w') ->
  exists warning budgets w1 new,
    budgets_or_empty warning
      ("/providers/Microsoft.Management/managementGroups/"
       ++ managementGroupId mg)%string token w = (Ok budgets, w1) /\
    rows' = rows ++ new /\ Forall budget_bearing new /\
    (truthy budgets = false -> new = []).
Proof.
  unfold mg_step. intros H.
  apply bind_ok in H. destruct H as (budgets & w1 & Eb & H).
  eexists _, budgets, w1. 
  assert (G : exists new, rows' = rows ++ new /\ Forall budget_bearing new /\
                          (truthy budgets = false -> new = [])).
  { destruct (truthy budgets) eqn:T; tier_rows H T. }
  destruct G as (new & G). exists new. split; [exact Eb | exact G].
Qed.

(** A resource group: the same. *)
Lemma rg_step_spec a token rows s rg w rows' w' :
  rg_step a token rows s rg w = (Ok rows', w') ->
  exists warning budgets w1 new,
    budgets_or_empty warning
      ("/subscriptions/" ++ subscriptionId s ++ "/resourceGroups/" ++ rg)%string
      token w = (Ok budgets, w1) /\
    rows' = rows ++ new /\ Forall budget_bearing new /\
    (truthy budgets = false -> new = []).
Proof.
  unfold rg_step. intros H.
  apply bind_ok in H. destruct H as (budgets & w1 & Eb & H).
  eexists _, budgets, w1.
  assert (G : exists new, rows' = rows ++ new /\ Forall budget_bearing new /\
                          (truthy budgets = false -> new = [])).
  { destruct (truthy budgets) eqn:T; tier_rows H T. }
  destruct G as (new & G). exists new. split; [exact Eb | exact G].
Qed.

(** A subscription: budget rows when it has budgets, one synthetic row
    when it has none, never both. *)
Lemma sub_block_spec a token rows nobudget s w rows' nobudget' w' :
  sub_block a token rows nobudget s w = (Ok (rows', nobudget'), w') ->
  exists warning budgets w1 new_rows new_nobudget,
    budgets_or_empty warning ("/subscriptions/" ++ subscriptionId s)%string
      token w = (Ok budgets, w1) /\
    rows' = rows ++ new_rows /\ nobudget' = nobudget ++ new_nobudget /\
    Forall budget_bearing new_rows /\ Forall synthetic new_nobudget /\
    (truthy budgets = true -> new_nobudget = []) /\
    (truthy budgets = false ->
     new_rows = [] /\ List.length new_nobudget = 1%nat).
Proof.
  unfold sub_block. intros H.
  apply bind_ok in H. destruct H as (budgets & w1 & Eb & H).
  apply bind_ok in H. destruct H as (monthly & w2 & _ & H).
  apply bind_ok in H. destruct H as (fc & w3 & _ & H).
  eexists _, budgets, w1.
  destruct (truthy budgets) eqn:T.
  - apply bind_ok in H. destruct H as (l & w4 & _ & H).
    apply bind_ok in H. destruct H as (rows1 & w5 & E & H).
    apply lift_ok in E. destruct E as (E & _).
    apply ret_ok in H. destruct H as (H & _). inversion H; subst; clear H.
    destruct (emit_all_spec _ _ _ _ _ _ _ _ _ _ _ E) as (new & -> & _ & B).
    exists new, []. rewrite app_nil_r.
    split; [exact Eb|]. repeat split; auto; discriminate.
  - apply bind_ok in H. destruct H as (r & w4 & E & H).
    apply lift_ok in E. destruct E as (E & _).
    apply ret_ok in H. destruct H as (H & _). inversion H; subst; clear H.
    exists [], [r]. rewrite app_nil_r.
    split; [exact Eb|]. repeat split; auto; try discriminate.
    constructor; [|constructor].
    exact (no_budget_row_synthetic _ _ _ _ _ _ _ E).
Qed.

(** C5. A budget yields as many rows as it has flattened notification
    conditions, and one row when it has none, all carrying its name.  At
    every scope budget rows and the synthetic no-budget row exclude each
    other: a subscription with budgets gets budget rows only, a
    subscription without budgets gets exactly one synthetic row, and a
    management group or resource group gets budget rows only, none
    when it has no budgets. *)
Theorem rows_per_budget_and_scope :
  (forall rows_list scope_type scope_id sub_name sub_id budget last_val
          prev_two forecast_total resource_group rows',
     emit_budget_rows rows_list scope_type scope_id sub_name sub_id budget
       last_val prev_two forecast_total resource_group = Ok rows' ->
     exists flat name new,
       budget_conditions budget = Ok flat /\
       py_get budget "name" (VStr "") = Ok name /\
       rows' = rows_list ++ new /\
       List.length new = Nat.max 1 (List.length flat) /\
       Forall (fun r => row_field r "BudgetName" = Some name) new /\
       Forall budget_bearing new) /\
  (forall a token rows nobudget s w rows' nobudget' w',
     sub_block a token rows nobudget s w = (Ok (rows', nobudget'), w') ->
     exists warning budgets w1 new_rows new_nobudget,
       budgets_or_empty warning ("/subscriptions/" ++ subscriptionId s)%string
         token w = (Ok budgets, w1) /\
       rows' = rows ++ new_rows /\ nobudget' = nobudget ++ new_nobudget /\
       Forall budget_bearing new_rows /\ Forall synthetic new_nobudget /\
       (truthy budgets = true -> new_nobudget = []) /\
       (truthy budgets = false ->
        new_rows = [] /\ List.length new_nobudget = 1%nat)) /\
  (forall a token rows mg w rows' w',
     mg_step a token rows mg w = (Ok rows', w') ->
     exists warning budgets w1 new,
       budgets_or_empty warning
         ("/providers/Microsoft.Management/managementGroups/"
          ++ managementGroupId mg)%string token w = (Ok budgets, w1) /\
       rows' = rows ++ new /\ Forall budget_bearing new /\
       (truthy budgets = false -> new = [])) /\
  (forall a token rows s rg w rows' w',
     rg_step a token rows s rg w = (Ok rows', w') ->
     exists warning budgets w1 new,
       budgets_or_empty warning
         ("/subscriptions/" ++ subscriptionId s ++ "/resourceGroups/" ++ rg)%string
         token w = (Ok budgets, w1) /\
       rows' = rows ++ new /\ Forall budget_bearing new /\
       (truthy budgets = false -> new = [])).
Proof.
  split; [|split; [|split]].
  - intros. eapply emit_budget_rows_count; eassumption.
  - intros. eapply sub_block_spec; eassumption.
  - intros. eapply mg_step_spec; eassumption.
  - intros. eapply rg_step_spec; eassumption.
Qed.

(** The examples of the specification: a budget with three flattened
    conditions yields three rows, a budget without notifications one. *)
Lemma rows_per_budget_and_scope_witness :
  (exists rows,
     emit_budget_rows [] "Subscription" "/subscriptions/s1" (VStr "Sub One")
       "s1" budget_with_three_conditions (Some 800%Q) [700%Q] (Some 952%Q) ""
     = Ok rows /\
     List.length rows = 3%nat /\
     Forall (fun r => row_field r "BudgetName" = Some (VStr "b1")) rows) /\
  (exists rows,
     emit_budget_rows [] "Subscription" "/subscriptions/s1" (VStr "Sub One")
       "s1" budget_without_conditions (Some 800%Q) [700%Q] (Some 952%Q) ""
     = Ok rows /\
     List.length rows = 1%nat).
Proof.
  destruct rows_per_budget_and_scope as (H & _).
  split.
  - destruct (emit_budget_rows [] "Subscription" "/subscriptions/s1"
                (VStr "Sub One") "s1" budget_with_three_conditions
                (Some 800%Q) [700%Q] (Some 952%Q) "") as [rows|e| |] eqn:E;
      try (exfalso; vm_compute in E; discriminate).
    exists rows. split; [reflexivity|].
    destruct (H _ _ _ _ _ _ _ _ _ _ _ E)
      as (flat & name & new & Ef & En & -> & L & N & _).
    assert (Lf : List.length flat = 3%nat).
    { assert (F : option_map (@List.length pyobj)
                    (match budget_conditions budget_with_three_conditions with
                     | Ok l => Some l | _ => None end) = Some 3%nat)
        by (vm_compute; reflexivity).
      rewrite Ef in F. simpl in F. congruence. }
    assert (Nm : name = VStr "b1") by (vm_compute in En; congruence).
    subst name. rewrite Lf in L. split; [exact L | exact N].
  - destruct (emit_budget_rows [] "Subscription" "/subscriptions/s1"
                (VStr "Sub One") "s1" budget_without_conditions
                (Some 800%Q) [700%Q] (Some 952%Q) "") as [rows|e| |] eqn:E;
      try (exfalso; vm_compute in E; discriminate).
    exists rows. split; [reflexivity|].
    destruct (H _ _ _ _ _ _ _ _ _ _ _ E)
      as (flat & name & new & Ef & En & -> & L & _).
    assert (Lf : List.length flat = 0%nat).
    { assert (F : option_map (@List.length pyobj)
                    (match budget_conditions budget_without_conditions with
                     | Ok l => Some l | _ => None end) = Some 0%nat)
        by (vm_compute; reflexivity).
      rewrite Ef in F. simpl in F. congruence. }
    rewrite Lf in L. exact L.
Defined.

End RowCounts.


(** * More on the assessment helpers *)

Module RoundingFacts.

Import Float FloatFacts.
Local Open Scope Q_scope.

(** [rnd] returns its result in lowest terms, so it maps equal rationals
    to the same value. *)
Lemma rnd_canonical x : Qred (rnd x) = rnd x.
Proof.
  unfold rnd. destruct (Qnum x).
  - reflexivity.
  - unfold rnd_pos. apply Qred_complete, Qred_correct.
  - rewrite Qred_opp. f_equal. unfold rnd_pos.
    apply Qred_complete, Qred_correct.
Qed.

Lemma rnd_ext x y : x == y -> rnd x = rnd y.
Proof.
  intros E. rewrite <- (rnd_canonical x), <- (rnd_canonical y).
  apply Qred_complete. rewrite E. reflexivity.
Qed.






End RoundingFacts.

Section AccuracyOrder.

Import Float FloatFacts RoundingFacts.
Local Open Scope Q_scope.

Lemma budget_accuracy_pos b a :
  0 < b -> 0 < a ->
  budget_accuracy b a = Ok (sub 1 (rnd (abs (sub b a) / max b a))).
Proof.
  intros Hb Ha. unfold budget_accuracy.
  pose proof Hb as Hb'. pose proof Ha as Ha'.
  apply leb_false in Hb', Ha'. rewrite Hb', Ha'. simpl.
  rewrite div_nonzero; [reflexivity|].
  destruct (max_spec b a) as [[_ ->]|[_ ->]]; lra.
Qed.

Lemma max_comm a b : max a b == max b a.
Proof.
  destruct (max_spec a b) as [[L ->]|[L ->]];
    destruct (max_spec b a) as [[L' ->]|[L' ->]]; lra.
Qed.

Lemma abs_sub_comm a b : abs (sub a b) == abs (sub b a).
Proof.
  unfold abs, sub.
  rewrite (rnd_ext (b - a) (- (a - b))) by ring.
  rewrite rnd_opp. symmetry. apply Qabs_opp.
Qed.

(** X1. [budget_accuracy] does not tell the budget from the actual cost:
    swapping its two arguments gives the same result. *)
Theorem budget_accuracy_symmetric (budget actual : float) :
  budget_accuracy budget actual = budget_accuracy actual budget.
Proof.
  destruct (Qlt_le_dec 0 budget) as [Hb|Hb];
    destruct (Qlt_le_dec 0 actual) as [Ha|Ha].
  - rewrite !budget_accuracy_pos by assumption.
    do 2 f_equal. apply rnd_ext.
    rewrite (abs_sub_comm budget actual), (max_comm budget actual).
    reflexivity.
  - unfold budget_accuracy.
    apply leb_false in Hb. apply leb_true in Ha. rewrite Hb, Ha. reflexivity.
  - unfold budget_accuracy.
    apply leb_true in Hb. apply leb_false in Ha. rewrite Hb, Ha. reflexivity.
  - unfold budget_accuracy.
    apply leb_true in Hb, Ha. rewrite Hb, Ha. reflexivity.
Qed.

Lemma accuracy_below b a :
  0 < a -> a <= b ->
  budget_accuracy b a = Ok (sub 1 (rnd (rnd (b - a) / b))) /\
  budget_accuracy a b = Ok (sub 1 (rnd (rnd (b - a) / b))).
Proof.
  intros Ha L.
  assert (Hb : 0 < b) by lra.
  assert (N : 0 <= rnd (b - a)) by (apply rnd_nonneg; lra).
  assert (E1 : abs (sub b a) == rnd (b - a)).
  { unfold abs, sub. apply Qabs_pos. exact N. }
  assert (M1 : max b a == b).
  { destruct (max_spec b a) as [[? ->]|[? ->]]; lra. }
  split.
  - rewrite budget_accuracy_pos by assumption.
    do 2 f_equal. apply rnd_ext. rewrite E1, M1. reflexivity.
  - rewrite budget_accuracy_pos by assumption.
    do 2 f_equal. apply rnd_ext.
    rewrite (abs_sub_comm a b), E1, (max_comm a b), M1. reflexivity.
Qed.

(** X2. On the side where the smaller amount grows towards the larger
    one, the accuracy never goes down: for [0 < x <= x' <= y], the
    accuracy of [x'] against [y] is at least that of [x] against [y],
    whichever of the two is the budget. *)
Theorem budget_accuracy_closer_is_better (x x' y : float) :
  0 < x -> x <= x' -> x' <= y ->
  exists r r',
    budget_accuracy y x = Ok r /\ budget_accuracy y x' = Ok r' /\
    budget_accuracy x y = Ok r /\ budget_accuracy x' y = Ok r' /\
    r <= r'.
Proof.
  intros Hx L1 L2.
  destruct (accuracy_below y x Hx ltac:(lra)) as [A1 A2].
  destruct (accuracy_below y x' ltac:(lra) L2) as [B1 B2].
  exists (sub 1 (rnd (rnd (y - x) / y))), (sub 1 (rnd (rnd (y - x') / y))).
  repeat split; try assumption.
  unfold sub. apply rnd_mono.
  assert (R : rnd (rnd (y - x') / y) <= rnd (rnd (y - x) / y)).
  { apply rnd_mono. apply Qmult_le_compat_r.
    - apply rnd_mono. lra.
    - apply Qlt_le_weak, Qinv_lt_0_compat. lra. }
  lra.
Qed.

Lemma budget_accuracy_closer_is_better_witness :
  exists r r',
    budget_accuracy 150 100 = Ok r /\ budget_accuracy 150 120 = Ok r' /\
    r <= r'.
Proof.
  destruct (budget_accuracy_closer_is_better 100 120 150)
    as (r & r' & A & B & _ & _ & L); [reflexivity|discriminate|discriminate|].
  exists r, r'. auto.
Defined.

End AccuracyOrder.

Section SuggestionOrder.

Import Float FloatFacts RoundingFacts.
Local Open Scope Q_scope.



Lemma eleven_tenths : lit 11 10 == 2476979795053773 # 2251799813685248.
Proof. vm_compute. reflexivity. Qed.






End SuggestionOrder.


(** * More on the retry client *)

Section RetryBounds.

Local Open Scope string_scope.
Local Open Scope list_scope.
Local Open Scope Z_scope.

Lemma retry_delay_range h attempt : 1 <= retry_delay h attempt <= 60.
Proof.
  assert (B : 1 <= Z.min (2 ^ Z.of_nat attempt) 30 <= 60).
  { pose proof (Z.pow_pos_nonneg 2 (Z.of_nat attempt)) as P. lia. }
  unfold retry_delay. destruct h as [s|]; [|exact B].
  destruct (int_of_string s); [apply clamp_range | exact B].
Qed.

(** One turn of the loop on an outcome that is not transient. *)
Lemma loop_settle fuel r attempt w :
  transient (server w (List.length (sent w)) r) = false ->
  do_request_loop (S fuel) r attempt w =
  (settle (server w (List.length (sent w)) r), after_send r w).
Proof.
  intros T. destruct (server w (List.length (sent w)) r) as [resp| |e] eqn:E;
    simpl in T.
  - rewrite (loop_final _ _ _ _ _ E T). unfold settle.
    destruct (_ && _); reflexivity.
  - discriminate.
  - apply loop_failed. exact E.
Qed.

Lemma after_retry_delays r attempt w k :
  delays_slept (after_retry r
                  (retry_delay (outcome_header (server w (List.length (sent w)) r))
                     (S attempt)) w) r (S attempt) k
  ++ retry_delay (outcome_header (server w (List.length (sent w)) r)) (S attempt)
     :: slept w
  = delays_slept w r attempt (S k) ++ slept w.
Proof.
  unfold after_retry, delays_slept.
  cbn [server clock sent slept printed List.length].
  cbn [seq map rev]. rewrite <- seq_shift, map_map, <- app_assoc.
  cbn [app]. rewrite !Nat.add_0_r. f_equal. f_equal.
  apply map_ext. intros i.
  rewrite Nat.add_succ_comm.
  replace (S attempt + i)%nat with (attempt + S i)%nat by lia.
  reflexivity.
Qed.

(** [k] transient outcomes, then one that is not: the loop sends the
    request [k + 1] times and settles on the last outcome. *)
Lemma loop_decisive k :
  forall fuel r attempt w,
    (attempt + k <= 6)%nat ->
    (forall i, (i < k)%nat ->
               transient (server w (List.length (sent w) + i) r) = true) ->
    transient (server w (List.length (sent w) + k) r) = false ->
    do_request_loop (S k + fuel) r attempt w =
    (settle (server w (List.length (sent w) + k) r),
     {| server := server w; clock := clock w;
        sent := repeat r (S k) ++ sent w;
        slept := delays_slept w r attempt k ++ slept w;
        printed := printed w |}).
Proof.
  induction k as [|k IH]; intros fuel r attempt w Ha H F.
  - rewrite Nat.add_0_r in *. cbn [Nat.add].
    rewrite loop_settle by exact F. reflexivity.
  - pose proof (H 0%nat (Nat.lt_0_succ _)) as T. rewrite Nat.add_0_r in T.
    cbn [Nat.add]. rewrite loop_transient by exact T.
    replace (6 <? S attempt)%nat with false by (symmetry; apply Nat.ltb_ge; lia).
    change (S (k + fuel)) with (S k + fuel)%nat.
    rewrite IH.
    + f_equal.
      * unfold after_retry. cbn [server sent List.length].
        rewrite Nat.add_succ_comm. reflexivity.
      * rewrite after_retry_delays.
        unfold after_retry. cbn [server clock sent slept printed].
        f_equal.
        change (r :: sent w) with ([r] ++ sent w). rewrite app_assoc.
        f_equal. rewrite <- repeat_cons. reflexivity.
    + lia.
    + intros i Hi. unfold after_retry. cbn [server sent List.length].
      rewrite Nat.add_succ_comm. apply H. lia.
    + unfold after_retry. cbn [server sent List.length].
      rewrite Nat.add_succ_comm. exact F.
Qed.

(** X5. The first outcome that is neither a read timeout nor a retryable
    status decides the call: after [k <= 6] such transient outcomes,
    [do_request] has sent the request [k + 1] times, slept once before
    each retry, and returns the response, or raises the HTTP-status
    error of a 4xx/5xx response or the exception of the transport,
    without further retry. *)
Theorem do_request_first_decisive_outcome (method url token : string)
    (json : option pyobj) (w : world) (k : nat) :
  let r := {| req_method := method; req_url := url; req_token := token;
              req_json := json |} in
  let n0 := List.length (sent w) in
  (k <= 6)%nat ->
  (forall i, (i < k)%nat -> transient (server w (n0 + i)%nat r) = true) ->
  transient (server w (n0 + k)%nat r) = false ->
  do_request method url token json w =
    (settle (server w (n0 + k)%nat r),
     {| server := server w; clock := clock w;
        sent := repeat r (S k) ++ sent w;
        slept := delays_slept w r 0 k ++ slept w;
        printed := printed w |}) /\
  List.length (delays_slept w r 0 k) = k.
Proof.
  intros r n0 Hk H F. split.
  - unfold do_request. fold r.
    replace 7%nat with (S k + (6 - k))%nat by lia.
    apply loop_decisive; [lia | exact H | exact F].
  - unfold delays_slept. rewrite length_rev, length_map, length_seq.
    reflexivity.
Qed.

Lemma do_request_first_decisive_outcome_witness :
  let ok := {| status_code := 200; retry_after := None; body := None |} in
  let w := scripted [TimedOut; status_response 503; Responded ok] in
  exists w',
    do_request "GET" "https://management.azure.com/x" "t" None w = (Ok ok, w')
    /\ List.length (sent w') = 3%nat /\ slept w' = [4; 2].
Proof.
  intros ok w.
  destruct (do_request_first_decisive_outcome
              "GET" "https://management.azure.com/x" "t" None w 2) as [E _].
  - lia.
  - intros i Hi.
    destruct i as [|[|i]]; [reflexivity | reflexivity | lia].
  - reflexivity.
  - eexists. split; [exact E|]. split; reflexivity.
Defined.

Lemma total_slept_bound ds :
  Forall (fun d => 1 <= d <= 60) ds ->
  total_slept ds <= 60 * Z.of_nat (List.length ds).
Proof.
  induction 1 as [|d ds D _ IH]; [simpl; lia|].
  cbn [total_slept fold_right List.length]. fold (total_slept ds). lia.
Qed.

(** What any run of the loop costs. *)
Lemma loop_effort n :
  forall r attempt w,
    (attempt + S n = 7)%nat ->
    exists m ds,
      (1 <= m <= S n)%nat /\ List.length ds = (m - 1)%nat /\
      Forall (fun d => 1 <= d <= 60) ds /\
      snd (do_request_loop (S n) r attempt w) =
      {| server := server w; clock := clock w;
         sent := repeat r m ++ sent w;
         slept := ds ++ slept w;
         printed := printed w |}.
Proof.
  induction n as [|n IH]; intros r attempt w Ha.
  - exists 1%nat, []. split; [lia|]. split; [reflexivity|].
    split; [constructor|].
    destruct (transient (server w (List.length (sent w)) r)) eqn:T.
    + rewrite loop_transient by exact T.
      replace (6 <? S attempt)%nat with true
        by (symmetry; apply Nat.ltb_lt; lia).
      reflexivity.
    + rewrite loop_settle by exact T. reflexivity.
  - destruct (transient (server w (List.length (sent w)) r)) eqn:T.
    + rewrite loop_transient by exact T.
      replace (6 <? S attempt)%nat with false
        by (symmetry; apply Nat.ltb_ge; lia).
      set (d := retry_delay _ _).
      destruct (IH r (S attempt) (after_retry r d w) ltac:(lia))
        as (m & ds & Hm & Hl & Hd & E).
      exists (S m), (ds ++ [d]). split; [lia|]. split.
      { rewrite length_app, Hl. simpl. lia. }
      split.
      { apply Forall_app. split; [exact Hd|].
        constructor; [apply retry_delay_range | constructor]. }
      rewrite E. unfold after_retry. cbn [server clock sent slept printed].
      f_equal.
      * change (r :: sent w) with ([r] ++ sent w). rewrite app_assoc.
        f_equal. rewrite <- repeat_cons. reflexivity.
      * rewrite <- app_assoc. reflexivity.
    + exists 1%nat, []. split; [lia|]. split; [reflexivity|].
      split; [constructor|].
      rewrite loop_settle by exact T. reflexivity.
Qed.

(** X6. Whatever the remote side does, one call of [do_request] sends the
    same request between 1 and 7 times, sleeps once between two
    consecutive attempts and never after the last, each time between 1
    and 60 seconds (at most 360 seconds in all), and prints nothing. *)
Theorem do_request_effort_bounds (method url token : string)
    (json : option pyobj) (w : world) :
  let r := {| req_method := method; req_url := url; req_token := token;
              req_json := json |} in
  exists n ds,
    (1 <= n <= 7)%nat /\ List.length ds = (n - 1)%nat /\
    Forall (fun d => 1 <= d <= 60) ds /\
    total_slept ds <= 360 /\
    snd (do_request method url token json w) =
    {| server := server w; clock := clock w;
       sent := repeat r n ++ sent w;
       slept := ds ++ slept w;
       printed := printed w |}.
Proof.
  intros r. unfold do_request. fold r.
  destruct (loop_effort 6 r 0 w eq_refl) as (m & ds & Hm & Hl & Hd & E).
  exists m, ds. repeat split; try assumption; try lia.
  pose proof (total_slept_bound ds Hd). lia.
Qed.

End RetryBounds.


(** * Reading cost and forecast responses *)

(** Inverting a chain of [res_bind]s that ends in [Ok]. *)
Ltac res_inv H :=
  repeat (let a := fresh "v" in
          let E := fresh "E" in
          apply res_bind_ok in H; destruct H as (a & E & H)).

Section CostRowFacts.

Local Open Scope string_scope.
Local Open Scope list_scope.

Lemma add_cell_value val row n :
  add_cell val row n =
  match cell_value row n with
  | Ok x => Ok (Float.add val x)
  | Raise ValueError => Ok val
  | Raise TypeError => Ok val
  | Raise e => Raise e
  | Diverge => Diverge
  | Unmodelled => Unmodelled
  end.
Proof. reflexivity. Qed.

Lemma sum_cells_app pre :
  forall val post n,
    sum_cells val (pre ++ post) n =
    res_bind (sum_cells val pre n) (fun v => sum_cells v post n).
Proof.
  induction pre as [|row pre IH]; intros val post n; [reflexivity|].
  cbn [app sum_cells]. destruct (add_cell val row n); try reflexivity.
  apply IH.
Qed.

Lemma sum_cells_skip val pre row post n :
  cell_value row n = Raise ValueError \/ cell_value row n = Raise TypeError ->
  sum_cells val (pre ++ row :: post) n = sum_cells val (pre ++ post) n.
Proof.
  intros H. rewrite !sum_cells_app.
  destruct (sum_cells val pre n) as [v| | |]; try reflexivity.
  cbn [res_bind sum_cells]. rewrite add_cell_value.
  destruct H as [-> | ->]; reflexivity.
Qed.

Lemma sum_cells_fatal val pre row post n v e :
  sum_cells val pre n = Ok v ->
  cell_value row n = Raise e -> e <> ValueError -> e <> TypeError ->
  sum_cells val (pre ++ row :: post) n = Raise e.
Proof.
  intros P C N1 N2. rewrite sum_cells_app, P.
  cbn [res_bind sum_cells]. rewrite add_cell_value, C.
  destruct e; try reflexivity; congruence.
Qed.

Lemma month_total_rows j rows :
  properties_get j "rows" = Ok (VList rows) ->
  month_total j =
  res_bind (sum_cells 0%Q rows 0) (fun val => Ok (Float.round val 2)).
Proof. intros H. unfold month_total. rewrite H. reflexivity. Qed.

(** X7. In a month's response, a row whose first cell cannot be read as a
    number (the row is null or a number, the cell is a non-numeric
    string, ...: [ValueError] or [TypeError]) is skipped, and the total
    is that of the other rows.  A row without a first cell (an empty row,
    [IndexError]; a JSON object, [KeyError]) is not skipped: once the
    rows before it are summed, the month's total raises. *)
Theorem month_total_row_policy (j : pyobj) (pre post : list pyobj)
    (row : pyobj) :
  properties_get j "rows" = Ok (VList (pre ++ row :: post)) ->
  (forall j',
     properties_get j' "rows" = Ok (VList (pre ++ post)) ->
     cell_value row 0 = Raise ValueError \/ cell_value row 0 = Raise TypeError ->
     month_total j = month_total j') /\
  (forall v e,
     sum_cells 0%Q pre 0 = Ok v ->
     cell_value row 0 = Raise e -> e <> ValueError -> e <> TypeError ->
     month_total j = Raise e) /\
  (row = VNone -> cell_value row 0 = Raise TypeError) /\
  (forall s l, row = VList (VStr s :: l) -> s <> "" ->
               float_of_string s = Raise ValueError ->
               cell_value row 0 = Raise ValueError) /\
  (row = VList [] -> cell_value row 0 = Raise IndexError) /\
  (forall d, row = VDict d -> cell_value row 0 = Raise KeyError).
Proof.
  intros H. repeat split.
  - intros j' H' S.
    rewrite (month_total_rows _ _ H), (month_total_rows _ _ H').
    rewrite (sum_cells_skip _ _ _ _ _ S). reflexivity.
  - intros v e P C N1 N2. rewrite (month_total_rows _ _ H).
    rewrite (sum_cells_fatal _ _ _ _ _ _ _ P C N1 N2). reflexivity.
  - intros ->. reflexivity.
  - intros s l -> N V. unfold cell_value. cbn [py_index nth_error res_bind].
    unfold py_or. cbn [truthy].
    destruct (String.eqb s "") eqn:E; [apply String.eqb_eq in E; contradiction|].
    cbn [negb py_float]. exact V.
  - intros ->. reflexivity.
  - intros d ->. reflexivity.
Qed.

Lemma month_total_row_policy_witness :
  let payload rows := VDict [("properties", VDict [("rows", VList rows)])] in
  month_total (payload [VList [VInt 5]; VList [VStr "n/a"]; VNone;
                        VList [VFloat 7%Q]])
  = month_total (payload [VList [VInt 5]; VList [VFloat 7%Q]]) /\
  month_total (payload [VList [VInt 5]; VList []; VList [VFloat 7%Q]])
  = Raise IndexError.
Proof.
  intros payload. split.
  - transitivity (month_total (payload [VList [VInt 5]; VNone;
                                        VList [VFloat 7%Q]])).
    + destruct (month_total_row_policy
                  (payload [VList [VInt 5]; VList [VStr "n/a"]; VNone;
                            VList [VFloat 7%Q]])
                  [VList [VInt 5]] [VNone; VList [VFloat 7%Q]]
                  (VList [VStr "n/a"]) eq_refl) as (S & _).
      apply S; [reflexivity | left; reflexivity].
    + destruct (month_total_row_policy
                  (payload [VList [VInt 5]; VNone; VList [VFloat 7%Q]])
                  [VList [VInt 5]] [VList [VFloat 7%Q]] VNone eq_refl)
        as (S & _).
      apply S; [reflexivity | right; reflexivity].
  - destruct (month_total_row_policy
                (payload [VList [VInt 5]; VList []; VList [VFloat 7%Q]])
                [VList [VInt 5]] [VList [VFloat 7%Q]] (VList []) eq_refl)
      as (_ & F & _).
    apply (F (Float.add 0%Q (Float.of_Z 5))); [reflexivity | reflexivity | |];
      discriminate.
Defined.

End CostRowFacts.

Section ForecastFacts.

Local Open Scope string_scope.
Local Open Scope list_scope.

Lemma sum_forecast_rows_filter idx_cost idx_is_fc rows :
  forall total,
    Forall (fun r => exists l flag,
                       r = VList l /\ nth_error l idx_is_fc = Some flag) rows ->
    sum_forecast_rows total rows idx_cost idx_is_fc =
    sum_cells total (filter (flagged idx_is_fc) rows) idx_cost.
Proof.
  induction rows as [|r rows IH]; intros total H; [reflexivity|].
  inversion H as [|? ? (l & flag & -> & N) H']; subst.
  cbn [sum_forecast_rows filter]. unfold add_forecast_row, flagged.
  cbn [py_index]. rewrite N.
  destruct (is_forecast_flag flag).
  - cbn [sum_cells]. destruct (add_cell total (VList l) idx_cost);
      try reflexivity.
    apply IH. exact H'.
  - cbn [res_bind]. apply IH. exact H'.
Qed.

(** X8. When the forecast response names both a [Cost] and an
    [IsForecast] column and every row reaches the latter, only the rows
    flagged as forecast ([true], [1] or [yes], in any case) are added up:
    the total is the sum of the [Cost] cells of those rows, rounded to 2
    places, and the month-to-date actuals are left out. *)
Theorem forecast_counts_only_forecast_rows (j : pyobj)
    (columns cols rows : list pyobj) (idx_cost idx_is_fc : nat) :
  properties_get j "columns" = Ok (VList columns) ->
  column_names columns = Ok cols ->
  index_of cols "Cost" = Some idx_cost ->
  index_of cols "IsForecast" = Some idx_is_fc ->
  properties_get j "rows" = Ok (VList rows) ->
  Forall (fun r => exists l flag,
                     r = VList l /\ nth_error l idx_is_fc = Some flag) rows ->
  forecast_total_of j =
  res_bind (sum_cells 0%Q (filter (flagged idx_is_fc) rows) idx_cost)
           (fun total => Ok (Float.round total 2)).
Proof.
  intros Hc Hn Ic If Hr Hrows. unfold forecast_total_of.
  rewrite Hc. cbn [res_bind py_iter]. rewrite Hn. cbn [res_bind].
  rewrite Hr. cbn [res_bind]. rewrite Ic, If. cbn [py_iter res_bind].
  rewrite sum_forecast_rows_filter by exact Hrows. reflexivity.
Qed.

Lemma forecast_counts_only_forecast_rows_witness :
  forecast_total_of
    (VDict [("properties",
             VDict [("columns", VList [VDict [("name", VStr "Cost")];
                                       VDict [("name", VStr "IsForecast")]]);
                    ("rows", VList [VList [VInt 40; VStr "False"];
                                    VList [VInt 25; VStr "True"];
                                    VList [VInt 35; VBool true]])])])
  = Ok (Float.of_Z 60).
Proof.
  rewrite (forecast_counts_only_forecast_rows _
             [VDict [("name", VStr "Cost")]; VDict [("name", VStr "IsForecast")]]
             [VStr "Cost"; VStr "IsForecast"]
             [VList [VInt 40; VStr "False"]; VList [VInt 25; VStr "True"];
              VList [VInt 35; VBool true]] 0 1);
    try reflexivity.
  repeat constructor; eexists; eexists; split; reflexivity.
Defined.

(** X9. When the forecast response lacks a [Cost] or an [IsForecast]
    column, the forecast total is computed exactly like a month's total:
    the first cells of all rows, flagged or not, rounded to 2 places. *)
Theorem forecast_without_columns_is_month_total (j : pyobj)
    (columns cols : list pyobj) :
  properties_get j "columns" = Ok (VList columns) ->
  column_names columns = Ok cols ->
  index_of cols "Cost" = None \/ index_of cols "IsForecast" = None ->
  forecast_total_of j = month_total j.
Proof.
  intros Hc Hn I. unfold forecast_total_of, month_total.
  rewrite Hc. cbn [res_bind py_iter]. rewrite Hn. cbn [res_bind].
  destruct (properties_get j "rows") as [rows| | |]; try reflexivity.
  cbn [res_bind].
  destruct I as [-> | ->]; [|destruct (index_of cols "Cost")]; reflexivity.
Qed.

Lemma forecast_without_columns_is_month_total_witness :
  let j := VDict [("properties",
                   VDict [("columns", VList [VDict [("name", VStr "Cost")]]);
                          ("rows", VList [VList [VInt 40]; VList [VInt 25]])])] in
  forecast_total_of j = month_total j /\ month_total j = Ok (Float.of_Z 65).
Proof.
  intros j. split.
  - apply (forecast_without_columns_is_month_total j
             [VDict [("name", VStr "Cost")]] [VStr "Cost"]);
      [reflexivity | reflexivity | right; reflexivity].
  - vm_compute. reflexivity.
Defined.

End ForecastFacts.

Section SeriesShape.

Local Open Scope string_scope.
Local Open Scope list_scope.

Lemma month_windows_length k :
  forall cursor out l,
    month_windows k cursor out = Ok l ->
    List.length l = (List.length out + k)%nat.
Proof.
  induction k as [|k IH]; intros cursor out l H.
  - injection H as <-. lia.
  - cbn [month_windows] in H. res_inv H.
    apply IH in H. rewrite length_app in H. simpl in H. lia.
Qed.

Lemma cost_query_length scope months token w costs w' :
  cost_query_last_months_scope scope months token w = (Ok costs, w') ->
  List.length costs = Z.to_nat months.
Proof.
  intros H. unfold cost_query_last_months_scope in H.
  apply bind_ok in H. destruct H as (today & w1 & _ & H).
  apply bind_ok in H. destruct H as (periods & w2 & P & H).
  apply lift_ok in P. destruct P as (P & _).
  apply month_costs_length in H. cbn [List.length Nat.add] in H.
  unfold first_last_day_of_last_n_months in P. res_inv P.
  apply month_windows_length in P. cbn [List.length Nat.add] in P.
  congruence.
Qed.

Lemma present_map_Some l : present (map Some l) = l.
Proof. induction l as [|x l IH]; [reflexivity|]. simpl. rewrite IH. reflexivity. Qed.

Lemma prev_two_months_Some costs :
  prev_two_months (map Some costs) = firstn 2 (skipn 1 costs).
Proof.
  unfold prev_two_months. rewrite skipn_map, firstn_map.
  apply present_map_Some.
Qed.

Lemma prev_two_months_length series :
  (List.length (prev_two_months series) <= 2)%nat.
Proof.
  unfold prev_two_months.
  destruct series as [|a [|b [|c l]]]; try (simpl; lia).
  - cbn [skipn firstn]. destruct b; simpl; lia.
  - cbn [skipn firstn]. destruct b, c; simpl; lia.
Qed.

Lemma none_months_derived months :
  last_month (none_months months) = None /\
  prev_two_months (none_months months) = [].
Proof.
  unfold none_months.
  destruct (Z.to_nat months) as [|[|[|n]]]; split; reflexivity.
Qed.

(** X10. The monthly series a scope is assessed with always has one
    entry per requested month.  When the cost query returns, the last
    month's cost is its first entry and the previous two months are its
    second and third entries, as far as they exist; when the query
    raises, a warning is printed, there is no last month's cost and no
    previous month.  Either way at most two previous months are used. *)
Theorem monthly_series_shape (warning scope : string) (months : Z)
    (token : string) (w : world) (series : list (option Float.float))
    (w' : world) :
  monthly_or_none warning scope months token w = (Ok series, w') ->
  List.length series = Z.to_nat months /\
  ((exists costs,
      cost_query_last_months_scope scope months token w = (Ok costs, w') /\
      series = map Some costs /\
      last_month series = hd_error costs /\
      prev_two_months series = firstn 2 (skipn 1 costs)) \/
   (exists e w1,
      cost_query_last_months_scope scope months token w = (Raise e, w1) /\
      w' = after_print warning w1 /\
      Forall (eq None) series /\
      last_month series = None /\
      prev_two_months series = [])) /\
  (List.length (prev_two_months series) <= 2)%nat.
Proof.
  intros H.
  assert (D : (exists costs,
      cost_query_last_months_scope scope months token w = (Ok costs, w') /\
      series = map Some costs) \/
   (exists e w1,
      cost_query_last_months_scope scope months token w = (Raise e, w1) /\
      w' = after_print warning w1 /\ series = none_months months)).
  { unfold monthly_or_none in H. apply try_except_ok in H.
    destruct H as [H|(e & w1 & H & K)].
    - left. apply bind_ok in H. destruct H as (costs & w1 & C & R).
      apply ret_ok in R. destruct R as (-> & ->). eauto.
    - right. exists e, w1. unfold bind, ret in H.
      destruct (cost_query_last_months_scope scope months token w)
        as [[costs|e'| |] w2] eqn:C; try discriminate.
      injection H as -> ->.
      apply bind_ok in K. destruct K as ([] & w3 & P & R).
      apply ret_ok in R. destruct R as (-> & ->).
      unfold print in P. injection P as <-. auto. }
  split; [|split].
  - destruct D as [(costs & C & ->)|(e & w1 & _ & _ & ->)].
    + rewrite length_map. eapply cost_query_length. exact C.
    + apply none_months_all_none.
  - destruct D as [(costs & C & ->)|(e & w1 & C & -> & ->)].
    + left. exists costs. split; [exact C|]. split; [reflexivity|]. split.
      * destruct costs; reflexivity.
      * apply prev_two_months_Some.
    + right. exists e, w1. split; [exact C|]. split; [reflexivity|].
      split; [apply none_months_all_none|]. apply none_months_derived.
  - apply prev_two_months_length.
Qed.

Lemma monthly_series_shape_witness :
  let w := scripted [cost_page 30%Q; cost_page 20%Q; cost_page 10%Q;
                     cost_page 5%Q] in
  exists series w',
    monthly_or_none "warning" "/subscriptions/s1" 4 "t" w = (Ok series, w') /\
    List.length series = 4%nat /\
    last_month series = Some 30%Q /\
    prev_two_months series = [20%Q; 10%Q].
Proof.
  intros w.
  destruct (monthly_or_none "warning" "/subscriptions/s1" 4 "t" w)
    as [r w'] eqn:E.
  assert (R : r = Ok [Some 30%Q; Some 20%Q; Some 10%Q; Some 5%Q]).
  { change r with (fst (r, w')). rewrite <- E. vm_compute. reflexivity. }
  subst r.
  destruct (monthly_series_shape _ _ _ _ _ _ _ E) as (L & _ & _).
  eexists. exists w'. split; [reflexivity|]. split; [exact L|].
  split; reflexivity.
Defined.

(** X11. Asked for no month at all ([--months] zero or negative), the
    cost query sends no request and returns the empty series, so the
    scope is assessed without a last month's cost and without previous
    months.  (The date arithmetic before the loop still runs, which needs
    a month before the current one.) *)
Theorem no_months_no_cost_query (warning scope : string) (months : Z)
    (token : string) (w : world) :
  (months <= 0)%Z ->
  valid_date (clock w) = true ->
  (MINYEAR < year (clock w) \/ 1 < month (clock w))%Z ->
  cost_query_last_months_scope scope months token w = (Ok [], w) /\
  monthly_or_none warning scope months token w = (Ok [], w) /\
  last_month [] = None /\ prev_two_months [] = [].
Proof.
  intros M V P.
  assert (C : cost_query_last_months_scope scope months token w = (Ok [], w)).
  { unfold cost_query_last_months_scope, bind, get_today, lift.
    unfold first_last_day_of_last_n_months.
    apply valid_date_spec in V. destruct V as (Vy & Vm & Vd).
    pose proof (days_in_month_range (year (clock w)) (month (clock w))) as R.
    unfold replace_day. rewrite make_date_valid by (try assumption; lia).
    cbn [res_bind].
    change {| year := year (clock w); month := month (clock w); day := 1 |}
      with (first_of (year (clock w), month (clock w))).
    rewrite add_months_prev;
      [| assumption | lia | unfold month_index, MINYEAR in *; cbn [fst snd]; lia].
    cbn [res_bind]. replace (Z.to_nat months) with 0%nat by lia.
    reflexivity. }
  split; [exact C|]. split; [|split; reflexivity].
  unfold monthly_or_none, try_except, bind. rewrite C. reflexivity.
Qed.

Lemma no_months_no_cost_query_witness :
  let w := scripted [] in
  monthly_or_none "warning" "/subscriptions/s1" 0 "t" w = (Ok [], w) /\
  sent w = [].
Proof.
  intros w.
  destruct (no_months_no_cost_query "warning" "/subscriptions/s1" 0 "t" w)
    as (_ & E & _).
  - lia.
  - reflexivity.
  - left. reflexivity.
  - split; [exact E | reflexivity].
Defined.

End SeriesShape.


(** * The flattened notification conditions *)

Section StringOrder.

Local Open Scope string_scope.

Lemma ascii_compare_refl c : Ascii.compare c c = Eq.
Proof. unfold Ascii.compare. apply N.compare_refl. Qed.

Lemma ascii_lt_trans a b c :
  Ascii.compare a b = Lt -> Ascii.compare b c = Lt -> Ascii.compare a c = Lt.
Proof.
  unfold Ascii.compare. rewrite !N.compare_lt_iff. apply N.lt_trans.
Qed.

Lemma string_compare_refl s : String.compare s s = Eq.
Proof.
  induction s as [|c s IH]; [reflexivity|].
  simpl. rewrite ascii_compare_refl. exact IH.
Qed.

Lemma string_lt_trans s1 :
  forall s2 s3,
    String.compare s1 s2 = Lt -> String.compare s2 s3 = Lt ->
    String.compare s1 s3 = Lt.
Proof.
  induction s1 as [|c1 s1 IH]; intros [|c2 s2] [|c3 s3]; simpl;
    try discriminate; try reflexivity.
  destruct (Ascii.compare c1 c2) eqn:A; try discriminate;
    destruct (Ascii.compare c2 c3) eqn:B; try discriminate; intros H1 H2.
  - apply Ascii.compare_eq_iff in A, B. subst.
    rewrite ascii_compare_refl. eapply IH; eassumption.
  - apply Ascii.compare_eq_iff in A. subst. rewrite B. reflexivity.
  - apply Ascii.compare_eq_iff in B. subst. rewrite A. reflexivity.
  - rewrite (ascii_lt_trans _ _ _ A B). reflexivity.
Qed.

Lemma string_ltb_trans s1 s2 s3 :
  String.ltb s1 s2 = true -> String.ltb s2 s3 = true -> String.ltb s1 s3 = true.
Proof.
  unfold String.ltb. intros H1 H2.
  destruct (String.compare s1 s2) eqn:A; try discriminate.
  destruct (String.compare s2 s3) eqn:B; try discriminate.
  rewrite (string_lt_trans _ _ _ A B). reflexivity.
Qed.

Lemma string_ltb_irrefl s : String.ltb s s = false.
Proof. unfold String.ltb. rewrite string_compare_refl. reflexivity. Qed.

End StringOrder.

Section KeyOrder.

Local Open Scope string_scope.
Local Open Scope list_scope.

(** [key_lt] by kinds: keys of one kind are ordered by the threshold
    type, then by the threshold; keys of two kinds do not compare. *)
Lemma key_lt_kind t1 p1 t2 p2 :
  key_lt (t1, p1) (t2, p2) =
  match kind_of t1, kind_of t2 with
  | Some NoneKey, Some NoneKey => Ok (Float.ltb p1 p2)
  | Some (StrKey s1), Some (StrKey s2) =>
      Ok (if String.eqb s1 s2 then Float.ltb p1 p2 else String.ltb s1 s2)
  | Some (NumKey x1), Some (NumKey x2) =>
      Ok (if Qeq_bool x1 x2 then Float.ltb p1 p2 else Float.ltb x1 x2)
  | None, _ | _, None => Unmodelled
  | _, _ => Raise TypeError
  end.
Proof.
  unfold key_lt. cbn [fst snd].
  destruct t1 as [|b1| | | | |], t2 as [|b2| | | | |];
    try destruct b1; try destruct b2; try reflexivity;
    unfold py_eq, py_lt; cbn [is_container orb number_value res_bind kind_of];
    try reflexivity;
    match goal with
    | |- context [Qeq_bool ?x ?y] => destruct (Qeq_bool x y); reflexivity
    | |- context [String.eqb ?x ?y] => destruct (String.eqb x y); reflexivity
    end.
Qed.

Lemma ltb_lt x y : Float.ltb x y = true <-> (x < y)%Q.
Proof.
  unfold Float.ltb. destruct (Qle_bool y x) eqn:E; simpl.
  - apply Qle_bool_iff in E. split; [discriminate | intros; lra].
  - split; [intros _|reflexivity].
    apply Qnot_le_lt. intros C. apply Qle_bool_iff in C. congruence.
Qed.

Lemma ltb_ge x y : Float.ltb x y = false <-> (y <= x)%Q.
Proof.
  unfold Float.ltb. destruct (Qle_bool y x) eqn:E; simpl.
  - apply Qle_bool_iff in E. split; [intros _; exact E | reflexivity].
  - split; [discriminate|]. intros C. apply Qle_bool_iff in C. congruence.
Qed.

Ltac order_props :=
  repeat match goal with
         | H : Ok _ = Ok _ |- _ => injection H as H
         | H : Float.ltb _ _ = true |- _ => apply ltb_lt in H
         | H : Float.ltb _ _ = false |- _ => apply ltb_ge in H
         | H : Qeq_bool _ _ = true |- _ => apply Qeq_bool_iff in H
         | H : Qeq_bool _ _ = false |- _ => apply Qeq_bool_neq in H
         | H : String.eqb _ _ = true |- _ => apply String.eqb_eq in H; subst
         | H : String.eqb _ _ = false |- _ => apply String.eqb_neq in H
         end.

Lemma lex_num_trans x1 p1 x2 p2 x3 p3 :
  (if Qeq_bool x1 x2 then Float.ltb p1 p2 else Float.ltb x1 x2) = true ->
  (if Qeq_bool x2 x3 then Float.ltb p2 p3 else Float.ltb x2 x3) = true ->
  (if Qeq_bool x1 x3 then Float.ltb p1 p3 else Float.ltb x1 x3) = true.
Proof.
  destruct (Qeq_bool x1 x2) eqn:A, (Qeq_bool x2 x3) eqn:B,
           (Qeq_bool x1 x3) eqn:C; intros H1 H2; order_props;
    try apply ltb_lt; try lra;
    exfalso; apply C || apply A || apply B; lra.
Qed.

Lemma lex_str_trans s1 p1 s2 p2 s3 p3 :
  (if String.eqb s1 s2 then Float.ltb p1 p2 else String.ltb s1 s2) = true ->
  (if String.eqb s2 s3 then Float.ltb p2 p3 else String.ltb s2 s3) = true ->
  (if String.eqb s1 s3 then Float.ltb p1 p3 else String.ltb s1 s3) = true.
Proof.
  destruct (String.eqb s1 s2) eqn:A, (String.eqb s2 s3) eqn:B; intros H1 H2;
    order_props.
  - rewrite String.eqb_refl. apply ltb_lt. lra.
  - destruct (String.eqb s2 s3) eqn:C; [order_props; congruence | exact H2].
  - destruct (String.eqb s1 s3) eqn:C; [order_props; congruence | exact H1].
  - pose proof (string_ltb_trans _ _ _ H1 H2) as T.
    destruct (String.eqb s1 s3) eqn:C; [|exact T].
    order_props. rewrite string_ltb_irrefl in T. discriminate.
Qed.

Lemma key_lt_trans a b c :
  key_lt a b = Ok true -> key_lt b c = Ok true -> key_lt a c = Ok true.
Proof.
  destruct a as [ta pa], b as [tb pb], c as [tc pc].
  rewrite !key_lt_kind.
  destruct (kind_of ta) as [[|sa|xa]|], (kind_of tb) as [[|sb|xb]|],
           (kind_of tc) as [[|sc|xc]|]; try discriminate; intros H1 H2.
  - order_props. f_equal. apply ltb_lt. lra.
  - injection H1 as H1. injection H2 as H2. f_equal.
    eapply lex_str_trans; eassumption.
  - injection H1 as H1. injection H2 as H2. f_equal.
    eapply lex_num_trans; eassumption.
Qed.

(** Keys that both compare with a third one compare with each other. *)
Lemma key_lt_defined a b c x y :
  key_lt a b = Ok x -> key_lt c b = Ok y -> exists z, key_lt c a = Ok z.
Proof.
  destruct a as [ta pa], b as [tb pb], c as [tc pc].
  rewrite !key_lt_kind.
  destruct (kind_of ta) as [[|sa|xa]|], (kind_of tb) as [[|sb|xb]|],
           (kind_of tc) as [[|sc|xc]|]; try discriminate; eauto.
Qed.

Lemma key_lt_irrefl a b x : key_lt a b = Ok x -> key_lt b b = Ok false.
Proof.
  destruct a as [ta pa], b as [tb pb].
  rewrite !key_lt_kind.
  destruct (kind_of ta) as [[|sa|xa]|], (kind_of tb) as [[|sb|xb]|];
    try discriminate; intros _; f_equal.
  - apply ltb_ge. lra.
  - rewrite String.eqb_refl. apply ltb_ge. lra.
  - replace (Qeq_bool xb xb) with true
      by (symmetry; apply Qeq_bool_iff; reflexivity).
    apply ltb_ge. lra.
Qed.

(** Below, then not above: [a < b <= c] gives [a <= c]. *)
Lemma key_lt_le a b c :
  key_lt a b = Ok true -> key_lt c b = Ok false -> key_lt c a = Ok false.
Proof.
  intros H1 H2.
  destruct (key_lt_defined _ _ _ _ _ H1 H2) as ([|] & Z); [|exact Z].
  rewrite (key_lt_trans _ _ _ Z H1) in H2. discriminate.
Qed.

Lemma key_lt_asym a b : key_lt a b = Ok true -> key_lt b a = Ok false.
Proof.
  intros H. apply (key_lt_le a b b H). eapply key_lt_irrefl. exact H.
Qed.

End KeyOrder.

Section SortFacts.

Local Open Scope string_scope.
Local Open Scope list_scope.

Lemma insert_sorted_perm x l :
  forall l', insert_sorted x l = Ok l' -> Permutation (x :: l) l'.
Proof.
  induction l as [|y l IH]; intros l' H.
  - injection H as <-. apply Permutation_refl.
  - cbn [insert_sorted] in H. res_inv H. destruct v.
    + injection H as <-. apply Permutation_refl.
    + res_inv H. injection H as <-.
      eapply perm_trans; [apply perm_swap|].
      apply perm_skip. apply IH. assumption.
Qed.

Lemma sort_keyed_perm l :
  forall acc r, sort_keyed l acc = Ok r -> Permutation (l ++ acc) r.
Proof.
  induction l as [|x l IH]; intros acc r H.
  - injection H as <-. apply Permutation_refl.
  - cbn [sort_keyed] in H. res_inv H. apply IH in H.
    apply insert_sorted_perm in E.
    eapply perm_trans; [|exact H].
    cbn [app]. eapply perm_trans; [apply Permutation_middle|].
    apply Permutation_app_head. exact E.
Qed.

Lemma insert_sorted_sorted x l :
  forall l',
    StronglySorted key_le l -> insert_sorted x l = Ok l' ->
    StronglySorted key_le l'.
Proof.
  induction l as [|y l IH]; intros l' S H.
  - injection H as <-. repeat constructor.
  - cbn [insert_sorted] in H. res_inv H.
    apply StronglySorted_inv in S. destruct S as [S F].
    destruct v.
    + injection H as <-. constructor; [constructor; assumption|].
      constructor.
      * apply key_lt_asym. exact E.
      * eapply Forall_impl; [|exact F]. intros z Z.
        unfold key_le in *. eapply key_lt_le; eassumption.
    + res_inv H. injection H as <-. constructor.
      * eapply IH; eassumption.
      * eapply Permutation_Forall; [eapply insert_sorted_perm; eassumption|].
        constructor; [exact E | exact F].
Qed.

Lemma sort_keyed_sorted l :
  forall acc r,
    StronglySorted key_le acc -> sort_keyed l acc = Ok r ->
    StronglySorted key_le r.
Proof.
  induction l as [|x l IH]; intros acc r S H.
  - injection H as <-. exact S.
  - cbn [sort_keyed] in H. res_inv H.
    eapply IH; [|exact H]. eapply insert_sorted_sorted; eassumption.
Qed.

Lemma with_keys_inv l :
  forall keyed,
    with_keys l = Ok keyed ->
    map snd keyed = l /\
    Forall (fun x => sort_key (snd x) = Ok (fst x)) keyed.
Proof.
  induction l as [|r l IH]; intros keyed H.
  - injection H as <-. split; constructor.
  - cbn [with_keys] in H. res_inv H. injection H as <-.
    destruct (IH _ E0) as [M F]. split.
    + cbn [map snd]. rewrite M. reflexivity.
    + constructor; assumption.
Qed.

Lemma with_keys_of_keyed keyed :
  Forall (fun x => sort_key (snd x) = Ok (fst x)) keyed ->
  with_keys (map snd keyed) = Ok keyed.
Proof.
  induction 1 as [|[k r] keyed K _ IH]; [reflexivity|].
  cbn [map with_keys snd fst] in *. rewrite K. cbn [res_bind].
  rewrite IH. reflexivity.
Qed.

Lemma collect_conditions_length items :
  forall out,
    collect_conditions items = Ok out ->
    List.length out =
    List.length (filter (fun kv => is_dict (snd kv)) items).
Proof.
  induction items as [|[key cfg] items IH]; intros out H.
  - injection H as <-. reflexivity.
  - cbn [collect_conditions filter snd] in *.
    destruct cfg; cbn [is_dict]; try (apply IH; exact H).
    res_inv H. injection H as <-. cbn [List.length]. f_equal.
    apply IH. assumption.
Qed.

Lemma sort_conditions_inv out l :
  sort_conditions out = Ok l ->
  exists keyed,
    Permutation out l /\ with_keys l = Ok keyed /\
    StronglySorted key_le keyed.
Proof.
  intros H. unfold sort_conditions in H. res_inv H. injection H as <-.
  rename v into keyed0, v0 into sorted.
  destruct (with_keys_inv _ _ E) as [M F].
  pose proof (sort_keyed_perm _ _ _ E0) as P. rewrite app_nil_r in P.
  exists sorted. split; [|split].
  - rewrite <- M. apply Permutation_map. exact P.
  - apply with_keys_of_keyed. eapply Permutation_Forall; eassumption.
  - eapply sort_keyed_sorted; [|exact E0]. constructor.
Qed.

(** X12. When [flatten_notifications] returns, its result holds one
    condition for every entry of the mapping that is itself a mapping,
    and nothing else: it is a rearrangement of the conditions built in
    the order of the mapping, sorted so that no condition stands before
    one with a smaller (threshold type, threshold) key. *)
Theorem flatten_notifications_sorted (items : list (string * pyobj))
    (l : list pyobj) :
  flatten_notifications (VDict items) = Ok l ->
  exists out keyed,
    collect_conditions items = Ok out /\
    Permutation out l /\
    List.length l =
      List.length (filter (fun kv => is_dict (snd kv)) items) /\
    with_keys l = Ok keyed /\
    StronglySorted key_le keyed.
Proof.
  intros H. unfold flatten_notifications in H.
  destruct items as [|item items].
  - injection H as <-. exists [], []. repeat split; constructor.
  - cbn [truthy negb] in H.
    apply res_bind_ok in H. destruct H as (out & E & H).
    destruct (sort_conditions_inv _ _ H) as (keyed & P & K & S).
    exists out, keyed. split; [exact E|]. split; [exact P|].
    split; [|split; assumption].
    rewrite <- (Permutation_length P).
    apply collect_conditions_length. exact E.
Qed.

Lemma flatten_notifications_sorted_witness :
  let items :=
    [("n1", VDict [("threshold", VInt 90); ("thresholdType", VStr "Forecasted")]);
     ("note", VStr "not a condition");
     ("n2", VDict [("threshold", VInt 80); ("thresholdType", VStr "Actual")]);
     ("n3", VDict [("threshold", VFloat 50%Q);
                   ("thresholdType", VStr "Forecasted")])] in
  exists l,
    flatten_notifications (VDict items) = Ok l /\
    List.length l = 3%nat /\
    map (fun c => row_field c "ConditionKey") l =
      [Some (VStr "n2"); Some (VStr "n3"); Some (VStr "n1")].
Proof.
  intros items.
  destruct (flatten_notifications (VDict items)) as [l| | |] eqn:E;
    try (vm_compute in E; discriminate).
  destruct (flatten_notifications_sorted items l E) as (_ & _ & _ & _ & L & _).
  exists l. split; [reflexivity|]. split; [exact L|].
  vm_compute in E. injection E as <-. reflexivity.
Defined.

Lemma collect_conditions_In items :
  forall out key cfg,
    collect_conditions items = Ok out ->
    In (key, VDict cfg) items ->
    exists c, make_condition key (VDict cfg) = Ok c /\ In c out.
Proof.
  induction items as [|[k v] items IH]; intros out key cfg H I; [destruct I|].
  cbn [collect_conditions] in H. destruct I as [I|I].
  - injection I as -> ->. res_inv H. injection H as <-.
    eexists. split; [eassumption | left; reflexivity].
  - destruct v; try (eapply IH; eassumption).
    res_inv H. injection H as <-.
    destruct (IH _ _ _ E0 I) as (c & M & J).
    exists c. split; [exact M | right; exact J].
Qed.

Lemma make_condition_threshold key cfg thr c :
  dict_lookup cfg "threshold" = Some thr ->
  make_condition key (VDict cfg) = Ok c ->
  sort_key c =
  res_bind (py_float (py_or thr (VInt 0)))
           (fun p => Ok (match dict_lookup cfg "thresholdType" with
                         | Some t => t
                         | None => VStr ""
                         end, p)).
Proof.
  intros T H. unfold make_condition in H. cbn [py_get res_bind] in H.
  rewrite T in H. res_inv H. injection H as <-. reflexivity.
Qed.

(** X13. A notification whose threshold is truthy but cannot be read by
    [float] (a non-numeric string, a list, ...) is not tolerated: the
    sort key of its condition raises, so [flatten_notifications] returns
    no list and [emit_budget_rows] no rows for a budget that carries
    it. *)
Theorem unreadable_threshold_fails_the_budget
    (items : list (string * pyobj)) (key : string)
    (cfg : list (string * pyobj)) (thr : pyobj) (e : exn) :
  In (key, VDict cfg) items ->
  dict_lookup cfg "threshold" = Some thr ->
  py_float (py_or thr (VInt 0)) = Raise e ->
  (forall l, flatten_notifications (VDict items) <> Ok l) /\
  (forall bd pd rows_list scope_type scope_id sub_name sub_id last_val
          prev_two forecast_total resource_group rows',
     dict_lookup bd "properties" = Some (VDict pd) ->
     dict_lookup pd "notifications" = Some (VDict items) ->
     emit_budget_rows rows_list scope_type scope_id sub_name sub_id (VDict bd)
       last_val prev_two forecast_total resource_group <> Ok rows').
Proof.
  intros I T F.
  assert (N : forall l, flatten_notifications (VDict items) <> Ok l).
  { intros l H. unfold flatten_notifications in H.
    destruct items as [|item items]; [destruct I|].
    cbn [truthy negb] in H.
    apply res_bind_ok in H. destruct H as (out & E & H).
    destruct (collect_conditions_In _ _ _ _ E I) as (c & M & J).
    unfold sort_conditions in H.
    apply res_bind_ok in H. destruct H as (keyed & E0 & H).
    destruct (with_keys_inv _ _ E0) as [Ms Fs].
    rewrite <- Ms in J. apply in_map_iff in J. destruct J as (x & <- & J).
    rewrite Forall_forall in Fs. pose proof (Fs x J) as K.
    rewrite (make_condition_threshold _ _ _ _ T M), F in K. discriminate. }
  split; [exact N|].
  intros bd pd rows_list scope_type scope_id sub_name sub_id last_val prev_two
         forecast_total resource_group rows' P Q H.
  apply emit_budget_rows_inv in H. destruct H as (b & conds & new & S & _).
  apply budget_summary_conditions in S. destruct S as (flat & C & _).
  unfold budget_conditions in C. cbn [py_get res_bind] in C. rewrite P in C.
  assert (Tp : truthy (VDict pd) = true).
  { destruct pd; [discriminate | reflexivity]. }
  unfold py_or in C. rewrite Tp in C. cbn [py_get res_bind] in C.
  rewrite Q in C. exact (N flat C).
Qed.

Lemma unreadable_threshold_fails_the_budget_witness :
  flatten_notifications
    (VDict [("n1", VDict [("threshold", VStr "ninety");
                          ("thresholdType", VStr "Actual")])])
  = Raise ValueError.
Proof.
  destruct (unreadable_threshold_fails_the_budget
              [("n1", VDict [("threshold", VStr "ninety");
                             ("thresholdType", VStr "Actual")])] "n1"
              [("threshold", VStr "ninety"); ("thresholdType", VStr "Actual")]
              (VStr "ninety") ValueError) as [N _].
  - left. reflexivity.
  - reflexivity.
  - reflexivity.
  - destruct (flatten_notifications
                (VDict [("n1", VDict [("threshold", VStr "ninety");
                                      ("thresholdType", VStr "Actual")])]))
      as [l|e| |] eqn:E.
    + destruct (N l eq_refl).
    + vm_compute in E. injection E as <-. reflexivity.
    + vm_compute in E. discriminate.
    + vm_compute in E. discriminate.
Defined.

End SortFacts.


(** * Discovery *)

Section DictFacts.

Local Open Scope string_scope.
Local Open Scope list_scope.

Context {V : Type}.

Lemma dict_set_In (d : list (string * V)) k v : In (k, v) (dict_set d k v).
Proof.
  induction d as [|[k' v'] d IH]; [left; reflexivity|].
  cbn [dict_set]. destruct (String.eqb k' k); [left; reflexivity|].
  right. exact IH.
Qed.

Lemma dict_set_keys (d : list (string * V)) k v :
  map fst (dict_set d k v) =
  if dict_has d k then map fst d else map fst d ++ [k].
Proof.
  induction d as [|[k' v'] d IH]; [reflexivity|].
  cbn [dict_set dict_has existsb fst].
  destruct (String.eqb k' k) eqn:E.
  - apply String.eqb_eq in E. subst. reflexivity.
  - cbn [map fst orb]. rewrite IH. fold (dict_has d k).
    destruct (dict_has d k); reflexivity.
Qed.

Lemma dict_has_In (d : list (string * V)) k :
  dict_has d k = true <-> In k (map fst d).
Proof.
  unfold dict_has. rewrite existsb_exists, in_map_iff. split.
  - intros (kv & I & E). apply String.eqb_eq in E. eauto.
  - intros (kv & E & I). exists kv. split; [exact I|].
    apply String.eqb_eq. exact E.
Qed.

Lemma dict_set_NoDup (d : list (string * V)) k v :
  NoDup (map fst d) -> NoDup (map fst (dict_set d k v)).
Proof.
  intros N. rewrite dict_set_keys.
  destruct (dict_has d k) eqn:E; [exact N|].
  apply NoDup_app; [exact N | repeat constructor; intros [] |].
  intros x I [<-|[]]. apply dict_has_In in I. congruence.
Qed.

Lemma dict_set_Forall (P : string * V -> Prop) (d : list (string * V)) k v :
  Forall P d -> P (k, v) -> Forall P (dict_set d k v).
Proof.
  intros F Pk. induction F as [|[k' v'] d Pd F IH]; [repeat constructor; exact Pk|].
  cbn [dict_set]. destruct (String.eqb k' k); constructor; assumption.
Qed.

End DictFacts.

Section DiscoveryFacts.

Local Open Scope string_scope.
Local Open Scope list_scope.

Lemma name_of_nonempty v n : name_of v = Ok (Some n) -> n <> "".
Proof.
  unfold name_of. destruct (truthy v) eqn:T; [|discriminate].
  destruct v; try discriminate. intros H. injection H as <-.
  cbn [truthy] in T. intros ->. discriminate.
Qed.

Lemma classify_item_keyed item acc acc' :
  well_keyed acc -> classify_item item acc = Ok acc' -> well_keyed acc'.
Proof.
  intros (N1 & F1 & N2 & F2) H. destruct acc as [mgs subs].
  unfold classify_item in H. cbn [fst snd] in *.
  apply res_bind_ok in H. destruct H as (t & _ & H).
  apply res_bind_ok in H. destruct H as (lowered & _ & H).
  apply res_bind_ok in H. destruct H as (name & _ & H).
  apply res_bind_ok in H. destruct H as (props & _ & H).
  apply res_bind_ok in H. destruct H as (display_name & _ & H).
  destruct (endswith lowered "/subscriptions").
  - apply res_bind_ok in H. destruct H as ([n|] & Hn & H).
    + apply res_bind_ok in H. destruct H as (tenant & _ & H).
      injection H as <-. apply name_of_nonempty in Hn.
      repeat split; cbn [fst snd]; try assumption.
      * apply dict_set_NoDup. exact N2.
      * apply dict_set_Forall; [exact F2|]. cbn [fst snd subscriptionId].
        split; [reflexivity | exact Hn].
    + injection H as <-. repeat split; assumption.
  - destruct (endswith lowered "/managementgroups").
    + apply res_bind_ok in H. destruct H as ([n|] & Hn & H).
      * injection H as <-.
        repeat split; cbn [fst snd]; try assumption.
        -- apply dict_set_NoDup. exact N1.
        -- apply dict_set_Forall; [exact F1|]. reflexivity.
      * injection H as <-. repeat split; assumption.
    + injection H as <-. repeat split; assumption.
Qed.

Lemma classify_items_keyed items :
  forall acc acc',
    well_keyed acc -> classify_items items acc = Ok acc' -> well_keyed acc'.
Proof.
  induction items as [|item items IH]; intros acc acc' W H.
  - injection H as <-. exact W.
  - cbn [classify_items] in H.
    apply res_bind_ok in H. destruct H as (acc1 & E & H).
    eapply IH; [|exact H]. eapply classify_item_keyed; eassumption.
Qed.

Lemma descendants_pages_keyed fuel :
  forall url token acc w acc' w',
    well_keyed acc ->
    descendants_pages fuel url token acc w = (Ok acc', w') ->
    well_keyed acc'.
Proof.
  induction fuel as [|fuel IH]; intros url token acc w acc' w' W H;
    [discriminate|].
  cbn [descendants_pages] in H.
  apply bind_ok in H. destruct H as (resp & w1 & _ & H).
  apply bind_ok in H. destruct H as (payload & w2 & _ & H).
  apply bind_ok in H. destruct H as (items & w3 & _ & H).
  apply bind_ok in H. destruct H as (acc1 & w4 & C & H).
  apply lift_ok in C. destruct C as (C & _).
  apply bind_ok in H. destruct H as (next & w5 & _ & H).
  pose proof (classify_items_keyed _ _ _ W C) as W1.
  destruct next as [url'|].
  - eapply IH; eassumption.
  - apply ret_ok in H. destruct H as (-> & _). exact W1.
Qed.

Lemma keyed_ids {A} (id : A -> string) (d : list (string * A)) :
  Forall (fun kv => id (snd kv) = fst kv) d ->
  map id (map snd d) = map fst d.
Proof.
  induction 1 as [|kv d E _ IH]; [reflexivity|].
  cbn [map]. rewrite E, IH. reflexivity.
Qed.

(** X14. When the discovery returns, the root management group is among
    the management groups even if the remote side did not list it, no
    management group and no subscription is listed twice, however many
    times and on however many pages the remote side names it, and no
    subscription has an empty id. *)
Theorem discovery_lists_each_scope_once (fuel : nat) (mg_id token : string)
    (w : world) (mgs : list mgroup) (subs : list subscription) (w' : world) :
  list_mgs_and_subs_under_mg fuel mg_id token w = (Ok (mgs, subs), w') ->
  In mg_id (map managementGroupId mgs) /\
  NoDup (map managementGroupId mgs) /\
  NoDup (map subscriptionId subs) /\
  Forall (fun s => subscriptionId s <> "") subs.
Proof.
  intros H. unfold list_mgs_and_subs_under_mg in H.
  apply bind_ok in H. destruct H as ([mgs0 subs0] & w1 & D & H).
  apply ret_ok in H. destruct H as (H & _). injection H as -> ->.
  assert (W0 : well_keyed (@nil (string * mgroup), @nil (string * subscription))).
  { repeat split; constructor. }
  destruct (descendants_pages_keyed _ _ _ _ _ _ _ W0 D) as (N1 & F1 & N2 & F2).
  cbn [fst snd] in *.
  set (root := {| managementGroupId := mg_id; mg_displayName := VStr mg_id |}).
  assert (F1' : Forall (fun kv => managementGroupId (snd kv) = fst kv)
                  (if dict_has mgs0 mg_id then mgs0
                   else dict_set mgs0 mg_id root)).
  { destruct (dict_has mgs0 mg_id); [exact F1|].
    apply dict_set_Forall; [exact F1 | reflexivity]. }
  rewrite (keyed_ids managementGroupId _ F1').
  assert (F2' : Forall (fun kv => subscriptionId (snd kv) = fst kv) subs0).
  { eapply Forall_impl; [|exact F2]. intros kv [E _]. exact E. }
  rewrite (keyed_ids subscriptionId _ F2').
  split; [|split; [|split]].
  - destruct (dict_has mgs0 mg_id) eqn:E.
    + apply dict_has_In. exact E.
    + rewrite dict_set_keys, E. apply in_or_app. right. left. reflexivity.
  - destruct (dict_has mgs0 mg_id); [exact N1|].
    apply dict_set_NoDup. exact N1.
  - exact N2.
  - rewrite Forall_forall in F2. apply Forall_forall. intros s I.
    apply in_map_iff in I. destruct I as (kv & <- & I).
    destruct (F2 kv I) as [E N]. rewrite E. exact N.
Qed.

Lemma discovery_lists_each_scope_once_witness :
  let page :=
    ok_response
      (VDict [("value",
               VList [VDict [("type", VStr "/providers/Microsoft.Management/managementGroups/subscriptions");
                             ("name", VStr "s1")];
                      VDict [("type", VStr "Microsoft.Management/managementGroups");
                             ("name", VStr "child")];
                      VDict [("type", VStr "/providers/Microsoft.Management/managementGroups/subscriptions");
                             ("name", VStr "s1");
                             ("properties",
                              VDict [("displayName", VStr "Sub One")])]])]) in
  exists mgs subs w',
    list_mgs_and_subs_under_mg 5 "mg-demo" "t" (scripted [page])
      = (Ok (mgs, subs), w') /\
    map managementGroupId mgs = ["child"; "mg-demo"] /\
    map subscriptionId subs = ["s1"] /\
    NoDup (map subscriptionId subs).
Proof.
  intros page.
  destruct (list_mgs_and_subs_under_mg 5 "mg-demo" "t" (scripted [page]))
    as [[[mgs subs]| | |] w'] eqn:E; try (vm_compute in E; discriminate).
  destruct (discovery_lists_each_scope_once _ _ _ _ _ _ _ E) as (_ & _ & N & _).
  exists mgs, subs, w'. split; [reflexivity|].
  assert (R : fst (list_mgs_and_subs_under_mg 5 "mg-demo" "t" (scripted [page]))
              = Ok (mgs, subs)) by (rewrite E; reflexivity).
  vm_compute in R. injection R as <- <-.
  split; [reflexivity|]. split; [reflexivity|]. exact N.
Defined.

End DiscoveryFacts.

Section Paging.

Local Open Scope string_scope.
Local Open Scope list_scope.

(** A request that meets an answer it does not retry after. *)
Lemma do_request_settled method url token json w resp :
  let r := {| req_method := method; req_url := url; req_token := token;
              req_json := json |} in
  server w (List.length (sent w)) r = Responded resp ->
  transient (Responded resp) = false ->
  settle (Responded resp) = Ok resp ->
  do_request method url token json w = (Ok resp, after_send r w).
Proof.
  intros r E T S. unfold do_request. fold r.
  rewrite loop_settle by (rewrite E; exact T). rewrite E, S. reflexivity.
Qed.

Lemma resource_group_pages_endless w fuel :
  endless_pages reads_resource_groups w ->
  forall url token rgs w0,
    server w0 = server w ->
    fst (resource_group_pages fuel url token rgs w0) = Diverge /\
    List.length (sent (snd (resource_group_pages fuel url token rgs w0))) =
      (List.length (sent w0) + fuel)%nat.
Proof.
  intros H. induction fuel as [|fuel IH]; intros url token rgs w0 Sw.
  - cbn. split; [reflexivity | lia].
  - set (r := {| req_method := "GET"; req_url := url; req_token := token;
                 req_json := None |}).
    destruct (H (List.length (sent w0)) r)
      as (resp & j & items & next & E & T & St & B & Vl & R & N).
    rewrite <- Sw in E.
    destruct (R rgs) as (rgs' & Rn).
    assert (Step : resource_group_pages (S fuel) url token rgs w0 =
                   resource_group_pages fuel next token rgs' (after_send r w0)).
    { cbn [resource_group_pages].
      rewrite (bind_step _ _ _ _ _ (do_request_settled _ _ _ _ _ _ E T St)).
      fold r. unfold response_json. rewrite B.
      unfold bind, ret, lift. rewrite Vl. cbn [res_bind py_iter].
      rewrite Rn, N. reflexivity. }
    rewrite Step.
    destruct (IH next token rgs' (after_send r w0) Sw) as [D L].
    split; [exact D|]. rewrite L. cbn [after_send sent List.length]. lia.
Qed.

Lemma descendants_pages_endless w fuel :
  endless_pages reads_descendants w ->
  forall url token acc w0,
    server w0 = server w ->
    fst (descendants_pages fuel url token acc w0) = Diverge /\
    List.length (sent (snd (descendants_pages fuel url token acc w0))) =
      (List.length (sent w0) + fuel)%nat.
Proof.
  intros H. induction fuel as [|fuel IH]; intros url token acc w0 Sw.
  - cbn. split; [reflexivity | lia].
  - set (r := {| req_method := "GET"; req_url := url; req_token := token;
                 req_json := None |}).
    destruct (H (List.length (sent w0)) r)
      as (resp & j & items & next & E & T & St & B & Vl & R & N).
    rewrite <- Sw in E.
    destruct (R acc) as (acc' & Rn).
    assert (Step : descendants_pages (S fuel) url token acc w0 =
                   descendants_pages fuel next token acc' (after_send r w0)).
    { cbn [descendants_pages].
      rewrite (bind_step _ _ _ _ _ (do_request_settled _ _ _ _ _ _ E T St)).
      fold r. unfold response_json. rewrite B.
      unfold bind, ret, lift. rewrite Vl. cbn [res_bind py_iter].
      rewrite Rn, N. reflexivity. }
    rewrite Step.
    destruct (IH next token acc' (after_send r w0) Sw) as [D L].
    split; [exact D|]. rewrite L. cbn [after_send sent List.length]. lia.
Qed.

(** X15. The paged listings have no page limit: as long as every page
    the remote side returns can be read and names a next page, the
    listing of resource groups and the walk of the management-group
    descendants keep requesting pages, one request per page, and never
    return, whatever bound is put on the number of pages. *)
Theorem paging_has_no_page_limit (w : world) (fuel : nat) (id token : string) :
  (endless_pages reads_resource_groups w ->
   fst (list_resource_groups fuel id token w) = Diverge /\
   List.length (sent (snd (list_resource_groups fuel id token w))) =
     (List.length (sent w) + fuel)%nat) /\
  (endless_pages reads_descendants w ->
   fst (list_mgs_and_subs_under_mg fuel id token w) = Diverge /\
   List.length (sent (snd (list_mgs_and_subs_under_mg fuel id token w))) =
     (List.length (sent w) + fuel)%nat).
Proof.
  split; intros H.
  - unfold list_resource_groups.
    apply (resource_group_pages_endless w fuel H). reflexivity.
  - unfold list_mgs_and_subs_under_mg.
    match goal with
    | |- context [descendants_pages fuel ?u token ?a] =>
        destruct (descendants_pages_endless w fuel H u token a w eq_refl)
          as [D L];
        unfold bind;
        destruct (descendants_pages fuel u token a w) as [[x|e| |] w1]
    end; try discriminate.
    split; [reflexivity | exact L].
Qed.

Lemma paging_has_no_page_limit_witness :
  let page := ok_response (VDict [("value", VList [VDict [("name", VStr "rg1")]]);
                                  ("nextLink", VStr "https://next")]) in
  let w := initial_world (fun _ _ => page)
             {| year := 2024; month := 6; day := 15 |} in
  fst (list_resource_groups 50 "s1" "t" w) = Diverge /\
  List.length (sent (snd (list_resource_groups 50 "s1" "t" w))) = 50%nat.
Proof.
  intros page w.
  destruct (paging_has_no_page_limit w 50 "s1" "t") as [R _].
  apply R. intros n r.
  exists {| status_code := 200; retry_after := None;
            body := Some (VDict [("value", VList [VDict [("name", VStr "rg1")]]);
                                 ("nextLink", VStr "https://next")]) |}.
  eexists. eexists. eexists.
  split; [reflexivity|]. split; [reflexivity|]. split; [reflexivity|].
  split; [reflexivity|]. split; [reflexivity|]. split; [|reflexivity].
  intros rgs. eexists. reflexivity.
Defined.

End Paging.


(** * The report of a run *)

Section Provenance.

Local Open Scope string_scope.
Local Open Scope list_scope.

(** The rows appended for the budgets of one scope are all built by
    [make_row] with the columns of that scope. *)
Lemma emit_all_rows scope_type scope_id sub_name sub_id last_val prev_two
    forecast_total resource_group budgets :
  forall rows_list rows',
    emit_all rows_list scope_type scope_id sub_name sub_id budgets last_val
      prev_two forecast_total resource_group = Ok rows' ->
    exists new,
      rows' = rows_list ++ new /\
      Forall (fun r => exists b cond will_trigger,
                make_row scope_type scope_id sub_name sub_id resource_group b
                  last_val prev_two forecast_total cond will_trigger = Ok r)
             new.
Proof.
  induction budgets as [|bd rest IH]; intros rows_list rows' H.
  - injection H as <-. exists []. rewrite app_nil_r. split; constructor.
  - cbn [emit_all] in H. apply res_bind_ok in H. destruct H as (rows1 & E & H).
    destruct (emit_budget_rows_inv _ _ _ _ _ _ _ _ _ _ _ E)
      as (b & conds & new1 & _ & -> & F).
    destruct (IH _ _ H) as (new2 & -> & F2).
    exists (new1 ++ new2). rewrite app_assoc. split; [reflexivity|].
    apply Forall_app. split; [|exact F2].
    clear -F. induction F as [|c r cs rs (wt & _ & Er) F IH]; constructor; eauto.
Qed.

Lemma mg_step_rows a token rows mg w rows' w' :
  mg_step a token rows mg w = (Ok rows', w') ->
  exists new,
    rows' = rows ++ new /\ Forall (mg_row_of (managementGroupId mg)) new.
Proof.
  unfold mg_step. intros H.
  apply bind_ok in H. destruct H as (budgets & w1 & _ & H).
  destruct (truthy budgets); cbn [negb] in H.
  - apply bind_ok in H. destruct H as (monthly & w2 & _ & H).
    apply bind_ok in H. destruct H as (fc & w3 & _ & H).
    apply bind_ok in H. destruct H as (l & w4 & _ & H).
    apply lift_ok in H. destruct H as (H & _).
    destruct (emit_all_rows _ _ _ _ _ _ _ _ _ _ _ H) as (new & -> & F).
    exists new. split; [reflexivity|].
    eapply Forall_impl; [|exact F].
    intros r (b & cond & wt & E). unfold mg_row_of. eauto 10.
  - apply ret_ok in H. destruct H as (-> & _).
    exists []. rewrite app_nil_r. split; constructor.
Qed.

Lemma mg_loop_rows a token mgs :
  forall rows w rows' w',
    mg_loop a token rows mgs w = (Ok rows', w') ->
    exists new,
      rows' = rows ++ new /\
      Forall (fun r => exists mg_id, mg_row_of mg_id r) new.
Proof.
  induction mgs as [|mg rest IH]; intros rows w rows' w' H.
  - apply ret_ok in H. destruct H as (-> & _).
    exists []. rewrite app_nil_r. split; constructor.
  - cbn [mg_loop] in H. apply bind_ok in H. destruct H as (rows1 & w1 & E & H).
    destruct (mg_step_rows _ _ _ _ _ _ _ E) as (new1 & -> & F1).
    destruct (IH _ _ _ _ H) as (new2 & -> & F2).
    exists (new1 ++ new2). rewrite app_assoc. split; [reflexivity|].
    apply Forall_app. split; [|exact F2].
    eapply Forall_impl; [|exact F1]. intros r R. eauto.
Qed.

Lemma sub_block_rows a token rows nobudget s w rows' nobudget' w' :
  sub_block a token rows nobudget s w = (Ok (rows', nobudget'), w') ->
  exists new_sub new_nobudget,
    rows' = rows ++ new_sub /\ nobudget' = nobudget ++ new_nobudget /\
    Forall (sub_row_of s) new_sub /\
    Forall (no_budget_row_of s) new_nobudget.
Proof.
  unfold sub_block. intros H.
  apply bind_ok in H. destruct H as (budgets & w1 & _ & H).
  apply bind_ok in H. destruct H as (monthly & w2 & _ & H).
  apply bind_ok in H. destruct H as (fc & w3 & _ & H).
  destruct (truthy budgets).
  - apply bind_ok in H. destruct H as (l & w4 & _ & H).
    apply bind_ok in H. destruct H as (rows1 & w5 & E & H).
    apply lift_ok in E. destruct E as (E & _).
    apply ret_ok in H. destruct H as (H & _). inversion H; subst; clear H.
    destruct (emit_all_rows _ _ _ _ _ _ _ _ _ _ _ E) as (new & -> & F).
    exists new, []. rewrite app_nil_r.
    split; [reflexivity|]. split; [reflexivity|]. split; [|constructor].
    eapply Forall_impl; [|exact F].
    intros r (b & cond & wt & Er). unfold sub_row_of. eauto 10.
  - apply bind_ok in H. destruct H as (r & w4 & E & H).
    apply lift_ok in E. destruct E as (E & _).
    apply ret_ok in H. destruct H as (H & _). inversion H; subst; clear H.
    exists [], [r]. rewrite app_nil_r.
    split; [reflexivity|]. split; [reflexivity|]. split; [constructor|].
    constructor; [|constructor]. unfold no_budget_row_of. eauto.
Qed.

Lemma rg_step_rows a token rows s rg w rows' w' :
  rg_step a token rows s rg w = (Ok rows', w') ->
  exists new, rows' = rows ++ new /\ Forall (rg_row_of s rg) new.
Proof.
  unfold rg_step. intros H.
  apply bind_ok in H. destruct H as (budgets & w1 & _ & H).
  destruct (truthy budgets); cbn [negb] in H.
  - apply bind_ok in H. destruct H as (monthly & w2 & _ & H).
    apply bind_ok in H. destruct H as (fc & w3 & _ & H).
    apply bind_ok in H. destruct H as (l & w4 & _ & H).
    apply lift_ok in H. destruct H as (H & _).
    destruct (emit_all_rows _ _ _ _ _ _ _ _ _ _ _ H) as (new & -> & F).
    exists new. split; [reflexivity|].
    eapply Forall_impl; [|exact F].
    intros r (b & cond & wt & E). unfold rg_row_of. eauto 10.
  - apply ret_ok in H. destruct H as (-> & _).
    exists []. rewrite app_nil_r. split; constructor.
Qed.

Lemma rg_loop_rows a token s (P : string -> Prop) rgs :
  forall rows w rows' w',
    Forall P rgs ->
    rg_loop a token rows s rgs w = (Ok rows', w') ->
    exists new,
      rows' = rows ++ new /\
      Forall (fun r => exists rg, P rg /\ rg_row_of s rg r) new.
Proof.
  induction rgs as [|rg rest IH]; intros rows w rows' w' Hp H.
  - apply ret_ok in H. destruct H as (-> & _).
    exists []. rewrite app_nil_r. split; constructor.
  - cbn [rg_loop] in H. apply bind_ok in H. destruct H as (rows1 & w1 & E & H).
    inversion Hp as [|? ? Prg Prest]; subst.
    destruct (rg_step_rows _ _ _ _ _ _ _ _ E) as (new1 & -> & F1).
    destruct (IH _ _ _ _ Prest H) as (new2 & -> & F2).
    exists (new1 ++ new2). rewrite app_assoc. split; [reflexivity|].
    apply Forall_app. split; [|exact F2].
    eapply Forall_impl; [|exact F1]. intros r R. eauto.
Qed.

Lemma resource_group_names_nonempty items :
  forall rgs rgs',
    Forall (fun rg => rg <> "") rgs ->
    resource_group_names items rgs = Ok rgs' ->
    Forall (fun rg => rg <> "") rgs'.
Proof.
  induction items as [|item items IH]; intros rgs rgs' F H.
  - injection H as <-. exact F.
  - cbn [resource_group_names] in H.
    apply res_bind_ok in H. destruct H as (name & _ & H).
    apply res_bind_ok in H. destruct H as ([n|] & Hn & H).
    + eapply IH; [|exact H]. apply Forall_app. split; [exact F|].
      constructor; [|constructor]. eapply name_of_nonempty. exact Hn.
    + eapply IH; eassumption.
Qed.

Lemma resource_group_pages_nonempty fuel :
  forall url token rgs w rgs' w',
    Forall (fun rg => rg <> "") rgs ->
    resource_group_pages fuel url token rgs w = (Ok rgs', w') ->
    Forall (fun rg => rg <> "") rgs'.
Proof.
  induction fuel as [|fuel IH]; intros url token rgs w rgs' w' F H;
    [discriminate|].
  cbn [resource_group_pages] in H.
  apply bind_ok in H. destruct H as (resp & w1 & _ & H).
  apply bind_ok in H. destruct H as (j & w2 & _ & H).
  apply bind_ok in H. destruct H as (items & w3 & _ & H).
  apply bind_ok in H. destruct H as (rgs1 & w4 & N & H).
  apply lift_ok in N. destruct N as (N & _).
  apply bind_ok in H. destruct H as (next & w5 & _ & H).
  pose proof (resource_group_names_nonempty _ _ _ F N) as F1.
  destruct next as [url'|].
  - eapply IH; eassumption.
  - apply ret_ok in H. destruct H as (-> & _). exact F1.
Qed.

Lemma resource_groups_or_empty_names fuel a token s w rgs w' :
  resource_groups_or_empty fuel a token s w = (Ok rgs, w') ->
  Forall (fun rg => rg <> "" /\ passes (rg_filter a) rg) rgs.
Proof.
  unfold resource_groups_or_empty. intros H.
  apply try_except_ok in H. destruct H as [H|(e & w1 & _ & H)].
  - apply bind_ok in H. destruct H as (rgs0 & w1 & L & H).
    apply ret_ok in H. destruct H as (-> & _).
    unfold list_resource_groups in L.
    pose proof (resource_group_pages_nonempty _ _ _ _ _ _ _
                  (Forall_nil _) L) as N.
    unfold passes. destruct (rg_filter a) as [|f fs] eqn:Ef.
    + eapply Forall_impl; [|exact N]. intros rg Hrg. auto.
    + apply Forall_forall. intros rg I. apply filter_In in I.
      destruct I as [I M]. rewrite Forall_forall in N. auto.
  - apply bind_ok in H. destruct H as (u & w2 & _ & H).
    apply ret_ok in H. destruct H as (-> & _). constructor.
Qed.

Lemma rg_block_rows fuel a token rows s w rows' w' :
  rg_block fuel a token rows s w = (Ok rows', w') ->
  exists new,
    rows' = rows ++ new /\
    Forall (fun r => exists rg,
              (rg <> "" /\ passes (rg_filter a) rg) /\ rg_row_of s rg r) new.
Proof.
  unfold rg_block. intros H.
  apply bind_ok in H. destruct H as (rgs & w1 & E & H).
  apply resource_groups_or_empty_names in E.
  eapply rg_loop_rows; eassumption.
Qed.

Lemma sub_step_rows fuel a token r s w r' w' :
  sub_step fuel a token r s w = (Ok r', w') -> rows_added a [s] r r'.
Proof.
  unfold sub_step. intros H.
  apply bind_ok in H. destruct H as ([rows1 nob1] & w1 & Es & H).
  apply bind_ok in H. destruct H as (rg1 & w2 & Er & H).
  apply ret_ok in H. destruct H as (-> & _).
  unfold rows_added. cbn [mg_rows sub_rows sub_nobudget_rows rg_rows fst snd].
  split; [reflexivity|].
  assert (S : exists new_sub new_nobudget,
             rows1 = sub_rows r ++ new_sub /\
             nob1 = sub_nobudget_rows r ++ new_nobudget /\
             Forall (sub_row_of s) new_sub /\
             Forall (no_budget_row_of s) new_nobudget /\
             (mem "sub" (include_scopes a) = false ->
              new_sub = [] /\ new_nobudget = [])).
  { destruct (mem "sub" (include_scopes a)).
    - destruct (sub_block_rows _ _ _ _ _ _ _ _ _ Es)
        as (n1 & n2 & -> & -> & F1 & F2).
      exists n1, n2. repeat split; auto; discriminate.
    - apply ret_ok in Es. destruct Es as (Es & _). injection Es as -> ->.
      exists [], []. rewrite !app_nil_r. repeat split; auto. }
  assert (R : exists new_rg,
             rg1 = rg_rows r ++ new_rg /\
             Forall (fun x => exists rg,
                       (rg <> "" /\ passes (rg_filter a) rg) /\
                       rg_row_of s rg x) new_rg /\
             (mem "rg" (include_scopes a) = false -> new_rg = [])).
  { destruct (mem "rg" (include_scopes a)).
    - destruct (rg_block_rows _ _ _ _ _ _ _ _ Er) as (n3 & -> & F3).
      exists n3. repeat split; auto; discriminate.
    - apply ret_ok in Er. destruct Er as (-> & _).
      exists []. rewrite app_nil_r. repeat split; auto. }
  destruct S as (n1 & n2 & -> & -> & F1 & F2 & G1).
  destruct R as (n3 & -> & F3 & G3).
  exists n1, n2, n3. repeat split; auto.
  - eapply Forall_impl; [|exact F1]. intros x X. exists s. split; [left|]; auto.
  - eapply Forall_impl; [|exact F2]. intros x X. exists s. split; [left|]; auto.
  - eapply Forall_impl; [|exact F3]. intros x (rg & (N & P) & X).
    exists s, rg. repeat split; auto. left. reflexivity.
  - apply G1. assumption.
  - apply G1. assumption.
Qed.

Lemma rows_added_cons a s rest r0 r1 r2 :
  rows_added a [s] r0 r1 -> rows_added a rest r1 r2 ->
  rows_added a (s :: rest) r0 r2.
Proof.
  intros (M1 & a1 & b1 & c1 & Ea & Eb & Ec & Fa & Fb & Fc & Ga & Gc)
         (M2 & a2 & b2 & c2 & Ea2 & Eb2 & Ec2 & Fa2 & Fb2 & Fc2 & Ga2 & Gc2).
  split; [congruence|].
  exists (a1 ++ a2), (b1 ++ b2), (c1 ++ c2).
  rewrite Ea2, Eb2, Ec2, Ea, Eb, Ec, <- !app_assoc.
  split; [reflexivity|]. split; [reflexivity|]. split; [reflexivity|].
  split; [|split; [|split; [|split]]].
  - apply Forall_app. split.
    + eapply Forall_impl; [|exact Fa]. intros x (s0 & [<-|[]] & X).
      exists s. split; [left; reflexivity | exact X].
    + eapply Forall_impl; [|exact Fa2]. intros x (s0 & I & X).
      exists s0. split; [right; exact I | exact X].
  - apply Forall_app. split.
    + eapply Forall_impl; [|exact Fb]. intros x (s0 & [<-|[]] & X).
      exists s. split; [left; reflexivity | exact X].
    + eapply Forall_impl; [|exact Fb2]. intros x (s0 & I & X).
      exists s0. split; [right; exact I | exact X].
  - apply Forall_app. split.
    + eapply Forall_impl; [|exact Fc]. intros x (s0 & rg & [<-|[]] & X).
      exists s, rg. split; [left; reflexivity | exact X].
    + eapply Forall_impl; [|exact Fc2]. intros x (s0 & rg & I & X).
      exists s0, rg. split; [right; exact I | exact X].
  - intros G. destruct (Ga G) as [-> ->]. destruct (Ga2 G) as [-> ->].
    split; reflexivity.
  - intros G. rewrite (Gc G), (Gc2 G). reflexivity.
Qed.

Lemma sub_loop_rows fuel a token subs :
  forall r w r' w',
    sub_loop fuel a token r subs w = (Ok r', w') -> rows_added a subs r r'.
Proof.
  induction subs as [|s rest IH]; intros r w r' w' H.
  - apply ret_ok in H. destruct H as (-> & _).
    split; [reflexivity|]. exists [], [], []. rewrite !app_nil_r.
    repeat split; auto.
  - cbn [sub_loop] in H. apply bind_ok in H. destruct H as (r1 & w1 & E & H).
    eapply rows_added_cons.
    + eapply sub_step_rows. exact E.
    + eapply IH. exact H.
Qed.

(** Where every row of the report of [main] comes from. *)
Lemma main_rows fuel a token w rep w' :
  main fuel a token w = (Ok rep, w') ->
  exists subs,
    Forall (fun s => passes (sub_filter a) (subscriptionId s)) subs /\
    Forall (fun r => exists mg_id, mg_row_of mg_id r) (mg_rows rep) /\
    (mem "mg" (include_scopes a) = false -> mg_rows rep = []) /\
    rows_added a subs
      {| mg_rows := mg_rows rep; sub_rows := []; sub_nobudget_rows := [];
         rg_rows := [] |} rep.
Proof.
  unfold main. intros H.
  apply bind_ok in H. destruct H as (discovered & w1 & _ & H).
  apply bind_ok in H. destruct H as (mg & w2 & Em & H).
  apply sub_loop_rows in H.
  match type of H with
  | rows_added _ ?l _ _ => exists l
  end.
  assert (Mg : mg_rows rep = mg).
  { destruct H as (M & _). exact M. }
  split; [|split; [|split]].
  - unfold passes. destruct (sub_filter a) as [|f fs].
    + apply Forall_forall. auto.
    + apply Forall_forall. intros s I. apply filter_In in I.
      destruct I as [_ I]. right. exact I.
  - rewrite Mg. destruct (mem "mg" (include_scopes a)).
    + destruct (mg_loop_rows _ _ _ _ _ _ _ Em) as (new & -> & F). exact F.
    + apply ret_ok in Em. destruct Em as (-> & _). constructor.
  - intros G. rewrite Mg. rewrite G in Em.
    apply ret_ok in Em. destruct Em as (-> & _). reflexivity.
  - rewrite Mg. exact H.
Qed.

End Provenance.

Section ReportColumns.

Local Open Scope string_scope.
Local Open Scope list_scope.

Lemma make_row_columns scope_type scope_id sub_name sub_id resource_group b
    last_val prev_two forecast_total cond will_trigger r :
  make_row scope_type scope_id sub_name sub_id resource_group b last_val
    prev_two forecast_total cond will_trigger = Ok r ->
  full_row r /\
  row_field r "ScopeType" = Some (VStr scope_type) /\
  row_field r "ScopeId" = Some (VStr scope_id) /\
  row_field r "SubscriptionName" = Some sub_name /\
  row_field r "SubscriptionId" = Some (VStr sub_id) /\
  row_field r "ResourceGroup" = Some (VStr resource_group).
Proof.
  unfold make_row. intros H. res_inv H. injection H as <-.
  split; [eexists; split; reflexivity|]. repeat split; reflexivity.
Qed.

Lemma no_budget_row_columns sub_scope sub_name sub_id sub_last sub_prev2
    sub_fc r :
  no_budget_row sub_scope sub_name sub_id sub_last sub_prev2 sub_fc = Ok r ->
  full_row r /\
  row_field r "ScopeType" = Some (VStr "Subscription") /\
  row_field r "ScopeId" = Some (VStr sub_scope) /\
  row_field r "SubscriptionName" = Some sub_name /\
  row_field r "SubscriptionId" = Some (VStr sub_id) /\
  row_field r "ResourceGroup" = Some (VStr "").
Proof.
  unfold no_budget_row. intros H. res_inv H. injection H as <-.
  split; [eexists; split; reflexivity|]. repeat split; reflexivity.
Qed.

(** X16. In the report of a run, every row carries the scope of the
    collection it is in: management-group rows have scope type [MG], the
    scope id of a management group, and no subscription id or resource
    group; subscription rows, with or without a budget, have scope type
    [Subscription], the id of their subscription, its scope id, and no
    resource group; resource-group rows have scope type [ResourceGroup],
    their subscription id, a resource group that is not empty, and the
    scope id made of the two. *)
Theorem report_rows_carry_their_scope (fuel : nat) (a : arguments)
    (token : string) (w : world) (rep : report) (w' : world) :
  main fuel a token w = (Ok rep, w') ->
  Forall (fun r =>
            row_field r "ScopeType" = Some (VStr "MG") /\
            (exists mg_id,
               row_field r "ScopeId" =
               Some (VStr ("/providers/Microsoft.Management/managementGroups/"
                           ++ mg_id))) /\
            row_field r "SubscriptionId" = Some (VStr "") /\
            row_field r "ResourceGroup" = Some (VStr ""))
         (mg_rows rep) /\
  Forall (fun r =>
            row_field r "ScopeType" = Some (VStr "Subscription") /\
            (exists id,
               row_field r "SubscriptionId" = Some (VStr id) /\
               row_field r "ScopeId" = Some (VStr ("/subscriptions/" ++ id))) /\
            row_field r "ResourceGroup" = Some (VStr ""))
         (sub_rows rep ++ sub_nobudget_rows rep) /\
  Forall (fun r =>
            row_field r "ScopeType" = Some (VStr "ResourceGroup") /\
            exists id rg,
              rg <> "" /\
              row_field r "SubscriptionId" = Some (VStr id) /\
              row_field r "ResourceGroup" = Some (VStr rg) /\
              row_field r "ScopeId" =
              Some (VStr ("/subscriptions/" ++ id ++ "/resourceGroups/" ++ rg)))
         (rg_rows rep).
Proof.
  intros H. destruct (main_rows _ _ _ _ _ _ H) as (subs & _ & Fm & _ & R).
  destruct R as (_ & n1 & n2 & n3 & E1 & E2 & E3 & F1 & F2 & F3 & _).
  cbn [sub_rows sub_nobudget_rows rg_rows app] in E1, E2, E3.
  rewrite E1, E2, E3. split; [|split].
  - eapply Forall_impl; [|exact Fm].
    intros r (mg_id & b & lv & p2 & ft & c & wt & M).
    apply make_row_columns in M. destruct M as (_ & A & B & _ & C & D).
    repeat split; eauto.
  - apply Forall_app. split.
    + eapply Forall_impl; [|exact F1].
      intros r (s & _ & b & lv & p2 & ft & c & wt & M).
      apply make_row_columns in M. destruct M as (_ & A & B & _ & C & D).
      repeat split; eauto.
    + eapply Forall_impl; [|exact F2].
      intros r (s & _ & lv & p2 & ft & M).
      apply no_budget_row_columns in M. destruct M as (_ & A & B & _ & C & D).
      repeat split; eauto.
  - eapply Forall_impl; [|exact F3].
    intros r (s & rg & _ & N & _ & b & lv & p2 & ft & c & wt & M).
    apply make_row_columns in M. destruct M as (_ & A & B & _ & C & D).
    split; [exact A|]. exists (subscriptionId s), rg. auto.
Qed.

Lemma report_rows_carry_their_scope_witness :
  let a := {| management_group_id := "mg-demo"; months := 1;
              include_scopes := ["sub"]; sub_filter := []; rg_filter := [] |} in
  let w := scripted [one_subscription_page; no_budgets_page;
                     cost_page 30%Q; cost_page 40%Q] in
  exists rep w',
    main 5 a "t" w = (Ok rep, w') /\
    Forall (fun r =>
              row_field r "ScopeType" = Some (VStr "Subscription") /\
              row_field r "SubscriptionId" = Some (VStr "s1"))
           (sub_nobudget_rows rep) /\
    List.length (sub_nobudget_rows rep) = 1%nat.
Proof.
  intros a w.
  destruct (main 5 a "t" w) as [[rep| | |] w'] eqn:E;
    try (apply (f_equal fst) in E; vm_compute in E; discriminate).
  destruct (report_rows_carry_their_scope _ _ _ _ _ _ E) as (_ & F & _).
  exists rep, w'. split; [reflexivity|].
  apply (f_equal fst) in E. vm_compute in E. injection E as <-.
  split; [|reflexivity].
  repeat constructor.
Defined.

(** X17. The filters of the command line limit the rows: with
    [--subscription-ids], every subscription row, with or without a
    budget, and every resource-group row belongs to a subscription whose
    lower-cased id is in the filter; with [--rg-names], every
    resource-group row belongs to a resource group whose lower-cased
    name is in the filter.  Management-group rows are not filtered. *)
Theorem filters_limit_the_rows (fuel : nat) (a : arguments) (token : string)
    (w : world) (rep : report) (w' : world) :
  main fuel a token w = (Ok rep, w') ->
  Forall (fun r => exists id,
            row_field r "SubscriptionId" = Some (VStr id) /\
            passes (sub_filter a) id)
         (sub_rows rep ++ sub_nobudget_rows rep ++ rg_rows rep) /\
  Forall (fun r => exists rg,
            row_field r "ResourceGroup" = Some (VStr rg) /\
            passes (rg_filter a) rg)
         (rg_rows rep).
Proof.
  intros H. destruct (main_rows _ _ _ _ _ _ H) as (subs & Fs & _ & _ & R).
  destruct R as (_ & n1 & n2 & n3 & E1 & E2 & E3 & F1 & F2 & F3 & _).
  cbn [sub_rows sub_nobudget_rows rg_rows app] in E1, E2, E3.
  rewrite E1, E2, E3. rewrite Forall_forall in Fs. split.
  - apply Forall_app. split; [|apply Forall_app; split].
    + eapply Forall_impl; [|exact F1].
      intros r (s & I & b & lv & p2 & ft & c & wt & M).
      apply make_row_columns in M. destruct M as (_ & _ & _ & _ & C & _).
      exists (subscriptionId s). split; [exact C | apply Fs; exact I].
    + eapply Forall_impl; [|exact F2].
      intros r (s & I & lv & p2 & ft & M).
      apply no_budget_row_columns in M. destruct M as (_ & _ & _ & _ & C & _).
      exists (subscriptionId s). split; [exact C | apply Fs; exact I].
    + eapply Forall_impl; [|exact F3].
      intros r (s & rg & I & _ & _ & b & lv & p2 & ft & c & wt & M).
      apply make_row_columns in M. destruct M as (_ & _ & _ & _ & C & _).
      exists (subscriptionId s). split; [exact C | apply Fs; exact I].
  - eapply Forall_impl; [|exact F3].
    intros r (s & rg & _ & _ & P & b & lv & p2 & ft & c & wt & M).
    apply make_row_columns in M. destruct M as (_ & _ & _ & _ & _ & D).
    exists rg. split; [exact D | exact P].
Qed.

Lemma filters_limit_the_rows_witness :
  let a := {| management_group_id := "mg-demo"; months := 1;
              include_scopes := ["sub"]; sub_filter := ["s2"];
              rg_filter := [] |} in
  let w := scripted [one_subscription_page] in
  exists w',
    main 5 a "t" w = (Ok empty_report, w') /\ List.length (sent w') = 1%nat.
Proof.
  intros a w.
  destruct (main 5 a "t" w) as [[rep| | |] w'] eqn:E;
    try (apply (f_equal fst) in E; vm_compute in E; discriminate).
  destruct (filters_limit_the_rows _ _ _ _ _ _ E) as (F & _).
  assert (R : rep = empty_report).
  { apply (f_equal fst) in E. vm_compute in E. injection E as <-. reflexivity. }
  assert (S : List.length (sent w') = 1%nat).
  { apply (f_equal (fun x => List.length (sent (snd x)))) in E.
    cbn [snd] in E. rewrite <- E. vm_compute. reflexivity. }
  exists w'. rewrite R. split; [reflexivity | exact S].
Defined.

End ReportColumns.

Section WorkbookFacts.

Local Open Scope string_scope.
Local Open Scope list_scope.





Lemma append_rows_inv rows :
  forall ws ws',
    append_rows ws rows = Ok ws' ->
    title ws' = title ws /\
    exists lines,
      appended ws' = appended ws ++ lines /\
      Forall2 (fun r cells => row_cells r fieldnames = Ok cells) rows lines.
Proof.
  induction rows as [|r rows IH]; intros ws ws' H.
  - injection H as <-. split; [reflexivity|]. exists [].
    rewrite app_nil_r. split; constructor.
  - cbn [append_rows] in H. apply res_bind_ok in H.
    destruct H as (cells & E & H).
    destruct (IH _ _ H) as (T & lines & A & F). cbn [title appended] in *.
    split; [exact T|]. exists (cells :: lines). split.
    + rewrite A, <- app_assoc. reflexivity.
    + constructor; assumption.
Qed.


Lemma laid_out_flag l wb :
  laid_out l wb -> created_any wb = match l with [] => false | _ => true end.
Proof.
  destruct l; cbn [laid_out]; [intros ->; reflexivity | intros [C _]; exact C].
Qed.

Lemma create_sheet_laid_out t rows l wb wb' :
  laid_out l wb -> create_sheet t rows wb = Ok wb' ->
  laid_out (l ++ nonempty_sheet t rows) wb'.
Proof.
  intros L H. destruct rows as [|r rows].
  - injection H as <-. cbn [nonempty_sheet]. rewrite app_nil_r. exact L.
  - unfold create_sheet in H. rewrite (laid_out_flag _ _ L) in H.
    destruct l as [|x l]; cbn [negb laid_out nonempty_sheet app] in *.
    + subst wb. cbn [sheets new_workbook appended app] in H.
      apply res_bind_ok in H. destruct H as (ws & A & H). injection H as <-.
      destruct (append_rows_inv _ _ _ A) as (T & lines & Ap & F).
      cbn [title appended app] in *.
      split; [reflexivity|]. constructor; [|constructor].
      split; [exact T|]. exists lines. split; [exact Ap | exact F].
    + destruct L as [C F].
      apply res_bind_ok in H. destruct H as (ws & A & H). injection H as <-.
      destruct (append_rows_inv _ _ _ A) as (T & lines & Ap & Fl).
      cbn [title appended app created_any sheets] in *.
      split; [reflexivity|].
      change (x :: l ++ [(t, r :: rows)]) with ((x :: l) ++ [(t, r :: rows)]).
      apply Forall2_app; [exact F|]. constructor; [|constructor].
      split; [exact T|]. exists lines. split; [exact Ap | exact Fl].
Qed.


(** X18. The workbook written for a report holds one sheet for each
    collection of a selected scope that is not empty, in the order
    [MG_Budgets], [Sub_Budgets], [Sub_NoBudget], [RG_Budgets]; each sheet
    starts with the header line and then holds one line per row, read
    column by column.  When there is no such collection the workbook is
    saved as it was created, with its single empty sheet. *)
Theorem workbook_layout (scopes : list string) (rep : report) (wb : workbook) :
  write_workbook scopes rep = Ok wb ->
  laid_out (selected_sheets scopes rep) wb.
Proof.
  unfold write_workbook, selected_sheets. intros H.
  assert (L0 : laid_out [] new_workbook) by reflexivity.
  apply res_bind_ok in H. destruct H as (wb1 & E1 & H).
  assert (L1 : laid_out
                 (if mem "mg" scopes
                  then nonempty_sheet "MG_Budgets" (mg_rows rep) else []) wb1).
  { destruct (mem "mg" scopes).
    - apply (create_sheet_laid_out _ _ [] _ _ L0 E1).
    - injection E1 as <-. exact L0. }
  apply res_bind_ok in H. destruct H as (wb2 & E2 & H).
  set (l1 := if mem "mg" scopes
             then nonempty_sheet "MG_Budgets" (mg_rows rep) else []) in *.
  assert (L2 : laid_out
                 (l1 ++ (if mem "sub" scopes
                         then nonempty_sheet "Sub_Budgets" (sub_rows rep)
                              ++ nonempty_sheet "Sub_NoBudget"
                                   (sub_nobudget_rows rep)
                         else [])) wb2).
  { destruct (mem "sub" scopes).
    - apply res_bind_ok in E2. destruct E2 as (wb' & Ea & Eb).
      rewrite app_assoc.
      eapply create_sheet_laid_out; [|exact Eb].
      eapply create_sheet_laid_out; [exact L1 | exact Ea].
    - injection E2 as <-. rewrite app_nil_r. exact L1. }
  rewrite app_assoc.
  destruct (mem "rg" scopes).
  - eapply create_sheet_laid_out; [exact L2 | exact H].
  - injection H as <-. rewrite app_nil_r. exact L2.
Qed.

Lemma workbook_layout_witness :
  let row := VDict [("ScopeType", VStr "MG"); ("BudgetName", VStr "b1")] in
  let rep := {| mg_rows := [row]; sub_rows := []; sub_nobudget_rows := [];
                rg_rows := [row; row] |} in
  exists wb,
    write_workbook ["mg"; "sub"; "rg"] rep = Ok wb /\
    map title (sheets wb) = ["MG_Budgets"; "RG_Budgets"] /\
    map (fun ws => List.length (appended ws)) (sheets wb) = [2; 3]%nat /\
    laid_out [("MG_Budgets", [row]); ("RG_Budgets", [row; row])] wb.
Proof.
  intros row rep.
  destruct (write_workbook ["mg"; "sub"; "rg"] rep) as [wb| | |] eqn:E;
    try (vm_compute in E; discriminate).
  pose proof (workbook_layout _ _ _ E) as L.
  exists wb. split; [reflexivity|].
  vm_compute in E. injection E as <-.
  split; [reflexivity|]. split; [reflexivity|]. exact L.
Defined.



End WorkbookFacts.

Section Selection.

Local Open Scope string_scope.
Local Open Scope list_scope.



(** X21. When the budgets of a scope cannot be listed, a warning is
    printed and the scope is treated as having no budget.  For a
    management group and for a resource group this ends the step: no
    row is added and no cost or forecast is queried.  A subscription is
    then reported like one that has no budget at all: no budget row and
    exactly one row in the no-budget collection. *)
Theorem budget_listing_failure_policy (a : arguments) (token : string)
    (w w1 : world) (e : exn) :
  (forall rows mg,
     list_budgets_at_scope
       ("/providers/Microsoft.Management/managementGroups/"
        ++ managementGroupId mg) token w = (Raise e, w1) ->
     mg_step a token rows mg w =
     (Ok rows,
      after_print ("  ! MG budgets fetch failed (" ++ managementGroupId mg
                   ++ ")") w1)) /\
  (forall rows s rg,
     list_budgets_at_scope
       ("/subscriptions/" ++ subscriptionId s ++ "/resourceGroups/" ++ rg)
       token w = (Raise e, w1) ->
     rg_step a token rows s rg w =
     (Ok rows,
      after_print ("  ! RG budgets fetch failed (" ++ subscriptionId s ++ "/"
                   ++ rg ++ ")") w1)) /\
  (forall rows nobudget s rows' nobudget' w',
     list_budgets_at_scope ("/subscriptions/" ++ subscriptionId s) token w
       = (Raise e, w1) ->
     sub_block a token rows nobudget s w = (Ok (rows', nobudget'), w') ->
     rows' = rows /\
     exists r,
       nobudget' = nobudget ++ [r] /\ synthetic r /\ no_budget_row_of s r).
Proof.
  split; [|split].
  - intros rows mg H. unfold mg_step, budgets_or_empty, bind, try_except.
    rewrite H. reflexivity.
  - intros rows s rg H. unfold rg_step, budgets_or_empty, bind, try_except.
    rewrite H. reflexivity.
  - intros rows nobudget s rows' nobudget' w' H B.
    destruct (sub_block_spec _ _ _ _ _ _ _ _ _ B)
      as (warning & budgets & w2 & n1 & n2 & Eb & -> & -> & _ & Sy & _ & G).
    assert (Fb : budgets = VList []).
    { unfold budgets_or_empty, try_except in Eb. rewrite H in Eb.
      unfold bind, print, ret in Eb. injection Eb as <- _. reflexivity. }
    subst budgets. destruct (G eq_refl) as [-> L].
    destruct (sub_block_rows _ _ _ _ _ _ _ _ _ B)
      as (m1 & m2 & _ & E2 & _ & O).
    apply app_inv_head in E2. subst m2.
    destruct n2 as [|r [|r' n2]]; try discriminate.
    split; [apply app_nil_r|]. exists r. split; [reflexivity|].
    inversion Sy; inversion O; subst. split; assumption.
Qed.

Lemma budget_listing_failure_policy_witness :
  let a := {| management_group_id := "mg-demo"; months := 3;
              include_scopes := ["sub"]; sub_filter := []; rg_filter := [] |} in
  let s := {| subscriptionId := "s1"; displayName := VStr "Sub One";
              tenantId := VStr "" |} in
  let w := scripted [status_response 403] in
  exists r w',
    sub_block a "t" [] [] s w = (Ok ([], [r]), w') /\ synthetic r.
Proof.
  intros a s w.
  destruct (sub_block a "t" [] [] s w) as [[[rows nob]| | |] w'] eqn:E;
    try (apply (f_equal fst) in E; vm_compute in E; discriminate).
  destruct (budget_listing_failure_policy a "t" w
              (after_send {| req_method := "GET";
                             req_url := "https://management.azure.com/subscriptions/s1/providers/Microsoft.Consumption/budgets?api-version=2023-05-01";
                             req_token := "t"; req_json := None |} w)
              (HTTPError 403)) as (_ & _ & P).
  destruct (P [] [] s rows nob w' eq_refl E) as (-> & r & -> & Sy & _).
  exists r, w'. split; [reflexivity | exact Sy].
Defined.

End Selection.


(** * More on the month windows *)

Section WindowTiling.

Local Open Scope string_scope.
Local Open Scope Z_scope.

Lemma next_of_prev_month y m :
  1 <= m <= 12 -> next_month (prev_month (y, m)) = (y, m).
Proof.
  intros H. unfold prev_month, next_month.
  destruct (m =? 1) eqn:E.
  - apply Z.eqb_eq in E. subst. cbn. f_equal. lia.
  - apply Z.eqb_neq in E.
    replace (m - 1 =? 12) with false by (symmetry; apply Z.eqb_neq; lia).
    f_equal. lia.
Qed.

(** The windows in closed form. *)
Lemma windows_closed_form today n :
  valid_date today = true ->
  MINYEAR <= fst (months_back today (S (Z.to_nat n))) ->
  first_last_day_of_last_n_months today n =
  Ok (elapsed_months today (Z.to_nat n)).
Proof.
  intros V Hmin. apply valid_date_spec in V. destruct V as (Vy & Vm & Vd).
  set (k := Z.to_nat n) in *.
  destruct (iter_prev_month_index (S k) (year today) (month today) Vm)
    as [A B]. fold (months_back today (S k)) in A, B.
  assert (Hlow : month_index (MINYEAR, 1) + Z.of_nat (S k)
                 <= month_index (year today, month today)).
  { unfold month_index in *. cbn [fst snd] in *. unfold MINYEAR in *. lia. }
  unfold first_last_day_of_last_n_months. fold k.
  assert (R : replace_day today 1 = Ok (first_of (year today, month today))).
  { unfold replace_day, first_of. cbn [fst snd].
    pose proof (days_in_month_range (year today) (month today)).
    apply make_date_valid; lia. }
  rewrite R. cbn [res_bind].
  rewrite add_months_prev
    by (try assumption; try lia;
        unfold month_index, MINYEAR in *; cbn [fst snd] in *; lia).
  cbn [res_bind].
  destruct (prev_month_index (year today) (month today) Vm) as [Pm Pi].
  destruct (prev_month (year today, month today)) as [y1 m1] eqn:E.
  cbn [snd] in Pm.
  change {| year := y1; month := m1; day := 1 |} with (first_of (y1, m1)).
  rewrite month_windows_spec.
  - cbn [app]. unfold elapsed_months. rewrite <- seq_shift, map_map.
    f_equal. apply map_ext. intros i. unfold months_back.
    rewrite Nat.iter_succ_r, E. reflexivity.
  - exact Pm.
  - rewrite Pi. unfold month_index, MAXYEAR in *. cbn [fst snd] in *. lia.
  - rewrite Pi. lia.
Qed.

(** X22. The month windows tile the calendar backwards from the current
    month, without gap or overlap: the day after the end of the first
    window is the first day of the current month, and the day after the
    end of every later window is the start of the window listed just
    before it. *)
Theorem month_windows_tile_the_calendar (today : date) (n : Z) :
  valid_date today = true ->
  MINYEAR <= fst (months_back today (S (Z.to_nat n))) ->
  exists windows,
    first_last_day_of_last_n_months today n = Ok windows /\
    List.length windows = Z.to_nat n /\
    (forall start end_,
       nth_error windows 0 = Some (start, end_) ->
       next_day end_ = Ok (first_of (year today, month today))) /\
    (forall i start end_ start' end',
       nth_error windows i = Some (start, end_) ->
       nth_error windows (S i) = Some (start', end') ->
       next_day end' = Ok start).
Proof.
  intros V Hmin. exists (elapsed_months today (Z.to_nat n)).
  split; [apply windows_closed_form; assumption|].
  pose proof V as V'. apply valid_date_spec in V'. destruct V' as (Vy & Vm & Vd).
  set (k := Z.to_nat n) in *.
  assert (Hidx : forall i, 1 <= snd (months_back today i) <= 12 /\
                           month_index (months_back today i) =
                           month_index (year today, month today) - Z.of_nat i).
  { intros i. apply iter_prev_month_index. exact Vm. }
  assert (Step : forall i,
             (i < k)%nat ->
             next_day (snd (month_window (months_back today (S i)))) =
             Ok (first_of (months_back today i))).
  { intros i Hi. destruct (Hidx i) as [Ai Bi].
    destruct (Hidx (S i)) as [A B].
    assert (E : months_back today (S i) = prev_month (months_back today i))
      by reflexivity.
    destruct (months_back today i) as [y0 m0] eqn:E0. cbn [snd] in Ai.
    destruct (months_back today (S i)) as [y m] eqn:E1. cbn [snd] in A.
    rewrite next_day_of_last.
    - rewrite E, next_of_prev_month by exact Ai. reflexivity.
    - exact A.
    - rewrite B. unfold month_index, MAXYEAR in *. cbn [fst snd] in *. lia. }
  split; [|split].
  - unfold elapsed_months. rewrite length_map, length_seq. reflexivity.
  - intros start end_ H.
    destruct k as [|k']; [discriminate|].
    rewrite elapsed_months_nth in H by lia.
    pose proof (Step 0%nat ltac:(lia)) as S0.
    destruct (month_window (months_back today 1)) as [s0 e0].
    injection H as -> ->. exact S0.
  - intros i start end_ start' end' H H'.
    assert (Hi : (S i < k)%nat).
    { assert (L : nth_error (elapsed_months today k) (S i) <> None)
        by (rewrite H'; discriminate).
      apply nth_error_Some in L. unfold elapsed_months in L.
      rewrite length_map, length_seq in L. exact L. }
    rewrite elapsed_months_nth in H by lia.
    rewrite elapsed_months_nth in H' by lia.
    pose proof (Step (S i) Hi) as S1.
    destruct (month_window (months_back today (S (S i)))) as [s1 e1].
    injection H' as -> ->. cbn [snd] in S1. rewrite S1. f_equal.
    destruct (months_back today (S i)) as [y m].
    cbn [month_window] in H. injection H as <- _. reflexivity.
Qed.

Lemma month_windows_tile_the_calendar_witness :
  let today := {| year := 2024; month := 3; day := 31 |} in
  exists windows,
    first_last_day_of_last_n_months today 3 = Ok windows /\
    map (fun p => next_day (snd p)) windows =
      [Ok {| year := 2024; month := 3; day := 1 |};
       Ok {| year := 2024; month := 2; day := 1 |};
       Ok {| year := 2024; month := 1; day := 1 |}] /\
    map fst windows =
      [{| year := 2024; month := 2; day := 1 |};
       {| year := 2024; month := 1; day := 1 |};
       {| year := 2023; month := 12; day := 1 |}].
Proof.
  intros today.
  destruct (month_windows_tile_the_calendar today 3) as (windows & E & _).
  - reflexivity.
  - vm_compute. discriminate.
  - exists windows. split; [exact E|].
    vm_compute in E. injection E as <-. split; reflexivity.
Defined.

End WindowTiling.


(** * Budgets that cannot fail *)

Section Robustness.

Local Open Scope string_scope.
Local Open Scope list_scope.




























End Robustness.
